(** * MCP guardrails gateway: a shallow embedding of the validation engine

    The development follows the TypeScript sources of the gateway:

    - [services/policy-validator.ts]    (module [PolicyValidator])
    - [services/audit-validator.ts]     (module [AuditValidator])
    - [services/scanner-client.ts]      (module [ScannerClient])
    - [services/pii-validator.ts]       (module [PIIValidator])
    - [services/regex-validator.ts]     (module [RegexValidator])
    - [services/rate-limit-validator.ts](module [RateLimitValidator])
    - [services/policy-manager.ts]      (module [PolicyManager])
    - [services/mcp-metadata-validator.ts] and [services/threat-reporter.ts]
      (modules [McpMetadataValidator], [ThreatReporter])
    - [services/mcp-processor.ts]       (module [MCPProcessor])
    - [handlers/validation-handler.ts]  (module [ValidationHandler])

    Modelling conventions.

    - A JavaScript string is a Rocq [string] (a sequence of 8-bit code units).
    - A JavaScript number is a binary64 [float] where the code receives it
      from JSON, and an exact integer [Z] where the code counts, reads the
      clock or does 32-bit bit arithmetic.
    - An object used as a dictionary is a [gmap] over its own string keys;
      the members inherited from [Object.prototype] are not modelled.
    - A thrown exception is the [Throw] case of [outcome].
    - What the host runtime provides ([JSON.parse], [JSON.stringify],
      number printing and parsing, the [RegExp] constructor) is the class
      [JsRuntime]; remote services are oracles passed as arguments, the way
      the sources pass their bindings.
    - Console logging and wall-clock timing fields are left out, save for
      the string conversions that the template literals of a message
      perform on values read from a JSON document: such a conversion can
      throw, and is kept where the source has it.

    The definitions come first, module by module; the module [Reference]
    and its companions give an executable runtime for the worked examples;
    the properties follow. *)

From Stdlib Require Import ZArith NArith String Ascii List Bool Lia.
From Stdlib Require Import Floats.
From stdpp Require Import gmap strings.

Import ListNotations.

Set Warnings "-register-all,-inexact-float".

(* ================================================================== *)
(** * JavaScript strings and numbers *)
(* ================================================================== *)

Module Js.

(** The double-quote and line-feed characters, and one-character strings. *)
Definition dq : ascii := "034"%char.
Definition lf : ascii := "010"%char.
Definition str1 (c : ascii) : string := String c EmptyString.
Definition nl : string := str1 lf.

(** Exceptions the modelled code can raise. *)
Inductive js_error :=
| TypeError
| SyntaxError
| NetworkError
| HttpError
| PayloadTooLarge.

Inductive outcome (A : Type) :=
| Ret (a : A)
| Throw (e : js_error).
Arguments Ret {A} a.
Arguments Throw {A} e.

Definition bind {A B} (m : outcome A) (k : A -> outcome B) : outcome B :=
  match m with
  | Ret a => k a
  | Throw e => Throw e
  end.

(** [try { m } catch { h }] *)
Definition try_catch {A} (m : outcome A) (h : js_error -> A) : A :=
  match m with
  | Ret a => a
  | Throw e => h e
  end.

(** ** Characters *)

Definition code (c : ascii) : N := N_of_ascii c.

Definition in_range (lo hi c : ascii) : bool :=
  ((code lo <=? code c) && (code c <=? code hi))%N.

Definition is_upper (c : ascii) : bool := in_range "A" "Z" c.
Definition is_lower (c : ascii) : bool := in_range "a" "z" c.
Definition is_digit (c : ascii) : bool := in_range "0" "9" c.

(** Case mapping of one code unit: the ASCII letters and the Latin-1
    letters whose other case is again a single code unit below 256. *)
Definition is_upper_latin1 (c : ascii) : bool :=
  let n := code c in
  ((192 <=? n) && (n <=? 222) && negb (n =? 215))%N.
Definition is_lower_latin1 (c : ascii) : bool :=
  let n := code c in
  ((224 <=? n) && (n <=? 254) && negb (n =? 247))%N.

Definition lower_char (c : ascii) : ascii :=
  if is_upper c || is_upper_latin1 c then ascii_of_N (code c + 32) else c.
Definition upper_char (c : ascii) : ascii :=
  if is_lower c || is_lower_latin1 c then ascii_of_N (code c - 32) else c.

(** White space as [String.prototype.trim] and [parseInt] see it. *)
Definition is_space (c : ascii) : bool :=
  let n := code c in
  ((9 <=? n) && (n <=? 13) || (n =? 32) || (n =? 160))%N.

(** ** Strings *)

Fixpoint map_string (f : ascii -> ascii) (s : string) : string :=
  match s with
  | EmptyString => EmptyString
  | String c s' => String (f c) (map_string f s')
  end.

Definition toLowerCase : string -> string := map_string lower_char.
Definition toUpperCase : string -> string := map_string upper_char.

(** Truthiness of a string: every string but the empty one. *)
Definition truthy_string (s : string) : bool :=
  match s with
  | EmptyString => false
  | String _ _ => true
  end.

(** [s.length], in binary so that megabyte payloads stay cheap. *)
Fixpoint length_from (acc : N) (s : string) : N :=
  match s with
  | EmptyString => acc
  | String _ s' => length_from (N.succ acc) s'
  end.
Definition length (s : string) : N := length_from 0 s.

Fixpoint rev_onto (s acc : string) : string :=
  match s with
  | EmptyString => acc
  | String c s' => rev_onto s' (String c acc)
  end.
Definition rev (s : string) : string := rev_onto s EmptyString.

Fixpoint trimStart (s : string) : string :=
  match s with
  | EmptyString => EmptyString
  | String c s' => if is_space c then trimStart s' else s
  end.
Definition trimEnd (s : string) : string := rev (trimStart (rev s)).
Definition trim (s : string) : string := trimEnd (trimStart s).

(** [s.split(c)] for a one-character separator. *)
Fixpoint split (c : ascii) (s : string) : list string :=
  match s with
  | EmptyString => [EmptyString]
  | String a s' =>
      if Ascii.eqb a c then EmptyString :: split c s'
      else match split c s' with
           | [] => [str1 a]
           | h :: t => String a h :: t
           end
  end.

(** [parts.join(sep)] *)
Fixpoint join (sep : string) (parts : list string) : string :=
  match parts with
  | [] => EmptyString
  | [p] => p
  | p :: rest => p +:+ sep +:+ join sep rest
  end.

(** [s.indexOf(c)] and [s.lastIndexOf(c)] for a one-character needle. *)
Fixpoint indexOf_from (c : ascii) (s : string) (i : nat) : option nat :=
  match s with
  | EmptyString => None
  | String a s' => if Ascii.eqb a c then Some i else indexOf_from c s' (S i)
  end.
Definition indexOf (c : ascii) (s : string) : option nat := indexOf_from c s 0.

Fixpoint lastIndexOf_from (c : ascii) (s : string) (i : nat) (found : option nat)
  : option nat :=
  match s with
  | EmptyString => found
  | String a s' =>
      lastIndexOf_from c s' (S i) (if Ascii.eqb a c then Some i else found)
  end.
Definition lastIndexOf (c : ascii) (s : string) : option nat :=
  lastIndexOf_from c s 0 None.

(** [s.substring(0, n)] and [s.substring(n)] *)
Fixpoint take (n : nat) (s : string) : string :=
  match n, s with
  | S n', String c s' => String c (take n' s')
  | _, _ => EmptyString
  end.
Fixpoint drop (n : nat) (s : string) : string :=
  match n, s with
  | S n', String _ s' => drop n' s'
  | _, _ => s
  end.

(** ** Integers in decimal *)

Local Open Scope Z_scope.

Definition digit_char (d : Z) : ascii := ascii_of_N (48 + Z.to_N d).

(** Digits of a non-negative integer, most significant first; the fuel
    bounds the number of digits. *)
Fixpoint digits_onto (fuel : nat) (n : Z) (acc : string) : string :=
  match fuel with
  | O => acc
  | S fuel' =>
      let acc' := String (digit_char (n mod 10)) acc in
      if (n <? 10)%Z then acc' else digits_onto fuel' (n / 10) acc'
  end.

(** [String(n)] for an integer [n]. *)
Definition Z_toString (n : Z) : string :=
  let ds := digits_onto (S (Z.to_nat (Z.log2 (Z.abs n)))) (Z.abs n) EmptyString in
  if (n <? 0)%Z then String "-" ds else ds.

(** ** [parseInt]

    Leading white space is skipped, a sign is read, a [0x] prefix selects
    base sixteen, and digits are read up to the first character that is
    not one.  [None] is NaN. *)

Definition digit_value (radix : Z) (c : ascii) : option Z :=
  let n := Z.of_N (code c) in
  let v :=
    if is_digit c then Some (n - 48)
    else if is_lower c then Some (n - 97 + 10)
    else if is_upper c then Some (n - 65 + 10)
    else None in
  match v with
  | Some d => if (d <? radix)%Z then Some d else None
  | None => None
  end.

Fixpoint read_digits (radix : Z) (s : string) (acc : option Z) : option Z :=
  match s with
  | EmptyString => acc
  | String c s' =>
      match digit_value radix c with
      | Some d =>
          read_digits radix s'
            (Some (match acc with Some a => a * radix + d | None => d end)%Z)
      | None => acc
      end
  end.

Definition strip_hex_prefix (s : string) : option string :=
  match s with
  | String "0" (String x s') =>
      if Ascii.eqb x "x" || Ascii.eqb x "X" then Some s' else None
  | _ => None
  end.

Definition parseInt (s : string) : option Z :=
  let s := trimStart s in
  let '(neg, s) :=
    match s with
    | String "-" s' => (true, s')
    | String "+" s' => (false, s')
    | _ => (false, s)
    end in
  let mag :=
    match strip_hex_prefix s with
    | Some s' => read_digits 16 s' None
    | None => read_digits 10 s None
    end in
  match mag with
  | Some m => Some (if neg then (- m)%Z else m)
  | None => None
  end.

(** ** 32-bit integer conversions and operators *)

Definition ToUint32 (x : option Z) : Z :=
  match x with
  | None => 0
  | Some z => z mod 2 ^ 32
  end%Z.

Definition ToInt32 (x : option Z) : Z :=
  let u := ToUint32 x in
  (if u <? 2 ^ 31 then u else u - 2 ^ 32)%Z.

(** [a << n] *)
Definition shl (a : option Z) (n : Z) : Z :=
  ToInt32 (Some (Z.shiftl (ToInt32 a) (n mod 32))).
(** [a >>> 0] *)
Definition ushr0 (a : option Z) : Z := ToUint32 a.
(** [~a] *)
Definition bitnot (a : option Z) : Z := Z.lnot (ToInt32 a).
(** [a & b] *)
Definition bitand (a b : option Z) : Z := Z.land (ToInt32 a) (ToInt32 b).
(** [a + b] on numbers *)
Definition add (a b : option Z) : option Z :=
  match a, b with
  | Some x, Some y => Some (x + y)%Z
  | _, _ => None
  end.

(** [Math.ceil(a / b)] for integers [a] and positive [b]. *)
Definition ceil_div (a b : Z) : Z := (- ((- a) / b))%Z.

End Js.

(* ================================================================== *)
(** * Regular expressions: the backtracking matcher of the runtime *)
(* ================================================================== *)

Module RegExp.

(** Abstract syntax of the patterns the validators use. *)
Inductive node :=
| Empty
| Char (c : ascii)
| Class (negated : bool) (ranges : list (ascii * ascii))
| WordBoundary
| Seq (a b : node)
| Alt (a b : node)
| Repeat (a : node) (min : nat) (max : option nat).

Fixpoint seq (rs : list node) : node :=
  match rs with
  | [] => Empty
  | [r] => r
  | r :: rs' => Seq r (seq rs')
  end.

Fixpoint lit (s : string) : node :=
  match s with
  | EmptyString => Empty
  | String c EmptyString => Char c
  | String c s' => Seq (Char c) (lit s')
  end.

Definition opt (r : node) : node := Repeat r 0 (Some 1).
Definition plus (r : node) : node := Repeat r 1 None.
Definition one (c : ascii) : ascii * ascii := (c, c).

(** A position in the subject: the code unit before it, what is left,
    and the index. *)
Record state := { prev : option ascii; rest : string; pos : nat }.

Definition is_word (c : ascii) : bool :=
  Js.is_upper c || Js.is_lower c || Js.is_digit c || Ascii.eqb c "_".

Definition is_word_opt (c : option ascii) : bool :=
  match c with
  | Some a => is_word a
  | None => false
  end.

Definition peek (s : string) : option ascii :=
  match s with
  | EmptyString => None
  | String c _ => Some c
  end.

Definition char_eq (icase : bool) (a c : ascii) : bool :=
  if icase then Ascii.eqb (Js.upper_char a) (Js.upper_char c) else Ascii.eqb a c.

Definition in_ranges (ranges : list (ascii * ascii)) (a : ascii) : bool :=
  existsb (fun r => Js.in_range (fst r) (snd r) a) ranges.

Definition class_has (icase : bool) (ranges : list (ascii * ascii)) (a : ascii) : bool :=
  if icase
  then in_ranges ranges a || in_ranges ranges (Js.upper_char a)
       || in_ranges ranges (Js.lower_char a)
  else in_ranges ranges a.

Definition advance (st : state) (a : ascii) (s' : string) : state :=
  {| prev := Some a; rest := s'; pos := S (pos st) |}.

(** The matcher, in continuation-passing style: [k] is what has to match
    after [r]; the first successful path wins.  A greedy repetition tries
    one more iteration before it tries to stop, and refuses an iteration
    that consumes nothing once the minimum is reached. *)
Fixpoint m (icase : bool) (r : node) (st : state) (k : state -> option nat)
  {struct r} : option nat :=
  match r with
  | Empty => k st
  | Char c =>
      match rest st with
      | String a s' => if char_eq icase a c then k (advance st a s') else None
      | EmptyString => None
      end
  | Class negated ranges =>
      match rest st with
      | String a s' =>
          if xorb negated (class_has icase ranges a) then k (advance st a s') else None
      | EmptyString => None
      end
  | WordBoundary =>
      if xorb (is_word_opt (prev st)) (is_word_opt (peek (rest st))) then k st else None
  | Seq a b => m icase a st (fun st' => m icase b st' k)
  | Alt a b =>
      match m icase a st k with
      | Some e => Some e
      | None => m icase b st k
      end
  | Repeat a mn mx =>
      (fix rep (fuel mn : nat) (mx : option nat) (st : state) {struct fuel} : option nat :=
         match fuel with
         | O => None
         | S fuel' =>
             match mx with
             | Some O => k st
             | _ =>
                 match m icase a st
                         (fun st' =>
                            if Nat.eqb mn 0 && Nat.eqb (pos st') (pos st) then None
                            else rep fuel' (Nat.pred mn) (option_map Nat.pred mx) st')
                 with
                 | Some e => Some e
                 | None => if Nat.eqb mn 0 then k st else None
                 end
             end
         end) (S (mn + String.length (rest st))) mn mx st
  end.

(** Leftmost match at or after position [i]. *)
Fixpoint scan (icase : bool) (r : node) (before : option ascii) (s : string) (i : nat)
  : option (nat * nat) :=
  match m icase r {| prev := before; rest := s; pos := i |} (fun st => Some (pos st)) with
  | Some e => Some (i, e)
  | None =>
      match s with
      | EmptyString => None
      | String c s' => scan icase r (Some c) s' (S i)
      end
  end.

(** The subject from index [i] on, with the code unit before it; [None]
    when [i] is past the end. *)
Fixpoint seek (i : nat) (before : option ascii) (s : string) : option (option ascii * string) :=
  match i, s with
  | O, _ => Some (before, s)
  | S i', String c s' => seek i' (Some c) s'
  | S _, EmptyString => None
  end.

(** A [RegExp] object: the pattern, two flags, and the mutable
    [lastIndex]. *)
Record regexp := { source : node; global : bool; ignoreCase : bool; lastIndex : nat }.

Definition set_lastIndex (R : regexp) (i : nat) : regexp :=
  {| source := source R; global := global R; ignoreCase := ignoreCase R; lastIndex := i |}.

(** [RegExpBuiltinExec]: a global expression starts at [lastIndex], leaves
    it at the end of the match, and resets it to 0 on failure; another
    expression starts at 0 and leaves [lastIndex] alone. *)
Definition exec (R : regexp) (subj : string) : option (nat * nat) * regexp :=
  let start := if global R then lastIndex R else 0 in
  let found :=
    match seek start None subj with
    | Some (before, s) => scan (ignoreCase R) (source R) before s start
    | None => None
    end in
  match found with
  | Some (i, e) => (Some (i, e), if global R then set_lastIndex R e else R)
  | None => (None, if global R then set_lastIndex R 0 else R)
  end.

(** [R.test(subj)] *)
Definition test (R : regexp) (subj : string) : bool * regexp :=
  let '(found, R') := exec R subj in
  (match found with Some _ => true | None => false end, R').

(** The matches a global replace collects: [exec] until it fails, stepping
    over an empty match. *)
Fixpoint collect (fuel : nat) (R : regexp) (subj : string)
  : list (nat * nat) * regexp :=
  match fuel with
  | O => ([], R)
  | S fuel' =>
      match exec R subj with
      | (None, R') => ([], R')
      | (Some (i, e), R') =>
          let R'' := if Nat.eqb i e then set_lastIndex R' (S (lastIndex R')) else R' in
          let '(more, Rend) := collect fuel' R'' subj in
          ((i, e) :: more, Rend)
      end
  end.

Definition slice (a b : nat) (subj : string) : string := Js.take (b - a) (Js.drop a subj).

Fixpoint substitute (subj replacement : string) (results : list (nat * nat))
  (next : nat) (acc : string) : string :=
  match results with
  | [] => acc +:+ Js.drop next subj
  | (i, e) :: more =>
      if Nat.leb next i
      then substitute subj replacement more e (acc +:+ slice next i subj +:+ replacement)
      else substitute subj replacement more next acc
  end.

(** [subj.replace(R, replacement)] for a replacement without [$]: every match
    for a global expression, the first match otherwise. *)
Definition replace (R : regexp) (subj replacement : string) : string * regexp :=
  if global R then
    let '(results, R') := collect (String.length subj + 2) (set_lastIndex R 0) subj in
    (substitute subj replacement results 0 EmptyString, R')
  else
    match exec R subj with
    | (Some (i, e), R') => (substitute subj replacement [(i, e)] 0 EmptyString, R')
    | (None, R') => (subj, R')
    end.

(** Character classes used below. *)
Definition digit : node := Class false [("0", "9")]%char.
Definition space_ranges : list (ascii * ascii) :=
  [("009", "013"); one " "; one "160"]%char.
Definition alnum : list (ascii * ascii) := [("A", "Z"); ("a", "z"); ("0", "9")]%char.
Definition times (r : node) (n : nat) : node := Repeat r n (Some n).

End RegExp.

(* ================================================================== *)
(** * JSON values and the host runtime *)
(* ================================================================== *)

Module Json.
Import Js.

(** A value produced by [JSON.parse]; [undefined] is [None] in an
    [option json].  The fields of an object are listed in the order in
    which the engine enumerates its properties. *)
Inductive json :=
| JNull
| JBool (b : bool)
| JNum (x : float)
| JStr (s : string)
| JArr (items : list json)
| JObj (fields : list (string * json)).

Fixpoint assoc (k : string) (fields : list (string * json)) : option json :=
  match fields with
  | [] => None
  | (k', v) :: rest => if String.eqb k k' then Some v else assoc k rest
  end.

(** [v.k] for one of the property names the validators read; none of them
    is a member of a string, an array, a number or a boolean.  Reading a
    property of [null] throws. *)
Definition get (v : json) (k : string) : outcome (option json) :=
  match v with
  | JNull => Throw TypeError
  | JObj fields => Ret (assoc k fields)
  | _ => Ret None
  end.

(** [v?.k] on a possibly undefined value. *)
Definition get_opt (v : option json) (k : string) : option json :=
  match v with
  | Some (JObj fields) => assoc k fields
  | _ => None
  end.

Definition is_nan (x : float) : bool := negb (PrimFloat.eqb x x).

(** Truthiness. *)
Definition truthy (v : json) : bool :=
  match v with
  | JNull => false
  | JBool b => b
  | JNum x => negb (PrimFloat.eqb x 0%float) && negb (is_nan x)
  | JStr s => truthy_string s
  | JArr _ | JObj _ => true
  end.

Definition truthy_opt (v : option json) : bool :=
  match v with
  | Some j => truthy j
  | None => false
  end.

End Json.

Import Json.

(** What the JavaScript engine provides.  [JSON_parse] and [RegExp_compile]
    answer [None] where the engine throws a [SyntaxError]; the empty string
    is not a JSON text. *)
Class JsRuntime := {
  JSON_parse : string -> option json;
  JSON_stringify : json -> string;
  Number_toString : float -> string;
  StringToNumber : string -> float;
  RegExp_compile : string -> option RegExp.node;
  JSON_parse_empty : JSON_parse EmptyString = None;
}.

Module Coerce.
Import Js.

Section WithRuntime.
Context `{RT : JsRuntime}.

(** [String(v)], the conversion that a template literal, a property key,
    [Array.prototype.join] and the replacement text of [String.prototype.replace]
    apply.  A primitive always converts.  An object is converted by its
    [toString] member and then its [valueOf] member: the inherited
    [toString] answers [[object Object]]; an own member named [toString] is
    never a function in a parsed document and hides the inherited one, no
    [valueOf] member answers a primitive, and the conversion throws a
    [TypeError].  An array joins the conversions of its items with a
    comma, [null] counting as the empty string. *)
Fixpoint ToString (v : json) : outcome string :=
  match v with
  | JNull => Ret "null"
  | JBool true => Ret "true"
  | JBool false => Ret "false"
  | JNum x => Ret (Number_toString x)
  | JStr s => Ret s
  | JArr items =>
      bind ((fix each (l : list json) : outcome (list string) :=
               match l with
               | [] => Ret []
               | JNull :: l' => bind (each l') (fun parts => Ret (EmptyString :: parts))
               | j :: l' =>
                   bind (ToString j) (fun part =>
                     bind (each l') (fun parts => Ret (part :: parts)))
               end) items)
        (fun parts => Ret (join "," parts))
  | JObj fields =>
      match assoc "toString" fields with
      | Some _ => Throw TypeError
      | None => Ret "[object Object]"
      end
  end.

(** The conversion of a value that may be [undefined]. *)
Definition ToString_opt (v : option json) : outcome string :=
  match v with
  | Some j => ToString j
  | None => Ret "undefined"
  end.

(** [items.join(sep)] on an array of values. *)
Fixpoint joinParts (items : list json) : outcome (list string) :=
  match items with
  | [] => Ret []
  | JNull :: rest => bind (joinParts rest) (fun parts => Ret (EmptyString :: parts))
  | j :: rest =>
      bind (ToString j) (fun part =>
        bind (joinParts rest) (fun parts => Ret (part :: parts)))
  end.

Definition joinValues (sep : string) (items : list json) : outcome string :=
  bind (joinParts items) (fun parts => Ret (join sep parts)).

(** [Number(v)], the conversion a comparison with a number applies.  An
    object or an array is first converted to a primitive, which throws
    where [String(v)] throws. *)
Definition ToNumber (v : option json) : outcome float :=
  match v with
  | None => Ret PrimFloat.nan
  | Some JNull => Ret 0%float
  | Some (JBool true) => Ret 1%float
  | Some (JBool false) => Ret 0%float
  | Some (JNum x) => Ret x
  | Some (JStr s) => Ret (StringToNumber s)
  | Some j => bind (ToString j) (fun s => Ret (StringToNumber s))
  end.

(** [v > c] and [v < c] for a numeric constant [c]. *)
Definition gt (v : option json) (c : float) : outcome bool :=
  bind (ToNumber v) (fun x => Ret (PrimFloat.ltb c x)).
Definition lt (v : option json) (c : float) : outcome bool :=
  bind (ToNumber v) (fun x => Ret (PrimFloat.ltb x c)).

(** [JSON.parse(s)] as a computation that may throw. *)
Definition parse (s : string) : outcome json :=
  match JSON_parse s with
  | Some j => Ret j
  | None => Throw SyntaxError
  end.

End WithRuntime.
End Coerce.

(* ================================================================== *)
(** * Shared types ([types/mcp.ts]) *)
(* ================================================================== *)

Module Types.

Record FilterRule := {
  type : string;
  pattern : option string;
  action : option string;
  config : option json;
}.

Record PolicyFilters := {
  requestPayload : option (list FilterRule);
  responsePayload : option (list FilterRule);
}.

Record Policy := {
  id : string;
  name : string;
  active : bool;
  default_action : string;
  filters : PolicyFilters;
}.

Record ApprovalConditions := {
  expiresAt : option Z;
  allowedIps : option (list string);
  allowedIpRanges : option (list string);
  whitelistedEndpoints : option (list string);
}.

Record AuditPolicy := {
  resourceName : string;
  remarks : option string;
  markedBy : option string;
  approvalConditions : option ApprovalConditions;
}.

(** Modelled from the spec: the identifier kinds of a rate-limit
    configuration ([RATE_LIMIT_IDENTIFIER_TYPE]), whose declaration is not
    among the sources. *)
Inductive RateLimitIdentifierType := IP | USER | TOOL.

Record RateLimitConfig := {
  enabled : bool;
  limit : Z;
  windowSeconds : Z;
  identifierTypes : list RateLimitIdentifierType;
}.

Record ValidationContext := {
  ip : option string;
  destIP : option string;
  endpoint : option string;
  method : option string;
  requestHeaders : option (list (string * string));
  responseHeaders : option (list (string * string));
  statusCode : option float;
  ctx_requestPayload : option string;
  ctx_responsePayload : option string;
  mcpServerName : option string;
  policies : option (list Policy);
  auditPolicies : option (gmap string AuditPolicy);
  hasAuditRules : option bool;
  rateLimitPolicy : option RateLimitConfig;
}.

(** A value stored in the free-form [metadata] of a result. *)
Inductive meta_value :=
| MStr (s : string)
| MInt (n : Z)
| MJson (j : option json).

Record ValidationResult := {
  allowed : bool;
  modified : bool;
  modifiedPayload : option string;
  reason : option string;
  metadata : option (list (string * meta_value));
}.

(** [{ allowed: true, modified: false }] *)
Definition allow : ValidationResult :=
  {| allowed := true; modified := false; modifiedPayload := None;
     reason := None; metadata := None |}.

(** [{ allowed: false, modified: false, reason, metadata }] *)
Definition block (why : string) (meta : list (string * meta_value)) : ValidationResult :=
  {| allowed := false; modified := false; modifiedPayload := None;
     reason := Some why; metadata := Some meta |}.

(** [{ allowed: true, modified: true, modifiedPayload }] *)
Definition redact (payload : string) : ValidationResult :=
  {| allowed := true; modified := true; modifiedPayload := Some payload;
     reason := None; metadata := None |}.

Fixpoint meta_get (k : string) (meta : list (string * meta_value)) : option meta_value :=
  match meta with
  | [] => None
  | (k', v) :: rest => if String.eqb k k' then Some v else meta_get k rest
  end.

(** [result.metadata?.k] *)
Definition metadata_of (r : ValidationResult) (k : string) : option meta_value :=
  match metadata r with
  | Some meta => meta_get k meta
  | None => None
  end.

Record ScannerInfo := {
  scanner_type : string;
  scanner_name : string;
  scanner_config : json;
}.

Record SingleScanRequest := {
  req_text : string;
  req_scanner_type : string;
  req_scanner_name : string;
  req_config : json;
}.

Record ScanResponse := {
  results : list json;
  success_count : nat;
  failure_count : nat;
}.

(** [headers[k]] on a header record, kept in insertion order. *)
Fixpoint header (k : string) (headers : list (string * string)) : option string :=
  match headers with
  | [] => None
  | (k', v) :: rest => if String.eqb k k' then Some v else header k rest
  end.

(** [a || b] on optional strings. *)
Definition or_string (a : option string) (b : string) : string :=
  match a with
  | Some s => if Js.truthy_string s then s else b
  | None => b
  end.

Definition truthy_ostring (a : option string) : bool :=
  match a with
  | Some s => Js.truthy_string s
  | None => false
  end.

End Types.

(* ================================================================== *)
(** * PII validator ([services/pii-validator.ts]) *)
(* ================================================================== *)

Module PIIValidator.
Import Js Types RegExp.

Definition g (r : node) (icase : bool) : regexp :=
  {| source := r; global := true; ignoreCase := icase; lastIndex := 0 |}.

Definition sep_dash_dot_space : node := opt (Class false ([one "-"; one "."] ++ space_ranges))%char.
Definition sep_dash_space : node := opt (Class false (one "-"%char :: space_ranges)).
Definition delimiters : node := plus (Class false (space_ranges ++ [one ":"; one "="]))%char.
Definition non_space : node := plus (Class true space_ranges).

(** [/\b[A-Za-z0-9._%+-]+@[A-Za-z0-9.-]+\.[A-Z|a-z]{2,}\b/g] *)
Definition email : node :=
  seq [WordBoundary;
       plus (Class false (alnum ++ [one "."; one "_"; one "%"; one "+"; one "-"]))%char;
       Char "@";
       plus (Class false (alnum ++ [one "."; one "-"]))%char;
       Char ".";
       Repeat (Class false [("A", "Z"); one "|"; ("a", "z")]%char) 2 None;
       WordBoundary].

(** [/\b(\+?\d{1,3}[-.\s]?)?(\(?\d{3}\)?[-.\s]?)?\d{3}[-.\s]?\d{4}\b/g] *)
Definition phone : node :=
  seq [WordBoundary;
       opt (seq [opt (Char "+"); Repeat digit 1 (Some 3); sep_dash_dot_space]);
       opt (seq [opt (Char "("); times digit 3; opt (Char ")"); sep_dash_dot_space]);
       times digit 3; sep_dash_dot_space; times digit 4;
       WordBoundary].

(** [/\b\d{3}-\d{2}-\d{4}\b/g] *)
Definition ssn : node :=
  seq [WordBoundary; times digit 3; Char "-"; times digit 2; Char "-"; times digit 4;
       WordBoundary].

(** [/\b\d{4}[-\s]?\d{4}[-\s]?\d{4}[-\s]?\d{4}\b/g] *)
Definition credit_card : node :=
  seq [WordBoundary; times digit 4; sep_dash_space; times digit 4; sep_dash_space;
       times digit 4; sep_dash_space; times digit 4; WordBoundary].

(** [/\b(?:\d{1,3}\.){3}\d{1,3}\b/g] *)
Definition ip_address : node :=
  seq [WordBoundary; times (Seq (Repeat digit 1 (Some 3)) (Char ".")) 3;
       Repeat digit 1 (Some 3); WordBoundary].

(** [/\b(password|passwd|pwd)[\s:=]+[^\s]+/gi] *)
Definition password : node :=
  seq [WordBoundary; Alt (lit "password") (Alt (lit "passwd") (lit "pwd"));
       delimiters; non_space].

(** [/\b(api[_-]?key|apikey|access[_-]?token)[\s:=]+[^\s]+/gi] *)
Definition api_key : node :=
  let us := opt (Class false [one "_"; one "-"]%char) in
  seq [WordBoundary;
       Alt (seq [lit "api"; us; lit "key"])
         (Alt (lit "apikey") (seq [lit "access"; us; lit "token"]));
       delimiters; non_space].

(** [/\bhttps?:\/\/[^\s]+/gi] *)
Definition url : node :=
  seq [WordBoundary; lit "http"; opt (Char "s"); lit "://"; non_space].

(** The module-level table.  Its expressions are objects shared by every
    call, so a call hands the table on with the [lastIndex] it left. *)
Definition PII_PATTERNS : gmap string regexp :=
  list_to_map
    [("email", g email false); ("phone", g phone false); ("ssn", g ssn false);
     ("credit_card", g credit_card false); ("ip_address", g ip_address false);
     ("password", g password true); ("api_key", g api_key true); ("url", g url true)]%string.

(** [getPIIRegex(piiType)]: the expression the table holds under the
    lower-cased type as an own property, [None] for [null]. *)
Definition getPIIRegex (patterns : gmap string regexp) (piiType : string) : option regexp :=
  patterns !! toLowerCase piiType.

Definition validate (patterns : gmap string regexp)
  (text : string) (rule : FilterRule) (policy : Policy)
  : ValidationResult * gmap string regexp :=
  if negb (truthy_ostring (pattern rule)) then (allow, patterns)
  else
    let piiType := or_string (pattern rule) EmptyString in
    match getPIIRegex patterns piiType with
    | None => (allow, patterns)
    | Some piiRegex =>
        let key := toLowerCase piiType in
        let '(matched, afterTest) := test piiRegex text in
        let patterns1 := <[key := afterTest]> patterns in
        if matched then
          let action := or_string (action rule) "block" in
          if String.eqb action "block" then
            (block ("Blocked due to PII detection: " +:+ piiType)
               [("policy_id", MStr (id policy)); ("rule_type", MStr "pii");
                ("pii_type", MStr piiType)]%string,
             patterns1)
          else if String.eqb action "redact" then
            let '(redactedText, afterReplace) :=
              replace afterTest text ("[" +:+ toUpperCase piiType +:+ "_REDACTED]") in
            (redact redactedText, <[key := afterReplace]> patterns1)
          else (allow, patterns1)
        else (allow, patterns1)
    end.

End PIIValidator.

(* ================================================================== *)
(** * Regex validator ([services/regex-validator.ts]) *)
(* ================================================================== *)

Module RegexValidator.
Import Js Types RegExp.

Section WithRuntime.
Context `{RT : JsRuntime}.

(** [new RegExp(pattern, "i")] *)
Definition compile (p : string) : option regexp :=
  match RegExp_compile p with
  | Some r => Some {| source := r; global := false; ignoreCase := true; lastIndex := 0 |}
  | None => None
  end.

Definition validate (text : string) (rule : FilterRule) (policy : Policy)
  : ValidationResult :=
  if negb (truthy_ostring (pattern rule)) then allow
  else
    let p := or_string (pattern rule) EmptyString in
    match compile p with
    | None => allow
    | Some regex =>
        let '(matched, regex1) := test regex text in
        if matched then
          let action := or_string (action rule) "block" in
          if String.eqb action "block" then
            block ("Blocked by regex pattern: " +:+ p)
              [("policy_id", MStr (id policy)); ("rule_type", MStr "regex");
               ("pattern", MStr p)]%string
          else if String.eqb action "redact" then
            redact (fst (replace regex1 text "[REDACTED]"))
          else allow
        else allow
    end.

End WithRuntime.
End RegexValidator.

(* ================================================================== *)
(** * Rate-limit validator ([services/rate-limit-validator.ts]) *)
(* ================================================================== *)

Module RateLimitValidator.
Import Js Types Coerce.
Local Open Scope Z_scope.

Definition RATE_LIMIT_POLICY_CATEGORY : string := "RateLimitPolicy".

(** The JSON document kept under a key, [{ count, resetAt }]. *)
Record cell := { count : Z; resetAt : Z }.

(** One entry of the key-value namespace: the document and the
    [expirationTtl] it was written with. *)
Record entry := { value : cell; expirationTtl : Z }.

Record check := { check_allowed : bool; currentCount : Z; check_resetAt : Z }.

Definition getRateLimitKey (identifier : string) : string := "ratelimit:" +:+ identifier.

(** [checkRateLimit(key, limit, windowSeconds)] at clock reading [now]. *)
Definition checkRateLimit (kv : gmap string entry) (now : Z)
  (key : string) (limit windowSeconds : Z) : check * gmap string entry :=
  let data := value <$> kv !! key in
  let newWindow :=
    let resetAt' := now + windowSeconds * 1000 in
    ({| check_allowed := true; currentCount := 1; check_resetAt := resetAt' |},
     <[key := {| value := {| count := 1; resetAt := resetAt' |};
                 expirationTtl := windowSeconds |}]> kv) in
  match data with
  | None => newWindow
  | Some d =>
      if now >? resetAt d then newWindow
      else if count d >=? limit then
        ({| check_allowed := false; currentCount := count d; check_resetAt := resetAt d |},
         kv)
      else
        let newCount := count d + 1 in
        ({| check_allowed := true; currentCount := newCount; check_resetAt := resetAt d |},
         <[key := {| value := {| count := newCount; resetAt := resetAt d |};
                     expirationTtl := ceil_div (resetAt d - now) 1000 |}]> kv)
  end.

(** [getRateLimitStatus(identifier)]: the document under the key of the
    identifier, [None] for [null]. *)
Definition getRateLimitStatus (kv : gmap string entry) (identifier : string)
  : option cell :=
  value <$> kv !! getRateLimitKey identifier.

(** [resetRateLimit(identifier)] *)
Definition resetRateLimit (kv : gmap string entry) (identifier : string)
  : gmap string entry :=
  delete (getRateLimitKey identifier) kv.

Section WithRuntime.
Context `{RT : JsRuntime}.

(** The tool name of a [tools/call] request, [None] for [null]. *)
Definition extractToolName (requestData : json) : outcome (option json) :=
  bind (get requestData "method") (fun method =>
    match method with
    | Some (JStr m) =>
        if String.eqb m "tools/call" then
          bind (get requestData "params") (fun params =>
            let n := get_opt params "name" in
            Ret (if truthy_opt n then n else None))
        else Ret None
    | _ => Ret None
    end).

(** What the loop over [identifierTypes] pushes for one identifier type. *)
Definition identifierPart (valCtx : ValidationContext) (toolName : json)
  (idType : RateLimitIdentifierType) : json :=
  match idType with
  | IP => JStr (or_string (ip valCtx) "unknown")
  | USER =>
      let userId := match requestHeaders valCtx with
                    | Some h => header "x-user-id" h
                    | None => None
                    end in
      JStr (if truthy_ostring userId then or_string userId EmptyString
            else or_string (ip valCtx) "unknown")
  | TOOL => toolName
  end.

(** The result of a blocked call; the message and the reason print the
    tool name. *)
Definition blocked (toolName : json) (limit : Z) (result : check) (later : Z)
  : outcome ValidationResult :=
  let resetInSeconds := ceil_div (check_resetAt result - later) 1000 in
  bind (ToString toolName) (fun name =>
    Ret (block ("Rate limit exceeded for tool '" +:+ name +:+ "'. Try again in "
                +:+ Z_toString resetInSeconds +:+ " seconds.")
           [("policy_id", MStr RATE_LIMIT_POLICY_CATEGORY);
            ("tool_name", MJson (Some toolName));
            ("current_count", MInt (currentCount result));
            ("limit", MInt limit);
            ("reset_at", MInt (check_resetAt result));
            ("reset_in_seconds", MInt resetInSeconds)]%string)).

(** The result of a call that is let through; the message prints the tool
    name. *)
Definition passed (toolName : json) (limit : Z) (result : check)
  : outcome ValidationResult :=
  bind (ToString toolName) (fun _ =>
    Ret {| allowed := true; modified := false; modifiedPayload := None; reason := None;
           metadata := Some [("rate_limit_current", MInt (currentCount result));
                             ("rate_limit_max", MInt limit)]%string |}).

(** [validateRequest(payload, valCtx, rateLimitConfig)]; the clock is
    read at [now] inside [checkRateLimit] and at [later] for the
    seconds left.  The answer [None] is the source's [null]; the store is
    returned as the call leaves it, also when the call throws. *)
Definition validateRequest (kv : gmap string entry) (now later : Z)
  (payload : string) (valCtx : ValidationContext)
  (rateLimitConfig : option RateLimitConfig)
  : outcome (option ValidationResult) * gmap string entry :=
  match rateLimitConfig with
  | None => (Ret None, kv)
  | Some cfg =>
      if negb (enabled cfg) then (Ret None, kv)
      else
        match JSON_parse payload with
        | None => (Ret None, kv)
        | Some requestData =>
            match extractToolName requestData with
            | Throw e => (Throw e, kv)
            | Ret None => (Ret None, kv)
            | Ret (Some tool) =>
                match joinValues ":" (map (identifierPart valCtx tool) (identifierTypes cfg)) with
                | Throw e => (Throw e, kv)
                | Ret identifier =>
                    let key := getRateLimitKey identifier in
                    let '(result, kv') :=
                      checkRateLimit kv now key (limit cfg) (windowSeconds cfg) in
                    if negb (check_allowed result)
                    then (bind (blocked tool (limit cfg) result later)
                            (fun r => Ret (Some r)), kv')
                    else (bind (passed tool (limit cfg) result)
                            (fun r => Ret (Some r)), kv')
                end
            end
        end
  end.

End WithRuntime.
End RateLimitValidator.

(* ================================================================== *)
(** * Audit validator ([services/audit-validator.ts]) *)
(* ================================================================== *)

Module AuditValidator.
Import Js Types Coerce.
Local Open Scope Z_scope.

Definition AUDIT_POLICY_CATEGORY : string := "AuditPolicy".

Definition audit_block (why : string) : ValidationResult :=
  block why [("policy_id", MStr AUDIT_POLICY_CATEGORY)]%string.

(** [ip.split(".").reduce((acc, octet) => (acc << 8) + parseInt(octet), 0) >>> 0]
    (integers are exact here, as doubles are below 2^53). *)
Definition ipToNumber (ip : string) : Z :=
  ushr0 (fold_left (fun acc octet => add (Some (shl acc 8)) (parseInt octet))
           (split "." ip) (Some 0)).

(** [2 ** (32 - bits) - 1], up to the conversion to a 32-bit integer that
    [~] applies.  Below exponent 0 the power is a fraction in (0,1): the
    difference truncates to 0, or is rounded to -1 once the power is below
    2^-53.  Above exponent 53 the double is a multiple of 2^32 or infinite,
    and converts to 0. *)
Definition hostBits (bits : option Z) : option Z :=
  match bits with
  | None => None
  | Some b =>
      let e := 32 - b in
      if e <? -53 then Some (-1)
      else if (e <? 0) || (53 <? e) then Some 0
      else Some (2 ^ e - 1)
  end.

Definition isIPInCIDR (ip cidr : string) : bool :=
  match split "/" cidr with
  | range :: bits :: _ =>
      if negb (truthy_string bits) then false
      else
        let mask := bitnot (hostBits (parseInt bits)) in
        let ipNum := ipToNumber ip in
        let rangeNum := ipToNumber range in
        Z.eqb (bitand (Some ipNum) (Some mask)) (bitand (Some rangeNum) (Some mask))
  | _ => false
  end.

Definition isIPAllowed (clientIP : string) (allowedIPs allowedIPRanges : list string) : bool :=
  existsb (String.eqb clientIP) allowedIPs
  || existsb (isIPInCIDR clientIP) allowedIPRanges.

Definition has_items {A} (l : option (list A)) : bool :=
  match l with
  | Some (_ :: _) => true
  | _ => false
  end.

Definition or_list {A} (l : option (list A)) : list A :=
  match l with
  | Some x => x
  | None => []
  end.

(** [validateConditionalApproval] at clock reading [now] (milliseconds).
    Its messages print the resource path, which [validateWithPolicy], its
    only caller, has printed before the call. *)
Definition validateConditionalApproval (now : Z) (policy : AuditPolicy)
  (valCtx : ValidationContext) : ValidationResult :=
  match approvalConditions policy with
  | None => audit_block "No approval conditions defined"
  | Some conditions =>
      let expired :=
        match expiresAt conditions with
        | Some t => negb (t =? 0) && (t >? 0) && (now / 1000 >? t)
        | None => false
        end in
      if expired then audit_block "Conditional approval has expired"
      else
        let clientIP := or_string (ip valCtx) EmptyString in
        if truthy_string clientIP
           && (has_items (allowedIps conditions) || has_items (allowedIpRanges conditions))
           && negb (isIPAllowed clientIP (or_list (allowedIps conditions))
                      (or_list (allowedIpRanges conditions)))
        then audit_block "Client IP is not in the allowed list"
        else allow
  end.

(** [valCtx.auditPolicies?.[key]] for a key that is a string: the entry
    the map holds under the key as an own property. *)
Definition lookupPolicy (valCtx : ValidationContext) (key : string) : option AuditPolicy :=
  match auditPolicies valCtx with
  | Some m => m !! key
  | None => None
  end.

Section WithRuntime.
Context `{RT : JsRuntime}.

(** [validateWithPolicy(policy, valCtx, resourcePath)]; every branch
    prints the resource path in its message before it answers. *)
Definition validateWithPolicy (now : Z) (policy : AuditPolicy)
  (valCtx : ValidationContext) (resourcePath : json) : outcome ValidationResult :=
  let remarks := or_string (option_map trim (remarks policy)) EmptyString in
  let remarksLower := toLowerCase remarks in
  if String.eqb remarksLower "approved" then
    bind (ToString resourcePath) (fun _ => Ret allow)
  else if String.eqb remarksLower "rejected" then
    bind (ToString resourcePath) (fun _ =>
      Ret (audit_block "Resource access has been rejected by Audit Policy"))
  else if String.eqb remarksLower "conditionally approved" then
    bind (ToString resourcePath) (fun _ =>
      Ret (validateConditionalApproval now policy valCtx))
  else
    bind (ToString resourcePath) (fun _ => Ret allow).

(** [valCtx.auditPolicies?.[resourceName]]: the name is converted to a
    property key when there is a map to look into. *)
Definition lookupResource (valCtx : ValidationContext) (resourceName : json)
  : outcome (option AuditPolicy) :=
  match auditPolicies valCtx with
  | Some m => bind (ToString resourceName) (fun key => Ret (m !! key))
  | None => Ret None
  end.

(** The resource a request names; the empty string when it names none. *)
Definition extractResourceName (requestData : json) : outcome json :=
  bind (get requestData "method") (fun method =>
    if negb (truthy_opt method) then Ret (JStr EmptyString)
    else
      bind (get requestData "params") (fun params =>
        if negb (truthy_opt params) then Ret (JStr EmptyString)
        else
          let field (k : string) :=
            let v := get_opt params k in
            match v with
            | Some j => if truthy j then j else JStr EmptyString
            | None => JStr EmptyString
            end in
          match method with
          | Some (JStr m) =>
              if String.eqb m "tools/call" || String.eqb m "prompts/get"
              then Ret (field "name")
              else if String.eqb m "resources/read" then Ret (field "uri")
              else Ret (JStr EmptyString)
          | _ => Ret (JStr EmptyString)
          end)).

(** The server-level policy, when it blocks. *)
Definition serverBlock (now : Z) (valCtx : ValidationContext) (resourceName : json)
  : outcome (option ValidationResult) :=
  if truthy_ostring (mcpServerName valCtx) then
    match lookupPolicy valCtx (toLowerCase (or_string (mcpServerName valCtx) EmptyString)) with
    | Some serverPolicy =>
        bind (validateWithPolicy now serverPolicy valCtx resourceName) (fun result =>
          Ret (if negb (allowed result) then Some result else None))
    | None => Ret None
    end
  else Ret None.

(** [validateRequest(payload, valCtx)]; [None] is the source's [null]. *)
Definition validateRequest (now : Z) (payload : string) (valCtx : ValidationContext)
  : outcome (option ValidationResult) :=
  match JSON_parse payload with
  | None => Ret None
  | Some requestData =>
      bind (extractResourceName requestData) (fun resourceName =>
        if negb (truthy resourceName) then Ret None
        else
          bind (serverBlock now valCtx resourceName) (fun blocking =>
            match blocking with
            | Some result => Ret (Some result)
            | None =>
                bind (lookupResource valCtx resourceName) (fun found =>
                  match found with
                  | None => Ret None
                  | Some policy =>
                      bind (validateWithPolicy now policy valCtx resourceName)
                        (fun result => Ret (Some result))
                  end)
            end))
  end.

End WithRuntime.
End AuditValidator.

(* ================================================================== *)
(** * Scanner client ([services/scanner-client.ts]) *)
(* ================================================================== *)

Module ScannerClient.
Import Js Types Coerce.

Definition HarmfulContentScanners : list string := ["Toxicity"]%string.
Definition PromptInjectionScanners : list string := ["PromptInjection"]%string.
Definition BanSubstringsScanners : list string := ["BanSubstrings"]%string.
Definition BanTopicsScanners : list string := ["BanTopics"]%string.

Definition MAX_REQUEST_BODY_SIZE : N := 1 * 1024 * 1024.

Definition getScannersForFilterType (filterType : string) : list string :=
  if String.eqb filterType "harmfulCategories" then HarmfulContentScanners
  else if String.eqb filterType "promptAttacks" then PromptInjectionScanners
  else if String.eqb filterType "banSubstrings" then BanSubstringsScanners
  else if String.eqb filterType "banTopics" then BanTopicsScanners
  else [].

Definition isScannerFilterType (filterType : string) : bool :=
  existsb (String.eqb filterType) ["harmfulCategories"; "promptAttacks"; "deniedTopics"]%string.

(** What a POST to the model executor comes back with. *)
Inductive body := BadJson | Body (j : json).
Inductive response := Failed | Response (ok : bool) (b : body).

(** The service binding: the reply to the [i]-th call of a fan-out. *)
Definition Fetcher := nat -> SingleScanRequest -> response.

Section WithRuntime.
Context `{RT : JsRuntime}.

(** [callSingleScanAPI]: the result, and the request when one was sent.
    The message written before the result is returned prints [is_valid]
    and [risk_score] of the reply; reading them from [null], or a value
    among them that does not convert, makes the call fail like any other
    error inside its [try]. *)
Definition callSingleScanAPI (binding : Fetcher) (i : nat) (text : string)
  (scanner : ScannerInfo) : outcome json * list SingleScanRequest :=
  if (MAX_REQUEST_BODY_SIZE <? length text)%N then (Throw PayloadTooLarge, [])
  else
    let reqBody := {| req_text := text; req_scanner_type := scanner_type scanner;
                      req_scanner_name := scanner_name scanner;
                      req_config := scanner_config scanner |} in
    (match binding i reqBody with
     | Failed => Throw NetworkError
     | Response false _ => Throw HttpError
     | Response true BadJson => Throw SyntaxError
     | Response true (Body scanResp) =>
         bind (get scanResp "is_valid") (fun isValid =>
           bind (ToString_opt isValid) (fun _ =>
             bind (get scanResp "risk_score") (fun riskScore =>
               bind (ToString_opt riskScore) (fun _ => Ret scanResp))))
     end, [reqBody]).

(** The settled promises of the fan-out, in the order of [scanners]. *)
Fixpoint settle (binding : Fetcher) (i : nat) (text : string) (scanners : list ScannerInfo)
  : list (outcome json) * list SingleScanRequest :=
  match scanners with
  | [] => ([], [])
  | scanner :: rest =>
      let '(r, sent) := callSingleScanAPI binding i text scanner in
      let '(rs, sent') := settle binding (S i) text rest in
      (r :: rs, sent ++ sent')
  end.

Definition is_valid (scanResult : json) : bool :=
  truthy_opt (get_opt (Some scanResult) "is_valid").

Fixpoint tally (settled : list (outcome json)) (acc : ScanResponse) : ScanResponse :=
  match settled with
  | [] => acc
  | Ret v :: rest =>
      tally rest
        {| results := results acc ++ [v];
           success_count := if is_valid v then S (success_count acc) else success_count acc;
           failure_count := if is_valid v then failure_count acc else S (failure_count acc) |}
  | Throw _ :: rest =>
      tally rest
        {| results := results acc; success_count := success_count acc;
           failure_count := S (failure_count acc) |}
  end.

Definition no_results : ScanResponse :=
  {| results := []; success_count := 0; failure_count := 0 |}.

(** [scan(text, scanners)] and the requests it sent. *)
Definition scan (binding : Fetcher) (text : string) (scanners : list ScannerInfo)
  : ScanResponse * list SingleScanRequest :=
  match scanners with
  | [] => (no_results, [])
  | _ =>
      let '(settled, sent) := settle binding 0 text scanners in
      (tally settled no_results, sent)
  end.

End WithRuntime.
End ScannerClient.

(* ================================================================== *)
(** * Policy validator ([services/policy-validator.ts]) *)
(* ================================================================== *)

Module PolicyValidator.
Import Js Types Coerce.

Definition SAFE_MCP_METHODS : list string :=
  ["initialize"; "initialized"; "ping"; "$/cancelRequest"; "$/progress";
   "notifications/initialized"; "notifications/cancelled";
   "notifications/progress"]%string.

Definition isSafeMCPMethod (method : json) : bool :=
  match method with
  | JStr m => existsb (String.eqb m) SAFE_MCP_METHODS
  | _ => false
  end.

Record ScannerTask := {
  info : ScannerInfo;
  policyId : string;
  policyName : string;
}.

(** [createBlockedResponse(payload, reason)]: the JSON-RPC error handed
    back in place of a blocked message. *)
Definition createBlockedResponse (payload reason : string) : json :=
  JObj [("jsonrpc", JStr "2.0");
        ("error",
         JObj [("code", JNum (-32000)%float);
               ("message", JStr "Request blocked by security policy");
               ("data", JObj [("reason", JStr reason);
                              ("original_payload", JStr payload)])])]%string.

(** What a call does besides returning: it runs the extractor, starts a
    scan, sends a request to the model executor. *)
Inductive event :=
| Extracted (scannable : string)
| ScanStarted (text : string) (tasks : list ScannerTask)
| Sent (req : SingleScanRequest).

(** The events of the scanner client. *)
Definition is_scan (e : event) : bool :=
  match e with
  | ScanStarted _ _ | Sent _ => true
  | Extracted _ => false
  end.

Section WithRuntime.
Context `{RT : JsRuntime}.

Definition field (k : string) (v : json) : json := JObj [(k, v)].

(** The [for (const msg of messages)] loop of [extractFromParams]. *)
Fixpoint messageContents (messages : list json) : outcome (list json) :=
  match messages with
  | [] => Ret []
  | msg :: rest =>
      bind (get msg "content") (fun content =>
        bind (messageContents rest) (fun more =>
          Ret (if truthy_opt content
               then field "_message_content" (default JNull content) :: more
               else more)))
  end.

Definition tool_frame (toolName arguments : string) : string :=
  "Tool: " +:+ toolName +:+ nl +:+ "Arguments:" +:+ nl +:+ arguments +:+ nl
  +:+ "Context:" +:+ nl +:+ "origin: mcp_call".

Definition stringify_or_payload (userFields : list json) (fullPayload : string) : string :=
  match userFields with
  | [] => fullPayload
  | _ => JSON_stringify (JArr userFields)
  end.

Definition extractFromParams (method : json) (params : json) (fullPayload : string)
  : outcome string :=
  let named m := match method with JStr s => String.eqb s m | _ => false end in
  let prop k := get_opt (Some params) k in
  let pushed k name :=
    if truthy_opt (prop k) then [field name (default JNull (prop k))] else [] in
  if named "tools/call" then
    let toolName := prop "name" in
    let args := prop "arguments" in
    if truthy_opt toolName && truthy_opt args then
      bind (ToString_opt toolName) (fun name =>
        Ret (tool_frame name (JSON_stringify (default JNull args))))
    else if truthy_opt toolName then
      bind (ToString_opt toolName) (fun name => Ret (tool_frame name "{}"))
    else Ret fullPayload
  else if named "sampling/createMessage" || named "prompts/get" then
    let messages := prop "messages" in
    bind (if truthy_opt messages then
            match messages with
            | Some (JArr items) => messageContents items
            | Some (JStr _) => Ret []
            | _ => Throw TypeError
            end
          else Ret [])
      (fun contents =>
         Ret (stringify_or_payload (contents ++ pushed "prompt" "_prompt") fullPayload))
  else if named "resources/read" then
    Ret (stringify_or_payload (pushed "uri" "_resource_uri") fullPayload)
  else
    Ret (stringify_or_payload [params] fullPayload).

Definition extractUserControlledFields (payload : string) : string :=
  if negb (truthy_string payload) then EmptyString
  else
    try_catch
      (bind (parse payload) (fun mcpRequest =>
         bind (get mcpRequest "method") (fun method =>
           if negb (truthy_opt method) then Ret payload
           else if isSafeMCPMethod (default JNull method) then Ret EmptyString
           else
             bind (get mcpRequest "params") (fun params =>
               if negb (truthy_opt params) then Ret payload
               else extractFromParams (default JNull method) (default JNull params) payload))))
      (fun _ => payload).

(** [rule.config || {}] *)
Definition config_or_empty (rule : FilterRule) : json :=
  match config rule with
  | Some j => if truthy j then j else JObj []
  | None => JObj []
  end.

(** The scanner tasks of the active policies, for one side of the
    traffic. *)
Definition tasksOfRule (scannerType : string) (policy : Policy) (rule : FilterRule)
  : list ScannerTask :=
  if ScannerClient.isScannerFilterType (type rule) then
    map (fun scannerName =>
           {| info := {| scanner_type := scannerType; scanner_name := scannerName;
                         scanner_config := config_or_empty rule |};
              policyId := id policy; policyName := name policy |})
      (ScannerClient.getScannersForFilterType (type rule))
  else [].

Definition collectTasks (scannerType : string)
  (side : PolicyFilters -> option (list FilterRule)) (policies : list Policy)
  : list ScannerTask :=
  flat_map (fun policy =>
              if active policy
              then flat_map (tasksOfRule scannerType policy)
                     (default [] (side (filters policy)))
              else [])
    policies.

Definition same_scanner (name : option json) (task : ScannerTask) : bool :=
  match name with
  | Some (JStr s) => String.eqb (scanner_name (info task)) s
  | _ => false
  end.

(** The result returned for a scan result that a scanner rejected; its
    reason prints the scanner name and the risk score. *)
Definition scannerBlock (scannerTasks : list ScannerTask) (result : json)
  : outcome ValidationResult :=
  let name := get_opt (Some result) "scanner_name" in
  let risk := get_opt (Some result) "risk_score" in
  let matchedTask := find (same_scanner name) scannerTasks in
  bind (ToString_opt name) (fun nameText =>
    bind (ToString_opt risk) (fun riskText =>
      Ret (block ("Blocked by scanner: " +:+ nameText +:+ " (risk score: "
                  +:+ riskText +:+ ")")
             [("policy_id", MStr (or_string (option_map policyId matchedTask) "unknown"));
              ("scanner", MJson name);
              ("risk_score", MJson risk);
              ("details", MJson (get_opt (Some result) "details"))]%string))).

(** The message [validateRequest] writes for each scan result it looks
    at: it prints the scanner name, [is_valid] and the risk score. *)
Definition logResult (result : json) : outcome unit :=
  bind (ToString_opt (get_opt (Some result) "scanner_name")) (fun _ =>
    bind (ToString_opt (get_opt (Some result) "is_valid")) (fun _ =>
      bind (ToString_opt (get_opt (Some result) "risk_score")) (fun _ => Ret tt))).

(** The loop over the scan results: the first result a scanner rejected
    decides.  [logged] tells whether each result is printed before it is
    looked at, as [validateRequest] does and [validateResponse] does not. *)
Fixpoint checkResults (logged : bool) (scannerTasks : list ScannerTask)
  (scanResults : list json) : outcome ValidationResult :=
  match scanResults with
  | [] => Ret allow
  | result :: rest =>
      bind (if logged then logResult result else Ret tt) (fun _ =>
        if negb (ScannerClient.is_valid result)
        then scannerBlock scannerTasks result
        else checkResults logged scannerTasks rest)
  end.

(** The scanning step both entry points share. *)
Definition runScanners (logged : bool) (binding : ScannerClient.Fetcher) (text : string)
  (scannerTasks : list ScannerTask) : outcome ValidationResult * list event :=
  match scannerTasks with
  | [] => (Ret allow, [])
  | _ =>
      let '(scanResponse, sent) := ScannerClient.scan binding text (map info scannerTasks) in
      (checkResults logged scannerTasks (results scanResponse),
       ScanStarted text scannerTasks :: map Sent sent)
  end.

(** Step 2 of [validateRequest]: extraction, then the scanners. *)
Definition guardrails (binding : ScannerClient.Fetcher)
  (payload : string) (valCtx : ValidationContext)
  : outcome ValidationResult * list event :=
  let extractedPayload := extractUserControlledFields payload in
  if negb (truthy_string extractedPayload)
  then (Ret allow, [Extracted extractedPayload])
  else
    let '(r, trace) :=
      runScanners true binding extractedPayload
        (collectTasks "prompt" requestPayload (default [] (policies valCtx))) in
    (r, Extracted extractedPayload :: trace).

(** [validateRequest(payload, valCtx)] at clock reading [now]: the audit
    policies first, and the guardrails unless they block. *)
Definition validateRequest (binding : ScannerClient.Fetcher) (now : Z)
  (payload : string) (valCtx : ValidationContext)
  : outcome ValidationResult * list event :=
  if negb (truthy_string payload) then (Ret allow, [])
  else
    let audit :=
      if default false (hasAuditRules valCtx) && bool_decide (is_Some (auditPolicies valCtx))
      then AuditValidator.validateRequest now payload valCtx
      else Ret None in
    match audit with
    | Throw e => (Throw e, [])
    | Ret (Some auditResult) =>
        if negb (allowed auditResult) then (Ret auditResult, [])
        else guardrails binding payload valCtx
    | Ret None => guardrails binding payload valCtx
    end.

(** [validateResponse(payload, valCtx)] *)
Definition validateResponse (binding : ScannerClient.Fetcher)
  (payload : string) (valCtx : ValidationContext)
  : outcome ValidationResult * list event :=
  if negb (truthy_string payload) then (Ret allow, [])
  else
    runScanners false binding payload
      (collectTasks "output" responsePayload (default [] (policies valCtx))).

End WithRuntime.
End PolicyValidator.

(* ================================================================== *)
(** * Policy manager ([services/policy-manager.ts]) *)
(* ================================================================== *)

Module PolicyManager.
Import Js Json Types.

(** The reply of the policy backend to [/api/fetchMcpAuditInfo]: the
    request fails, or a response arrives whose body is not JSON or is a
    document with an optional [mcpAuditInfoList], whose entries may be
    [null]. *)
Inductive auditBody :=
| AuditBadJson
| AuditBody (mcpAuditInfoList : option (list (option AuditPolicy))).
Inductive auditResponse :=
| AuditFailed
| AuditResponse (ok : bool) (b : auditBody).

(** The loop that turns the list into a map: [auditPolicies[policy.resourceName] = policy]. *)
Fixpoint toMap (entries : list (option AuditPolicy)) (auditPolicies : gmap string AuditPolicy)
  : gmap string AuditPolicy :=
  match entries with
  | [] => auditPolicies
  | Some policy :: rest =>
      if truthy_string (resourceName policy)
      then toMap rest (<[resourceName policy := policy]> auditPolicies)
      else toMap rest auditPolicies
  | None :: rest => toMap rest auditPolicies
  end.

Definition fetchMcpAuditInfo (reply : auditResponse) : gmap string AuditPolicy :=
  match reply with
  | AuditFailed => ∅
  | AuditResponse false _ => ∅
  | AuditResponse true AuditBadJson => ∅
  | AuditResponse true (AuditBody mcpAuditInfoList) => toMap (default [] mcpAuditInfoList) ∅
  end.

(** The guardrail documents of the policy backend ([types/mcp.ts]); an
    optional member is an [option]. *)
Record ContentFiltering := {
  harmfulCategories : option json;
  promptAttacks : option json;
}.

Record DeniedTopic := { topic : string; samplePhrases : list string }.

Record PIIType := { pii_type : string; behavior : option string }.

Record RegexPatternType := { regex_pattern : string; regex_action : option string }.

Record GuardrailsPolicy := {
  gp_id : option string;
  gp_name : option string;
  gp_active : option bool;
  applyOnRequest : option bool;
  applyOnResponse : option bool;
  contentFiltering : option ContentFiltering;
  deniedTopics : option (list DeniedTopic);
  piiTypes : option (list PIIType);
  regexPatternsV2 : option (list RegexPatternType);
}.

Definition strings_json (l : list string) : json := JArr (map JStr l).

(** [if (flag) rules.push(rule)] *)
Definition pushed (flag : option bool) (rule : FilterRule) : list FilterRule :=
  if default false flag then [rule] else [].

Definition contentRule (ty : string) (cfg : option json) : FilterRule :=
  {| type := ty; pattern := None; action := Some "block"%string; config := cfg |}.

Definition piiRule (piiType : PIIType) : FilterRule :=
  {| type := "pii"; pattern := Some (pii_type piiType);
     action := Some (match behavior piiType with
                     | Some b => if String.eqb b "mask" then "redact" else "block"
                     | None => "block"
                     end)%string;
     config := None |}.

Definition regexRule (regexPattern : RegexPatternType) : FilterRule :=
  {| type := "regex"; pattern := Some (regex_pattern regexPattern);
     action := Some (or_string (regex_action regexPattern) "block");
     config := None |}.

(** The rules [convertGuardrailsToPolicy] pushes in its five steps, for
    the side of the traffic whose flag is [flag]; [content] tells whether
    the side takes the two content-filtering rules. *)
Definition rulesFor (gp : GuardrailsPolicy) (flag : option bool) (content : bool)
  : list FilterRule :=
  let filtering (member : ContentFiltering -> option json) :=
    truthy_opt (contentFiltering gp ≫= member) in
  (if content && filtering harmfulCategories
   then pushed flag (contentRule "harmfulCategories" None) else [])
  ++ (if content && filtering promptAttacks
      then pushed flag
             (contentRule "promptAttacks" (Some (JObj [("threshold", JNum 0.5%float)]%string)))
      else [])
  ++ (match deniedTopics gp with
      | Some (dt :: more) =>
          let topics := map topic (dt :: more) in
          let substrings := flat_map samplePhrases (dt :: more) in
          pushed flag
            (contentRule "banTopics" (Some (JObj [("topics", strings_json topics)]%string)))
          ++ (match substrings with
              | [] => []
              | _ =>
                  pushed flag
                    (contentRule "banSubstrings"
                       (Some (JObj [("substrings", strings_json substrings)]%string)))
              end)
      | _ => []
      end)
  ++ flat_map (fun piiType => pushed flag (piiRule piiType)) (default [] (piiTypes gp))
  ++ flat_map (fun regexPattern => pushed flag (regexRule regexPattern))
       (default [] (regexPatternsV2 gp)).

Definition convertGuardrailsToPolicy (gp : GuardrailsPolicy) : Policy :=
  {| id := "MCPGuardrails";
     name := or_string (gp_name gp) EmptyString;
     active := default false (gp_active gp);
     default_action := "block";
     filters := {| requestPayload := Some (rulesFor gp (applyOnRequest gp) true);
                   responsePayload := Some (rulesFor gp (applyOnResponse gp) false) |} |}.

(** The reply of the policy backend to [/api/fetchGuardrailPolicies]:
    the request fails, or a response arrives whose body is not JSON, is
    the document [null], or is a document with an optional
    [guardrailPolicies], whose entries may be [null]. *)
Inductive guardrailBody :=
| GuardrailBadJson
| GuardrailNull
| GuardrailBody (guardrailPolicies : option (list (option GuardrailsPolicy))).
Inductive guardrailResponse :=
| GuardrailFailed
| GuardrailResponse (ok : bool) (b : guardrailBody).

(** The loop of [fetchGuardrailPolicies]; reading [active] of a [null]
    entry throws. *)
Fixpoint activePolicies (entries : list (option GuardrailsPolicy)) : outcome (list Policy) :=
  match entries with
  | [] => Ret []
  | None :: _ => Throw TypeError
  | Some gp :: rest =>
      bind (activePolicies rest) (fun policies =>
        Ret (if default false (gp_active gp)
             then convertGuardrailsToPolicy gp :: policies
             else policies))
  end.

Definition fetchGuardrailPolicies (reply : guardrailResponse) : outcome (list Policy) :=
  match reply with
  | GuardrailFailed => Throw NetworkError
  | GuardrailResponse false _ => Throw HttpError
  | GuardrailResponse true GuardrailBadJson => Throw SyntaxError
  | GuardrailResponse true GuardrailNull => Throw TypeError
  | GuardrailResponse true (GuardrailBody guardrailPolicies) =>
      activePolicies (default [] guardrailPolicies)
  end.

End PolicyManager.

(* ================================================================== *)
(** * Threat reporter ([services/threat-reporter.ts]) *)
(* ================================================================== *)

Module ThreatReporter.
Import Js Types.
Local Open Scope Z_scope.

Definition THREAT_DETECTION_API_URL : string :=
  "https://tbs.akto.io/api/threat_detection/record_malicious_event".
Definition EVENT_TYPE_SINGLE : string := "EVENT_TYPE_SINGLE".
Definition TYPE_RULE_BASED : string := "Rule-Based".

Record MaliciousEvent := {
  actor : string;
  filterId : meta_value;
  detectedAt : string;
  latestApiIp : string;
  latestApiEndpoint : string;
  latestApiMethod : string;
  latestApiCollectionId : Z;
  latestApiPayload : string;
  eventType : string;
  category : meta_value;
  subCategory : meta_value;
  severity : string;
  event_type : string;
  event_metadata : list (string * string);
}.

(** The POST the reporter sends. *)
Record ThreatPost := { url : string; authorization : string; maliciousEvent : MaliciousEvent }.

Definition truthy_float (x : float) : bool :=
  negb (PrimFloat.eqb x 0%float) && negb (is_nan x).

Definition truthy_meta (v : meta_value) : bool :=
  match v with
  | MStr s => truthy_string s
  | MInt n => negb (n =? 0)
  | MJson j => truthy_opt j
  end.

Definition headers_json (headers : list (string * string)) : json :=
  JObj (map (fun kv => (fst kv, JStr (snd kv))) headers).

Section WithRuntime.
Context `{RT : JsRuntime}.

Definition buildAPIPayload (requestPayload responsePayload method ip endpoint : string)
  (reqHeaders respHeaders : list (string * string)) (statusCode : float) : string :=
  let orUnknown := if truthy_string ip then ip else "unknown"%string in
  JSON_stringify
    (JObj [("method", JStr (if truthy_string method then method else "POST"));
           ("requestPayload", JStr requestPayload);
           ("responsePayload", JStr responsePayload);
           ("ip", JStr orUnknown);
           ("destIp", JStr orUnknown);
           ("source", JStr "OTHER");
           ("type", JStr "http");
           ("akto_vxlan_id", JStr EmptyString);
           ("path", JStr (if truthy_string endpoint then endpoint else "/mcp/unknown"));
           ("requestHeaders", JStr (JSON_stringify (headers_json reqHeaders)));
           ("responseHeaders", JStr (JSON_stringify (headers_json respHeaders)));
           ("time", JNum 0%float);
           ("akto_account_id", JStr EmptyString);
           ("statusCode", JNum (if truthy_float statusCode then statusCode else 200%float));
           ("status", JStr "OK")]%string).

(** [buildMaliciousEvent] at clock reading [now] (milliseconds). *)
Definition buildMaliciousEvent (now : Z) (requestPayload responsePayload : string)
  (metadata : list (string * meta_value)) (who endpoint method : string)
  (reqHeaders respHeaders : list (string * string)) (statusCode : float) : MaliciousEvent :=
  let seconds := now / 1000 in
  let policyID :=
    match meta_get "policy_id" metadata with
    | Some v => if truthy_meta v then v else MStr "Blocked"
    | None => MStr "Blocked"
    end in
  {| actor := who;
     filterId := policyID;
     detectedAt := Z_toString seconds;
     latestApiIp := who;
     latestApiEndpoint := endpoint;
     latestApiMethod := if truthy_string method then method else "POST"%string;
     latestApiCollectionId := seconds;
     latestApiPayload :=
       buildAPIPayload requestPayload responsePayload method who endpoint
         reqHeaders respHeaders statusCode;
     eventType := EVENT_TYPE_SINGLE;
     category := policyID;
     subCategory := policyID;
     severity := "CRITICAL";
     event_type := TYPE_RULE_BASED;
     event_metadata := [("countryCode", "IN")]%string |}.

(** [reportThreat(validationResult, valCtx, tbsToken)]: the request it
    sends; what comes back is logged and dropped. *)
Definition reportThreat (now : Z) (validationResult : ValidationResult)
  (valCtx : ValidationContext) (tbsToken : string) : ThreatPost :=
  {| url := THREAT_DETECTION_API_URL;
     authorization := "Bearer " +:+ tbsToken;
     maliciousEvent :=
       buildMaliciousEvent now
         (or_string (ctx_requestPayload valCtx) EmptyString)
         (or_string (ctx_responsePayload valCtx) EmptyString)
         (default [] (metadata validationResult))
         (or_string (ip valCtx) "0.0.0.0")
         (or_string (endpoint valCtx) "/")
         (or_string (method valCtx) "POST")
         (default [] (requestHeaders valCtx))
         (default [] (responseHeaders valCtx))
         (match statusCode valCtx with
          | Some c => if truthy_float c then c else 0%float
          | None => 0%float
          end) |}.

End WithRuntime.
End ThreatReporter.

(* ================================================================== *)
(** * Metadata auditor ([services/mcp-metadata-validator.ts]) *)
(* ================================================================== *)

Module McpMetadataValidator.
Import Js Types Coerce.

(** [cleanJSON]: the span from the first opening brace to the last closing
    brace. *)
Definition cleanJSON (content : string) : string :=
  let cleaned := trim content in
  let cleaned :=
    match lastIndexOf "}" cleaned with
    | Some lastBrace => take (S lastBrace) cleaned
    | None => cleaned
    end in
  let cleaned :=
    match indexOf "{" cleaned with
    | Some firstBrace => drop firstBrace cleaned
    | None => cleaned
    end in
  trim cleaned.

(** The LLM endpoint.  The prompt is built from the name, the description
    and the flattened input schema of the tool, so the endpoint is an
    oracle on the tool descriptor: it fails, or it answers with the
    content of the first choice. *)
Definition LLM := json -> outcome string.

(** One call of [reportThreat] made by the auditor: its arguments and the
    request that goes out. *)
Record report := {
  validationResult : ValidationResult;
  reportCtx : ValidationContext;
  post : ThreatReporter.ThreatPost;
}.

Definition with_endpoint_response (valCtx : ValidationContext)
  (customEndpoint responsePayload : string) : ValidationContext :=
  {| ip := ip valCtx; destIP := destIP valCtx; endpoint := Some customEndpoint;
     method := method valCtx; requestHeaders := requestHeaders valCtx;
     responseHeaders := responseHeaders valCtx; statusCode := statusCode valCtx;
     ctx_requestPayload := ctx_requestPayload valCtx;
     ctx_responsePayload := Some responsePayload;
     mcpServerName := mcpServerName valCtx; policies := policies valCtx;
     auditPolicies := auditPolicies valCtx; hasAuditRules := hasAuditRules valCtx;
     rateLimitPolicy := rateLimitPolicy valCtx |}.

(** [Object.entries(v)] for a value that is not [null]: the fields of an
    object, the items of an array and the code units of a string under
    their indices, nothing for a number or a boolean. *)
Fixpoint indexed (i : nat) (items : list json) : list (string * json) :=
  match items with
  | [] => []
  | item :: rest => (Z_toString (Z.of_nat i), item) :: indexed (S i) rest
  end.

Fixpoint units (i : nat) (s : string) : list (string * json) :=
  match s with
  | EmptyString => []
  | String c s' => (Z_toString (Z.of_nat i), JStr (str1 c)) :: units (S i) s'
  end.

Definition entries (v : json) : list (string * json) :=
  match v with
  | JObj fields => fields
  | JArr items => indexed 0 items
  | JStr s => units 0 s
  | _ => []
  end.

Definition MAX_DEPTH : nat := 5.

(** [v || ""] *)
Definition or_empty (v : option json) : json :=
  match v with
  | Some j => if truthy j then j else JStr EmptyString
  | None => JStr EmptyString
  end.

Section WithRuntime.
Context `{RT : JsRuntime}.

(** [extractProperties(properties, prefix, schemaParts, depth)]: the
    parts are returned instead of being pushed, and [fuel] is
    [MAX_DEPTH - depth].  The line of a property prints its description,
    whatever value that is. *)
Fixpoint extractProperties (fuel : nat) (properties : json) (prefix : string)
  (schemaParts : list string) : outcome (list string) :=
  match fuel with
  | O => Ret schemaParts
  | S fuel' =>
      (fix each (props : list (string * json)) (schemaParts : list string)
         : outcome (list string) :=
         match props with
         | [] => Ret schemaParts
         | (propName, propMap) :: rest =>
             match propMap with
             | JObj _ | JArr _ =>
                 let fullName :=
                   if truthy_string prefix then prefix +:+ "." +:+ propName else propName in
                 let description :=
                   match get_opt (Some propMap) "description" with
                   | Some d => if truthy d then d else JStr "No description"
                   | None => JStr "No description"
                   end in
                 bind (ToString description) (fun text =>
                   let schemaParts := schemaParts ++ [fullName +:+ "=" +:+ text] in
                   let propType := get_opt (Some propMap) "type" in
                   let typed (t : string) :=
                     match propType with
                     | Some (JStr ty) => String.eqb ty t
                     | _ => false
                     end in
                   let nested := get_opt (Some propMap) "properties" in
                   let itemNested := get_opt (get_opt (Some propMap) "items") "properties" in
                   bind (if typed "object" && truthy_opt nested then
                           extractProperties fuel' (default JNull nested) fullName schemaParts
                         else if typed "array" && truthy_opt itemNested then
                           extractProperties fuel' (default JNull itemNested)
                             (fullName +:+ "[]") schemaParts
                         else Ret schemaParts)
                     (fun schemaParts => each rest schemaParts))
             | _ => each rest schemaParts
             end
         end) (entries properties) schemaParts
  end.

(** [extractInputSchema(tool)]: the input schema of a tool descriptor,
    flattened to [name=description | name=description]. *)
Definition extractInputSchema (tool : json) : outcome string :=
  bind (get tool "inputSchema") (fun inputSchema =>
    if negb (truthy_opt inputSchema) then Ret "(none)"
    else
      let properties := get_opt inputSchema "properties" in
      if negb (truthy_opt properties)
         || Nat.eqb (List.length (entries (default JNull properties))) 0
      then Ret "(none)"
      else
        bind (extractProperties MAX_DEPTH (default JNull properties) EmptyString [])
          (fun schemaParts =>
             Ret (match schemaParts with
                  | [] => "(none)"
                  | _ => join " | " schemaParts
                  end))).

(** [extractMethodFromRequest]: the [method] of the request, [None] for
    [null]. *)
Definition extractMethodFromRequest (requestPayload : string) : option json :=
  try_catch
    (bind (parse requestPayload) (fun request =>
       bind (get request "method") (fun method =>
         Ret (if truthy_opt method then method else None))))
    (fun _ => None).

Definition MCP_LIST_TOOLS : string := "tools/list".

Definition isListMethod (method : option json) : bool :=
  match method with
  | Some (JStr m) => String.eqb m MCP_LIST_TOOLS
  | _ => false
  end.

(** The test [validateMcpMetadataAsync] makes before it starts the
    audit of a response. *)
Definition auditsResponse (valCtx : ValidationContext) : bool :=
  isListMethod (extractMethodFromRequest (or_string (ctx_requestPayload valCtx) EmptyString)).

(** [validateMCPComponent(name, description, inputSchema)]: build the
    prompt, ask the model, clean the answer, parse it.  The prompt is the
    template with the three arguments substituted by
    [String.prototype.replace], which converts a replacement that is not
    a string; as all three are read from the descriptor, the answer of the
    model is the oracle's answer for the descriptor. *)
Definition validateMCPComponent (llm : LLM) (tool : json)
  (name description : json) (inputSchema : string) : outcome json :=
  bind (ToString name) (fun _ =>
    bind (ToString description) (fun _ =>
      bind (llm tool) (fun content => parse (cleanJSON content)))).

Definition template_ostring (s : option string) : string :=
  match s with
  | Some x => x
  | None => "undefined"
  end.

Definition filteredResponse (toolData : json) : json :=
  JObj [("result", JObj [("tools", JArr [toolData])])]%string.

(** [`${valCtx.endpoint}/tools/list/${toolName}`] *)
Definition customEndpoint (valCtx : ValidationContext) (toolName : option json)
  : outcome string :=
  bind (ToString_opt toolName) (fun name =>
    Ret (template_ostring (endpoint valCtx) +:+ "/tools/list/" +:+ name)).

(** [reportToolThreat(toolData, validationResp, valCtx)]: the endpoint
    prints the tool name, the message the two scores, and the reason of
    the result the reason of the answer. *)
Definition reportToolThreat (now : Z) (aktoApiToken : string)
  (toolData validationResp : json) (valCtx : ValidationContext) : outcome report :=
  let printed (k : string) : outcome string :=
    bind (get validationResp k) ToString_opt in
  bind (get toolData "name") (fun toolName =>
    bind (customEndpoint valCtx toolName) (fun endpointText =>
      bind (printed "maliciousMatchScore") (fun _ =>
        bind (printed "toolNameDescriptionMatchScore") (fun _ =>
          bind (printed "reason") (fun reasonText =>
            let result :=
              block ("Malicious MCP component detected: " +:+ reasonText)
                [("policy_id", MStr "MCPMaliciousComponent");
                 ("validation", MJson (Some validationResp))]%string in
            let modifiedValCtx :=
              with_endpoint_response valCtx endpointText
                (JSON_stringify (filteredResponse toolData)) in
            Ret {| validationResult := result; reportCtx := modifiedValCtx;
                   post := ThreatReporter.reportThreat now result modifiedValCtx
                             aktoApiToken |}))))).

(** The threshold test of [validateTool]:
    [maliciousMatchScore > 0.75 || toolNameDescriptionMatchScore < 0.7]. *)
Definition exceedsThreshold (validationResp : json) : outcome bool :=
  bind (get validationResp "maliciousMatchScore") (fun malicious =>
    bind (gt malicious 0.75%float) (fun high =>
      if high then Ret true
      else
        bind (get validationResp "toolNameDescriptionMatchScore") (fun matching =>
          lt matching 0.7%float))).

(** [validateTool(tool, valCtx)]: the reports it issues.  Reading the
    name of a [null] descriptor throws, and so does a description of the
    input schema that does not convert: both happen before the [try].
    Whatever is thrown from the call of the model on is caught, and the
    tool is passed over. *)
Definition validateTool (llm : LLM) (now : Z) (aktoApiToken : string)
  (tool : json) (valCtx : ValidationContext) : outcome (list report) :=
  bind (get tool "name") (fun toolName =>
    if negb (truthy_opt toolName) then Ret []
    else
      let toolDescription := or_empty (get_opt (Some tool) "description") in
      bind (extractInputSchema tool) (fun toolInputSchema =>
        Ret (try_catch
               (bind (validateMCPComponent llm tool (default JNull toolName)
                        toolDescription toolInputSchema)
                  (fun validationResp =>
                     bind (get validationResp "isMalicious") (fun isMalicious =>
                       bind (ToString_opt isMalicious) (fun _ =>
                         bind (get validationResp "toolNameDescriptionMatchScore")
                           (fun matching =>
                              bind (ToString_opt matching) (fun _ =>
                                bind (exceedsThreshold validationResp) (fun over =>
                                  if over then
                                    bind (reportToolThreat now aktoApiToken tool
                                            validationResp valCtx)
                                      (fun issued => Ret [issued])
                                  else Ret [])))))))
               (fun _ => [])))).

End WithRuntime.
End McpMetadataValidator.

(* ================================================================== *)
(** * A reference runtime

    An executable instance of [JsRuntime], used to run the validators on
    concrete payloads: decimal/binary64 conversion with round-to-nearest-even,
    shortest round-trip number printing, a JSON reader and writer, and a
    reader for the regular-expression fragment of [RegExp.node].  Escapes
    above code 255 and pattern syntax outside the fragment are refused, and
    the members of an object are kept in document order, which is the
    order of enumeration unless a key is an array index. *)
(* ================================================================== *)

Module Reference.
Import Js RegExp.
Local Open Scope Z_scope.

(** ** Decimal to binary64 *)

(** The double nearest to [m * 10 ^ e10], ties to even. *)
Definition of_decimal (neg : bool) (m e10 : Z) : float :=
  if m <=? 0 then (if neg then PrimFloat.neg_zero else PrimFloat.zero)
  else
    let num := if 0 <=? e10 then m * 10 ^ e10 else m in
    let den := if 0 <=? e10 then 1 else 10 ^ (- e10) in
    let quotient e :=
      if e <? 0 then (num * 2 ^ (- e)) / den else num / (den * 2 ^ e) in
    let e0 := Z.log2 num - Z.log2 den - 53 in
    let e1 := if 2 ^ 53 <=? quotient e0 then e0 + 1 else e0 in
    let e := Z.max e1 (-1074) in
    let n := if e <? 0 then num * 2 ^ (- e) else num in
    let d := if e <? 0 then den else den * 2 ^ e in
    let q := n / d in
    let r := n mod d in
    let q' := if (d <? 2 * r) || ((d =? 2 * r) && Z.odd q) then q + 1 else q in
    let f := Z.ldexp (PrimFloat.of_uint63 (Uint63.of_Z q')) e in
    if neg then PrimFloat.opp f else f.

Fixpoint read_decimal_digits (s : string) (acc count : Z) : Z * Z * string :=
  match s with
  | String c s' =>
      if is_digit c
      then read_decimal_digits s' (acc * 10 + (Z.of_N (code c) - 48)) (count + 1)
      else (acc, count, s)
  | EmptyString => (acc, count, s)
  end.

(** A number literal at the head of [s]: sign, digits, optional fraction
    and exponent.  The answer is the value and what follows. *)
Definition read_number (s : string) : option (float * string) :=
  let '(neg, s) := match s with
                   | String "-" s' => (true, s')
                   | _ => (false, s)
                   end in
  let '(int, nint, s) := read_decimal_digits s 0 0 in
  if nint =? 0 then None
  else
    let '(m, nfrac, s) :=
      match s with
      | String "." s' =>
          let '(m, n, s'') := read_decimal_digits s' int 0 in
          if n =? 0 then (int, -1, s) else (m, n, s'')
      | _ => (int, 0, s)
      end in
    if nfrac <? 0 then None
    else
      let '(ex, ok, s) :=
        match s with
        | String x s' =>
            if Ascii.eqb x "e" || Ascii.eqb x "E" then
              let '(sign, s'') := match s' with
                                  | String "-" t => (-1, t)
                                  | String "+" t => (1, t)
                                  | _ => (1, s')
                                  end in
              let '(v, n, rest) := read_decimal_digits s'' 0 0 in
              if n =? 0 then (0, false, s) else (sign * v, true, rest)
            else (0, true, s)
        | EmptyString => (0, true, s)
        end in
      if ok then Some (of_decimal neg m (ex - nfrac), s) else None.

(** [Number(s)] for decimal literals. *)
Definition StringToNumber (s : string) : float :=
  let t := trim s in
  match t with
  | EmptyString => PrimFloat.zero
  | String "+" t' =>
      match read_number t' with
      | Some (x, EmptyString) => x
      | _ => PrimFloat.nan
      end
  | _ =>
      match read_number t with
      | Some (x, EmptyString) => x
      | _ => PrimFloat.nan
      end
  end.

(** ** Binary64 to decimal: the shortest digits that read back *)

Definition ge_pow10 (num den p : Z) : bool :=
  if 0 <=? p then 10 ^ p * den <=? num else den <=? num * 10 ^ (- p).

Fixpoint adjust_log10 (fuel : nat) (num den p : Z) : Z :=
  match fuel with
  | O => p
  | S fuel' =>
      if ge_pow10 num den (p + 1) then adjust_log10 fuel' num den (p + 1)
      else if ge_pow10 num den p then p
      else adjust_log10 fuel' num den (p - 1)
  end.

Definition repeat_char (c : ascii) (n : Z) : string :=
  Z.iter n (String c) EmptyString.

Definition pad_digits (d n : Z) : string :=
  let ds := Z_toString d in
  repeat_char "0" (n - Z.of_nat (String.length ds)) +:+ ds.

Fixpoint strip_zeros_rev (s : string) : string :=
  match s with
  | String "0" s' => strip_zeros_rev s'
  | _ => s
  end.

(** Candidates with [n] digits for the positive value [num/den] whose
    leading digit has weight [10 ^ p]: the floor and the ceiling of the
    scaled value, the nearer first. *)
Definition candidates (num den p n : Z) : list (Z * Z) :=
  let sc := n - 1 - p in
  let a := if 0 <=? sc then num * 10 ^ sc else num in
  let b := if 0 <=? sc then den else den * 10 ^ (- sc) in
  let lo := a / b in
  let r := a mod b in
  let hi := lo + 1 in
  let norm d := if d =? 10 ^ n then (10 ^ (n - 1), p + 1) else (d, p) in
  if 2 * r <=? b then [norm lo; norm hi] else [norm hi; norm lo].

Fixpoint shortest (fuel : nat) (x : float) (num den p n : Z) : Z * Z * Z :=
  match fuel with
  | O => (0, p, n)
  | S fuel' =>
      match filter (fun c => PrimFloat.eqb (of_decimal false (fst c) (snd c - n + 1)) x)
              (candidates num den p n) with
      | c :: _ => (fst c, snd c, n)
      | [] => shortest fuel' x num den p (n + 1)
      end
  end.

Definition format_digits (d p n : Z) : string :=
  let all := pad_digits d n in
  let ds := rev (strip_zeros_rev (rev all)) in
  let ds := match ds with EmptyString => "0"%string | _ => ds end in
  let n := Z.of_nat (String.length ds) in
  let k := p + 1 in
  if (n <=? k) && (k <=? 21) then ds +:+ repeat_char "0" (k - n)
  else if (0 <? k) && (k <=? 21) then
    take (Z.to_nat k) ds +:+ "." +:+ drop (Z.to_nat k) ds
  else if (-6 <? k) && (k <=? 0) then "0." +:+ repeat_char "0" (- k) +:+ ds
  else
    let ex := k - 1 in
    let exs := (if ex <? 0 then "-" else "+") +:+ Z_toString (Z.abs ex) in
    if n =? 1 then ds +:+ "e" +:+ exs
    else take 1 ds +:+ "." +:+ drop 1 ds +:+ "e" +:+ exs.

(** [String(x)] *)
Definition Number_toString (x : float) : string :=
  match Prim2SF x with
  | S754_nan => "NaN"
  | S754_zero _ => "0"
  | S754_infinity false => "Infinity"
  | S754_infinity true => "-Infinity"
  | S754_finite s m e =>
      let num := if 0 <=? e then Zpos m * 2 ^ e else Zpos m in
      let den := if 0 <=? e then 1 else 2 ^ (- e) in
      let p0 := ((Z.log2 num - Z.log2 den) * 30103) / 100000 in
      let p := adjust_log10 4 num den p0 in
      let '(d, p', n) := shortest 17 (PrimFloat.abs x) num den p 1 in
      (if s then "-" else EmptyString) +:+ format_digits d p' n
  end.

End Reference.

Module ReferenceJson.
Import Js.
Local Open Scope Z_scope.

(** ** Writing JSON *)

Definition hex_digit (n : N) : ascii :=
  if (n <? 10)%N then ascii_of_N (48 + n) else ascii_of_N (87 + n).

Definition escape_char (c : ascii) : string :=
  if Ascii.eqb c dq then String "\" (str1 dq)
  else if Ascii.eqb c "\" then "\\"
  else if Ascii.eqb c "008" then "\b"
  else if Ascii.eqb c "009" then "\t"
  else if Ascii.eqb c "010" then "\n"
  else if Ascii.eqb c "012" then "\f"
  else if Ascii.eqb c "013" then "\r"
  else if (code c <? 32)%N then
    "\u00" +:+ str1 (hex_digit (code c / 16)) +:+ str1 (hex_digit (code c mod 16))
  else str1 c.

Fixpoint escape (s : string) : string :=
  match s with
  | EmptyString => EmptyString
  | String c s' => escape_char c +:+ escape s'
  end.

Definition quote (s : string) : string := str1 dq +:+ escape s +:+ str1 dq.

Definition finite (x : float) : bool :=
  match Prim2SF x with
  | S754_nan | S754_infinity _ => false
  | _ => true
  end.

Fixpoint stringify (v : json) : string :=
  match v with
  | JNull => "null"
  | JBool true => "true"
  | JBool false => "false"
  | JNum x => if finite x then Reference.Number_toString x else "null"
  | JStr s => quote s
  | JArr items =>
      "[" +:+ join "," ((fix each (l : list json) : list string :=
                           match l with
                           | [] => []
                           | j :: l' => stringify j :: each l'
                           end) items) +:+ "]"
  | JObj fields =>
      "{" +:+ join "," ((fix each (l : list (string * json)) : list string :=
                           match l with
                           | [] => []
                           | (k, j) :: l' => (quote k +:+ ":" +:+ stringify j) :: each l'
                           end) fields) +:+ "}"
  end.

(** ** Reading JSON *)

Definition is_ws (c : ascii) : bool :=
  Ascii.eqb c " " || Ascii.eqb c "009" || Ascii.eqb c "010" || Ascii.eqb c "013".

Fixpoint skip_ws (s : string) : string :=
  match s with
  | String c s' => if is_ws c then skip_ws s' else s
  | EmptyString => s
  end.

Definition hex4 (a b c d : ascii) : option Z :=
  match digit_value 16 a, digit_value 16 b, digit_value 16 c, digit_value 16 d with
  | Some x, Some y, Some z, Some w => Some (((x * 16 + y) * 16 + z) * 16 + w)
  | _, _, _, _ => None
  end.

(** The characters of a string literal after its opening quote. *)
Fixpoint read_string (s acc : string) : option (string * string) :=
  match s with
  | EmptyString => None
  | String c s' =>
      if Ascii.eqb c dq then Some (rev acc, s')
      else if Ascii.eqb c "\" then
        match s' with
        | String e s'' =>
            let simple (x : ascii) := read_string s'' (String x acc) in
            if Ascii.eqb e dq then simple dq
            else if Ascii.eqb e "\" then simple "\"%char
            else if Ascii.eqb e "/" then simple "/"%char
            else if Ascii.eqb e "b" then simple "008"%char
            else if Ascii.eqb e "f" then simple "012"%char
            else if Ascii.eqb e "n" then simple "010"%char
            else if Ascii.eqb e "r" then simple "013"%char
            else if Ascii.eqb e "t" then simple "009"%char
            else if Ascii.eqb e "u" then
              match s'' with
              | String h1 (String h2 (String h3 (String h4 s5))) =>
                  match hex4 h1 h2 h3 h4 with
                  | Some n =>
                      if n <? 256 then read_string s5 (String (ascii_of_N (Z.to_N n)) acc)
                      else None
                  | None => None
                  end
              | _ => None
              end
            else None
        | EmptyString => None
        end
      else if (code c <? 32)%N then None
      else read_string s' (String c acc)
  end.

Fixpoint starts_with (p s : string) : option string :=
  match p, s with
  | EmptyString, _ => Some s
  | String a p', String b s' => if Ascii.eqb a b then starts_with p' s' else None
  | String _ _, EmptyString => None
  end.

(** A repeated key keeps its place and takes the later value. *)
Fixpoint set_field (k : string) (v : json) (fields : list (string * json))
  : list (string * json) :=
  match fields with
  | [] => [(k, v)]
  | (k', v') :: rest =>
      if String.eqb k k' then (k, v) :: rest else (k', v') :: set_field k v rest
  end.

Fixpoint read_value (fuel : nat) (s : string) {struct fuel} : option (json * string) :=
  match fuel with
  | O => None
  | S fuel' =>
      match skip_ws s with
      | EmptyString => None
      | String c s' =>
          if Ascii.eqb c "{" then
            match skip_ws s' with
            | String "}" rest => Some (JObj [], rest)
            | _ => read_members fuel' s' []
            end
          else if Ascii.eqb c "[" then
            match skip_ws s' with
            | String "]" rest => Some (JArr [], rest)
            | _ => read_elements fuel' s' []
            end
          else if Ascii.eqb c dq then
            match read_string s' EmptyString with
            | Some (str, rest) => Some (JStr str, rest)
            | None => None
            end
          else if Ascii.eqb c "t" then option_map (pair (JBool true)) (starts_with "rue" s')
          else if Ascii.eqb c "f" then option_map (pair (JBool false)) (starts_with "alse" s')
          else if Ascii.eqb c "n" then option_map (pair JNull) (starts_with "ull" s')
          else
            match String c s' with
            | String "0" (String d _) =>
                if is_digit d then None
                else option_map (fun r => (JNum (fst r), snd r)) (Reference.read_number (String c s'))
            | String "-" (String "0" (String d _)) =>
                if is_digit d then None
                else option_map (fun r => (JNum (fst r), snd r)) (Reference.read_number (String c s'))
            | _ => option_map (fun r => (JNum (fst r), snd r)) (Reference.read_number (String c s'))
            end
      end
  end
with read_elements (fuel : nat) (s : string) (acc : list json) {struct fuel}
  : option (json * string) :=
  match fuel with
  | O => None
  | S fuel' =>
      match read_value fuel' s with
      | Some (v, rest) =>
          match skip_ws rest with
          | String "," rest' => read_elements fuel' rest' (acc ++ [v])
          | String "]" rest' => Some (JArr (acc ++ [v]), rest')
          | _ => None
          end
      | None => None
      end
  end
with read_members (fuel : nat) (s : string) (acc : list (string * json)) {struct fuel}
  : option (json * string) :=
  match fuel with
  | O => None
  | S fuel' =>
      match skip_ws s with
      | String q s1 =>
          if Ascii.eqb q dq then
            match read_string s1 EmptyString with
            | Some (k, s2) =>
                match skip_ws s2 with
                | String ":" s3 =>
                    match read_value fuel' s3 with
                    | Some (v, rest) =>
                        match skip_ws rest with
                        | String "," rest' => read_members fuel' rest' (set_field k v acc)
                        | String "}" rest' => Some (JObj (set_field k v acc), rest')
                        | _ => None
                        end
                    | None => None
                    end
                | _ => None
                end
            | None => None
            end
          else None
      | EmptyString => None
      end
  end.

(** [JSON.parse(s)]; [None] is a [SyntaxError]. *)
Definition parse (s : string) : option json :=
  match read_value (2 * String.length s + 2) s with
  | Some (v, rest) =>
      match skip_ws rest with
      | EmptyString => Some v
      | _ => None
      end
  | None => None
  end.

(** Source text of the two payloads used most below, with their quotes. *)
Definition q (s : string) : string := str1 dq +:+ s +:+ str1 dq.

End ReferenceJson.

Module ReferenceRegExp.
Import Js RegExp.

(** ** Reading a pattern

    The fragment: literals, [.], the escapes [\d \w \s \b] and escaped
    punctuation, classes with ranges and negation, groups, alternation,
    and the greedy quantifiers.  Anything else is refused. *)

Definition word_ranges : list (ascii * ascii) := alnum ++ [one "_"%char].
Definition any_char : node := Class true [one "010"; one "013"]%char.

Definition is_punct (c : ascii) : bool :=
  negb (is_upper c || is_lower c || is_digit c).

(** An escape inside or outside a class, as a set of ranges. *)
Definition escape_ranges (e : ascii) : option (list (ascii * ascii)) :=
  if Ascii.eqb e "d" then Some [("0", "9")]%char
  else if Ascii.eqb e "w" then Some word_ranges
  else if Ascii.eqb e "s" then Some space_ranges
  else if Ascii.eqb e "n" then Some [one "010"%char]
  else if Ascii.eqb e "r" then Some [one "013"%char]
  else if Ascii.eqb e "t" then Some [one "009"%char]
  else if is_punct e then Some [one e]
  else None.

Fixpoint read_class (s : string) (acc : list (ascii * ascii))
  : option (list (ascii * ascii) * string) :=
  match s with
  | EmptyString => None
  | String c s' =>
      if Ascii.eqb c "]" then Some (acc, s')
      else if Ascii.eqb c "\" then
        match s' with
        | String e s'' =>
            match escape_ranges e with
            | Some rs => read_class s'' (acc ++ rs)
            | None => None
            end
        | EmptyString => None
        end
      else
        match s' with
        | String "-" (String hi s'') =>
            if Ascii.eqb hi "]" then read_class s' (acc ++ [one c])
            else if Ascii.eqb hi "\" then None
            else if (code c <=? code hi)%N then read_class s'' (acc ++ [(c, hi)])
            else None
        | _ => read_class s' (acc ++ [one c])
        end
  end.

Fixpoint read_nat (s : string) (acc : option nat) : option nat * string :=
  match s with
  | String c s' =>
      if is_digit c
      then read_nat s' (Some (default 0 acc * 10 + N.to_nat (code c - 48))%nat)
      else (acc, s)
  | EmptyString => (acc, s)
  end.

(** A quantifier at the head of [s], applied to [atom]. *)
Definition read_quantifier (atom : node) (s : string) : option (node * string) :=
  let lazy_guard (r : node) (rest : string) :=
    match rest with
    | String "?" _ => None
    | _ => Some (r, rest)
    end in
  match s with
  | String "*" rest => lazy_guard (Repeat atom 0 None) rest
  | String "+" rest => lazy_guard (Repeat atom 1 None) rest
  | String "?" rest => lazy_guard (Repeat atom 0 (Some 1)) rest
  | String "{" rest =>
      match read_nat rest None with
      | (Some lo, String "}" rest') => lazy_guard (Repeat atom lo (Some lo)) rest'
      | (Some lo, String "," (String "}" rest')) => lazy_guard (Repeat atom lo None) rest'
      | (Some lo, String "," rest') =>
          match read_nat rest' None with
          | (Some hi, String "}" rest'') =>
              if Nat.leb lo hi then lazy_guard (Repeat atom lo (Some hi)) rest'' else None
          | _ => None
          end
      | _ => None
      end
  | _ => Some (atom, s)
  end.

Fixpoint read_disjunction (fuel : nat) (s : string) {struct fuel} : option (node * string) :=
  match fuel with
  | O => None
  | S fuel' =>
      match read_alternative fuel' s [] with
      | Some (a, String "|" rest) =>
          match read_disjunction fuel' rest with
          | Some (b, rest') => Some (Alt a b, rest')
          | None => None
          end
      | other => other
      end
  end
with read_alternative (fuel : nat) (s : string) (acc : list node) {struct fuel}
  : option (node * string) :=
  match fuel with
  | O => None
  | S fuel' =>
      let continue (term : node) (rest : string) :=
        read_alternative fuel' rest (acc ++ [term]) in
      let quantified (atom : node) (rest : string) :=
        match read_quantifier atom rest with
        | Some (term, rest') => continue term rest'
        | None => None
        end in
      match s with
      | EmptyString => Some (seq acc, s)
      | String c s' =>
          if Ascii.eqb c "|" || Ascii.eqb c ")" then Some (seq acc, s)
          else if Ascii.eqb c "(" then
            let inner := match s' with
                         | String "?" (String ":" t) => Some t
                         | String "?" _ => None
                         | _ => Some s'
                         end in
            match inner with
            | Some t =>
                match read_disjunction fuel' t with
                | Some (r, String ")" rest) => quantified r rest
                | _ => None
                end
            | None => None
            end
          else if Ascii.eqb c "[" then
            let '(negated, body) := match s' with
                                    | String "^" t => (true, t)
                                    | _ => (false, s')
                                    end in
            match read_class body [] with
            | Some (rs, rest) => quantified (Class negated rs) rest
            | None => None
            end
          else if Ascii.eqb c "\" then
            match s' with
            | String e rest =>
                if Ascii.eqb e "b" then continue WordBoundary rest
                else
                  match escape_ranges e with
                  | Some [r] =>
                      if Ascii.eqb (fst r) (snd r) then quantified (Char (fst r)) rest
                      else quantified (Class false [r]) rest
                  | Some rs => quantified (Class false rs) rest
                  | None => None
                  end
            | EmptyString => None
            end
          else if Ascii.eqb c "." then quantified any_char s'
          else if existsb (Ascii.eqb c) ["*"; "+"; "?"; "{"; "}"; "]"; "^"; "$"]%char then None
          else quantified (Char c) s'
      end
  end.

(** The pattern of [new RegExp(p, flags)]; [None] is a [SyntaxError]. *)
Definition compile (p : string) : option node :=
  match read_disjunction (2 * String.length p + 2) p with
  | Some (r, EmptyString) => Some r
  | _ => None
  end.

End ReferenceRegExp.

(** The reference runtime. *)
Definition reference : JsRuntime :=
  {| JSON_parse := ReferenceJson.parse;
     JSON_stringify := ReferenceJson.stringify;
     Number_toString := Reference.Number_toString;
     StringToNumber := Reference.StringToNumber;
     RegExp_compile := ReferenceRegExp.compile;
     JSON_parse_empty := eq_refl |}.


(* ================================================================== *)
(** * Request processor ([services/mcp-processor.ts]) *)
(* ================================================================== *)

Module MCPProcessor.
Import Js Types Coerce.

Record ProcessResult := {
  isBlocked : bool;
  blockedResponse : option json;
  parsedData : option json;
  pr_modifiedPayload : option string;
  shouldForward : bool;
}.

(** The fields of the processor object. *)
Record processor := {
  modelExecutorBinding : ScannerClient.Fetcher;
  tbsToken : string;
  skipThreat : bool;
}.

(** What a call leaves behind: the result or the exception, the context
    object as the call mutated it, the threat reports it started and the
    events of the validator. *)
Record run := {
  answer : outcome ProcessResult;
  context : ValidationContext;
  reports : list ThreatReporter.ThreatPost;
  events : list PolicyValidator.event;
}.

(** [{ isBlocked: false, shouldForward: true }] with the parsed data. *)
Definition forwarded (data : option json) (modifiedPayload : option string) : ProcessResult :=
  {| isBlocked := false; blockedResponse := None; parsedData := data;
     pr_modifiedPayload := modifiedPayload; shouldForward := true |}.

Definition stopped (data : json) (response : json) : ProcessResult :=
  {| isBlocked := true; blockedResponse := Some response; parsedData := Some data;
     pr_modifiedPayload := None; shouldForward := false |}.

(** The assignments a call makes to the fields of the context. *)
Definition with_requestPayload (valCtx : ValidationContext) (payload : string)
  : ValidationContext :=
  {| ip := ip valCtx; destIP := destIP valCtx; endpoint := endpoint valCtx;
     method := method valCtx; requestHeaders := requestHeaders valCtx;
     responseHeaders := responseHeaders valCtx; statusCode := statusCode valCtx;
     ctx_requestPayload := Some payload;
     ctx_responsePayload := ctx_responsePayload valCtx;
     mcpServerName := mcpServerName valCtx; policies := policies valCtx;
     auditPolicies := auditPolicies valCtx; hasAuditRules := hasAuditRules valCtx;
     rateLimitPolicy := rateLimitPolicy valCtx |}.

Definition with_responsePayload (valCtx : ValidationContext) (payload : string)
  : ValidationContext :=
  {| ip := ip valCtx; destIP := destIP valCtx; endpoint := endpoint valCtx;
     method := method valCtx; requestHeaders := requestHeaders valCtx;
     responseHeaders := responseHeaders valCtx; statusCode := statusCode valCtx;
     ctx_requestPayload := ctx_requestPayload valCtx;
     ctx_responsePayload := Some payload;
     mcpServerName := mcpServerName valCtx; policies := policies valCtx;
     auditPolicies := auditPolicies valCtx; hasAuditRules := hasAuditRules valCtx;
     rateLimitPolicy := rateLimitPolicy valCtx |}.

Definition with_policies (valCtx : ValidationContext) (ps : list Policy)
  : ValidationContext :=
  {| ip := ip valCtx; destIP := destIP valCtx; endpoint := endpoint valCtx;
     method := method valCtx; requestHeaders := requestHeaders valCtx;
     responseHeaders := responseHeaders valCtx; statusCode := statusCode valCtx;
     ctx_requestPayload := ctx_requestPayload valCtx;
     ctx_responsePayload := ctx_responsePayload valCtx;
     mcpServerName := mcpServerName valCtx; policies := Some ps;
     auditPolicies := auditPolicies valCtx; hasAuditRules := hasAuditRules valCtx;
     rateLimitPolicy := rateLimitPolicy valCtx |}.

Definition with_audit (valCtx : ValidationContext) (audits : gmap string AuditPolicy)
  (hasRules : bool) : ValidationContext :=
  {| ip := ip valCtx; destIP := destIP valCtx; endpoint := endpoint valCtx;
     method := method valCtx; requestHeaders := requestHeaders valCtx;
     responseHeaders := responseHeaders valCtx; statusCode := statusCode valCtx;
     ctx_requestPayload := ctx_requestPayload valCtx;
     ctx_responsePayload := ctx_responsePayload valCtx;
     mcpServerName := mcpServerName valCtx; policies := policies valCtx;
     auditPolicies := Some audits; hasAuditRules := Some hasRules;
     rateLimitPolicy := rateLimitPolicy valCtx |}.

Section WithRuntime.
Context `{RT : JsRuntime}.

(** [reportThreatAsync]: the report started when a token is configured.
    The reporter builds its request from the context before it first
    yields, so the report is fixed by the context at this point. *)
Definition reportThreatAsync (p : processor) (later : Z)
  (validationResult : ValidationResult) (valCtx : ValidationContext)
  : list ThreatReporter.ThreatPost :=
  if truthy_string (tbsToken p)
  then [ThreatReporter.reportThreat later validationResult valCtx (tbsToken p)]
  else [].

(** What both entry points do with the verdict of the validator; [keep]
    is the assignment of a modified payload to the context. *)
Definition conclude (p : processor) (later : Z) (raw : string) (data : json)
  (validationResult : ValidationResult) (valCtx : ValidationContext)
  (keep : ValidationContext -> string -> ValidationContext)
  (trace : list PolicyValidator.event) : run :=
  if negb (allowed validationResult) then
    let response :=
      PolicyValidator.createBlockedResponse raw
        (or_string (reason validationResult) "Blocked by policy") in
    let valCtx' := with_responsePayload valCtx (JSON_stringify response) in
    {| answer := Ret (stopped data response); context := valCtx';
       reports := reportThreatAsync p later validationResult valCtx';
       events := trace |}
  else if modified validationResult && truthy_ostring (modifiedPayload validationResult) then
    let valCtx' := keep valCtx (or_string (modifiedPayload validationResult) EmptyString) in
    {| answer := Ret (forwarded (Some data) (modifiedPayload validationResult));
       context := valCtx';
       reports := reportThreatAsync p later validationResult valCtx';
       events := trace |}
  else
    {| answer := Ret (forwarded (Some data) None); context := valCtx;
       reports := []; events := trace |}.

(** [processRequest(rawRequestPayload, valCtx, policies, auditPolicies,
    hasAuditRules)]; the validator reads the clock at [now], the reporter
    at [later]. *)
Definition processRequest (p : processor) (now later : Z)
  (rawRequestPayload : string) (valCtx : ValidationContext)
  (ps : list Policy) (audits : gmap string AuditPolicy) (hasRules : bool) : run :=
  let untouched r := {| answer := Ret r; context := valCtx; reports := []; events := [] |} in
  if negb (truthy_string rawRequestPayload) then untouched (forwarded None None)
  else
    match JSON_parse rawRequestPayload with
    | None => untouched (forwarded None None)
    | Some requestData =>
        if skipThreat p then untouched (forwarded (Some requestData) None)
        else
          let valCtx1 :=
            with_audit (with_policies (with_requestPayload valCtx rawRequestPayload) ps)
              audits hasRules in
          match PolicyValidator.validateRequest (modelExecutorBinding p) now
                  rawRequestPayload valCtx1 with
          | (Throw e, trace) =>
              {| answer := Throw e; context := valCtx1; reports := []; events := trace |}
          | (Ret validationResult, trace) =>
              conclude p later rawRequestPayload requestData validationResult valCtx1
                with_requestPayload trace
          end
    end.

(** [processResponse(rawResponsePayload, valCtx, policies)] *)
Definition processResponse (p : processor) (later : Z)
  (rawResponsePayload : string) (valCtx : ValidationContext) (ps : list Policy) : run :=
  let untouched r := {| answer := Ret r; context := valCtx; reports := []; events := [] |} in
  if negb (truthy_string rawResponsePayload) then untouched (forwarded None None)
  else
    match JSON_parse rawResponsePayload with
    | None => untouched (forwarded None None)
    | Some responseData =>
        let valCtx1 := with_responsePayload valCtx rawResponsePayload in
        if skipThreat p then
          {| answer := Ret (forwarded (Some responseData) None); context := valCtx1;
             reports := []; events := [] |}
        else
          let valCtx2 := with_policies valCtx1 ps in
          match PolicyValidator.validateResponse (modelExecutorBinding p)
                  rawResponsePayload valCtx2 with
          | (Throw e, trace) =>
              {| answer := Throw e; context := valCtx2; reports := []; events := trace |}
          | (Ret validationResult, trace) =>
              conclude p later rawResponsePayload responseData validationResult valCtx2
                with_responsePayload trace
          end
    end.

End WithRuntime.
End MCPProcessor.

(* ================================================================== *)
(** * Batch validation ([handlers/validation-handler.ts]) *)
(* ================================================================== *)

Module ValidationHandler.
Import Js Types Coerce MCPProcessor.

(** The members of [IngestDataBatch] the handler reads. *)
Record IngestDataBatch := {
  path : string;
  batch_requestHeaders : option string;
  batch_responseHeaders : option string;
  batch_method : string;
  batch_requestPayload : option string;
  batch_responsePayload : option string;
  batch_ip : option string;
  batch_statusCode : option string;
}.

Record ValidationBatchResult := {
  index : nat;
  result_method : string;
  result_path : string;
  requestAllowed : bool;
  requestModified : bool;
  requestModifiedPayload : option string;
  requestError : option js_error;
  responseAllowed : bool;
  responseModified : bool;
  responseModifiedPayload : option string;
  responseError : option js_error;
}.

(** A parsed header document read as [Record<string, string>]: the
    string members of an object. *)
Definition headersOf (document : json) : list (string * string) :=
  match document with
  | JObj fields =>
      flat_map (fun kv => match snd kv with
                          | JStr v => [(fst kv, v)]
                          | _ => []
                          end) fields
  | _ => []
  end.

(** The number [parseInt] returns. *)
Definition numberOf (n : option Z) : float :=
  match n with
  | Some z => Reference.of_decimal (z <? 0)%Z (Z.abs z) 0
  | None => PrimFloat.nan
  end.

(** The members of the handler's configuration that its prologue reads. *)
Record BatchConfig := {
  dbUrl : option string;
  dbToken : option string;
  config_policies : option (list Policy);
  config_auditPolicies : option (gmap string AuditPolicy);
  config_hasAuditRules : option bool;
  config_rateLimitPolicy : option RateLimitConfig;
}.

(** The four variables the prologue sets for the loop. *)
Record Loaded := {
  loaded_policies : list Policy;
  loaded_auditPolicies : gmap string AuditPolicy;
  loaded_hasAuditRules : bool;
  loaded_rateLimitPolicy : option RateLimitConfig;
}.

Section WithProcessor.
Context `{RT : JsRuntime}.

(** [await Promise.all([fetchGuardrailPolicies(..), fetchMcpAuditInfo(..),
    fetchRateLimitPolicy(..)])]: the three values the policy backend
    answered with, or the rejection of the first request that failed. *)
Variable fetched :
  outcome (list Policy * gmap string AuditPolicy * option RateLimitConfig).

(** The processor of the handler is built with the rate-limit store and
    the policy backend besides the executor binding, and keeps state
    between calls; its two entry points are taken as they are called for
    the entry at a position of the batch: from the payload, the context
    object and the policies to the result or the exception, and the
    context as the call left it. *)
Variable processRequest :
  nat -> string -> ValidationContext -> list Policy -> gmap string AuditPolicy -> bool ->
  outcome ProcessResult * ValidationContext.
Variable processResponse :
  nat -> string -> ValidationContext -> list Policy ->
  outcome ProcessResult * ValidationContext.

(** The prologue: the policies are fetched when the database is
    configured, and taken from the configuration otherwise. *)
Definition loadPolicies (config : BatchConfig) : outcome Loaded :=
  if truthy_ostring (dbUrl config) && truthy_ostring (dbToken config) then
    bind fetched (fun '(fetchedPolicies, fetchedAuditPolicies, fetchedRateLimitPolicy) =>
      Ret {| loaded_policies := fetchedPolicies;
             loaded_auditPolicies := fetchedAuditPolicies;
             loaded_hasAuditRules := negb (Nat.eqb (size fetchedAuditPolicies) 0);
             loaded_rateLimitPolicy := fetchedRateLimitPolicy |})
  else
    Ret {| loaded_policies := default [] (config_policies config);
           loaded_auditPolicies := default ∅ (config_auditPolicies config);
           loaded_hasAuditRules := default false (config_hasAuditRules config);
           loaded_rateLimitPolicy := config_rateLimitPolicy config |}.

(** [data.requestHeaders ? JSON.parse(data.requestHeaders) : {}] *)
Definition parseHeaders (text : option string) : outcome (list (string * string)) :=
  if truthy_ostring text
  then bind (parse (or_string text EmptyString)) (fun document => Ret (headersOf document))
  else Ret [].

(** The body of the loop for the entry at position [i]. *)
Definition validateEntry (loaded : Loaded) (i : nat) (data : IngestDataBatch)
  : outcome ValidationBatchResult :=
  bind (parseHeaders (batch_requestHeaders data)) (fun reqHeaders =>
    bind (parseHeaders (batch_responseHeaders data)) (fun respHeaders =>
      let code :=
        if truthy_ostring (batch_statusCode data)
        then numberOf (parseInt (or_string (batch_statusCode data) EmptyString))
        else 0%float in
      let valCtx :=
        {| ip := batch_ip data; destIP := None; endpoint := Some (path data);
           method := Some (batch_method data);
           requestHeaders := Some reqHeaders; responseHeaders := Some respHeaders;
           statusCode := Some code;
           ctx_requestPayload := batch_requestPayload data;
           ctx_responsePayload := batch_responsePayload data;
           mcpServerName := None; policies := None; auditPolicies := None;
           hasAuditRules := None;
           rateLimitPolicy := loaded_rateLimitPolicy loaded |} in
      let '(allowed1, modified1, payload1, error1, valCtx1) :=
        if truthy_ostring (batch_requestPayload data) then
          match processRequest i (or_string (batch_requestPayload data) EmptyString) valCtx
                  (loaded_policies loaded) (loaded_auditPolicies loaded)
                  (loaded_hasAuditRules loaded) with
          | (Ret processResult, valCtx') =>
              (negb (isBlocked processResult),
               truthy_ostring (pr_modifiedPayload processResult),
               pr_modifiedPayload processResult, None, valCtx')
          | (Throw e, valCtx') => (true, false, None, Some e, valCtx')
          end
        else (true, false, None, None, valCtx) in
      let '(allowed2, modified2, payload2, error2) :=
        if truthy_ostring (batch_responsePayload data) then
          match processResponse i (or_string (batch_responsePayload data) EmptyString) valCtx1
                  (loaded_policies loaded) with
          | (Ret processResult, _) =>
              (negb (isBlocked processResult),
               truthy_ostring (pr_modifiedPayload processResult),
               pr_modifiedPayload processResult, None)
          | (Throw e, _) => (true, false, None, Some e)
          end
        else (true, false, None, None) in
      Ret {| index := i; result_method := batch_method data; result_path := path data;
             requestAllowed := allowed1; requestModified := modified1;
             requestModifiedPayload := payload1; requestError := error1;
             responseAllowed := allowed2; responseModified := modified2;
             responseModifiedPayload := payload2; responseError := error2 |})).

(** The loop of [handleBatchValidation] from position [i] on. *)
Fixpoint validateFrom (loaded : Loaded) (i : nat) (batchData : list IngestDataBatch)
  : outcome (list ValidationBatchResult) :=
  match batchData with
  | [] => Ret []
  | data :: rest =>
      bind (validateEntry loaded i data) (fun result =>
        bind (validateFrom loaded (S i) rest) (fun results => Ret (result :: results)))
  end.

(** [handleBatchValidation(batchData, config)]: the prologue, then the
    loop. *)
Definition handleBatchValidation (batchData : list IngestDataBatch) (config : BatchConfig)
  : outcome (list ValidationBatchResult) :=
  bind (loadPolicies config) (fun loaded => validateFrom loaded 0 batchData).

End WithProcessor.
End ValidationHandler.

(* ================================================================== *)
(** * Concrete inputs for the worked examples *)
(* ================================================================== *)

Module Scenario.
Import Js Types.

Definition q := ReferenceJson.q.

(** [{"jsonrpc":"2.0","id":1,"method":"ping"}] *)
Definition ping : string :=
  "{" +:+ q "jsonrpc" +:+ ":" +:+ q "2.0" +:+ "," +:+ q "id" +:+ ":1,"
  +:+ q "method" +:+ ":" +:+ q "ping" +:+ "}".

(** [{"method":"tools/call","params":{"name":tool}}] *)
Definition call (tool : string) : string :=
  "{" +:+ q "method" +:+ ":" +:+ q "tools/call" +:+ "," +:+ q "params" +:+ ":{"
  +:+ q "name" +:+ ":" +:+ q tool +:+ "}}".

(** [{"method":"tools/call","params":{"name":{"toString":1}}}]: a tool
    call whose name is an object that has no string conversion. *)
Definition masked_call : string :=
  "{" +:+ q "method" +:+ ":" +:+ q "tools/call" +:+ "," +:+ q "params" +:+ ":{"
  +:+ q "name" +:+ ":{" +:+ q "toString" +:+ ":1}}}".

Definition rule (ty : string) (pat act : option string) : FilterRule :=
  {| type := ty; pattern := pat; action := act; config := None |}.

(** An active policy with the given request rules. *)
Definition policy (rules : list FilterRule) : Policy :=
  {| id := "MCPGuardrails"; name := "default"; active := true; default_action := "block";
     filters := {| requestPayload := Some rules; responsePayload := Some rules |} |}.

Definition audit (resource remark : string) (conditions : option ApprovalConditions)
  : AuditPolicy :=
  {| resourceName := resource; remarks := Some remark; markedBy := Some "admin"%string;
     approvalConditions := conditions |}.

Definition context (server : option string) (rules : list FilterRule)
  (audits : list AuditPolicy) : ValidationContext :=
  {| ip := Some "10.0.0.5"%string; destIP := None; endpoint := Some "/mcp"%string;
     method := Some "POST"%string; requestHeaders := None; responseHeaders := None;
     statusCode := None; ctx_requestPayload := None; ctx_responsePayload := None;
     mcpServerName := server;
     policies := Some [policy rules];
     auditPolicies := Some (list_to_map (map (fun a => (resourceName a, a)) audits));
     hasAuditRules := Some true; rateLimitPolicy := None |}.

(** A model executor whose scanners reject everything with risk 0.9. *)
Definition rejecting : ScannerClient.Fetcher :=
  fun _ req =>
    ScannerClient.Response true
      (ScannerClient.Body
         (JObj [("scanner_name", JStr (req_scanner_name req)); ("is_valid", JBool false);
                ("risk_score", JNum 0.9%float)]%string)).

(** A text one code unit longer than the scanner accepts. *)
Definition oversized : string := N.iter 1048577 (String "a") EmptyString.

(** The tool of the metadata scenario and the answer of the model to it. *)
Definition get_weather : json :=
  JObj [("name", JStr "get_weather");
        ("description", JStr "Executes arbitrary shell commands")]%string.

Definition verdict (malicious matching : string) : string :=
  "Here is my assessment: {" +:+ q "isMalicious" +:+ ":true,"
  +:+ q "maliciousMatchScore" +:+ ":" +:+ malicious +:+ ","
  +:+ q "toolNameDescriptionMatchScore" +:+ ":" +:+ matching +:+ ","
  +:+ q "reason" +:+ ":" +:+ q "mismatch" +:+ "} as requested.".

(** An answer of the model whose [reason] is an object with a member
    named [toString]. *)
Definition evasive : string :=
  "{" +:+ q "isMalicious" +:+ ":true," +:+ q "maliciousMatchScore" +:+ ":0.9,"
  +:+ q "toolNameDescriptionMatchScore" +:+ ":0.2,"
  +:+ q "reason" +:+ ":{" +:+ q "toString" +:+ ":1}}".

(** [{"method":"tools/list"}] *)
Definition list_tools : string :=
  "{" +:+ q "method" +:+ ":" +:+ q "tools/list" +:+ "}".

(** [{"result":"done"}] *)
Definition done : string :=
  "{" +:+ q "result" +:+ ":" +:+ q "done" +:+ "}".

(** Two guardrail documents of the policy backend: an active one with
    every kind of filter, applied to both sides, and an inactive one. *)
Definition strict : PolicyManager.GuardrailsPolicy :=
  {| PolicyManager.gp_id := Some "g1"%string;
     PolicyManager.gp_name := Some "strict"%string;
     PolicyManager.gp_active := Some true;
     PolicyManager.applyOnRequest := Some true;
     PolicyManager.applyOnResponse := Some true;
     PolicyManager.contentFiltering :=
       Some {| PolicyManager.harmfulCategories := Some (JBool true);
               PolicyManager.promptAttacks := Some (JObj [("level", JStr "HIGH")]%string) |};
     PolicyManager.deniedTopics :=
       Some [{| PolicyManager.topic := "weapons";
                PolicyManager.samplePhrases := ["how to build"]%string |}];
     PolicyManager.piiTypes :=
       Some [{| PolicyManager.pii_type := "email";
                PolicyManager.behavior := Some "mask"%string |}];
     PolicyManager.regexPatternsV2 :=
       Some [{| PolicyManager.regex_pattern := "token=[a-z]+";
                PolicyManager.regex_action := None |}] |}.

Definition retired : PolicyManager.GuardrailsPolicy :=
  {| PolicyManager.gp_id := Some "g2"%string;
     PolicyManager.gp_name := Some "retired"%string;
     PolicyManager.gp_active := Some false;
     PolicyManager.applyOnRequest := Some true;
     PolicyManager.applyOnResponse := Some true;
     PolicyManager.contentFiltering := None;
     PolicyManager.deniedTopics := None;
     PolicyManager.piiTypes := None;
     PolicyManager.regexPatternsV2 := None |}.

Definition guardrails_reply : PolicyManager.guardrailResponse :=
  PolicyManager.GuardrailResponse true
    (PolicyManager.GuardrailBody (Some [Some strict; Some retired])).

(** A processor in front of the rejecting executor, with a reporting
    token, and its two entry points as the batch handler calls them. *)
Definition gateway : MCPProcessor.processor :=
  {| MCPProcessor.modelExecutorBinding := rejecting;
     MCPProcessor.tbsToken := "secret";
     MCPProcessor.skipThreat := false |}.

Definition harmful : Policy := policy [rule "harmfulCategories" None (Some "block"%string)].

Definition requestEntry (i : nat) (payload : string) (valCtx : ValidationContext)
  (policies : list Policy) (auditPolicies : gmap string AuditPolicy) (hasAuditRules : bool)
  : outcome MCPProcessor.ProcessResult * ValidationContext :=
  let run :=
    MCPProcessor.processRequest (RT := reference) gateway 0 0 payload valCtx
      policies auditPolicies hasAuditRules in
  (MCPProcessor.answer run, MCPProcessor.context run).

Definition responseEntry (i : nat) (payload : string) (valCtx : ValidationContext)
  (policies : list Policy)
  : outcome MCPProcessor.ProcessResult * ValidationContext :=
  let run := MCPProcessor.processResponse (RT := reference) gateway 0 payload valCtx policies in
  (MCPProcessor.answer run, MCPProcessor.context run).

(** A configuration with pre-fetched policies: one policy with a
    [harmfulCategories] rule, audit rules switched on without any audit
    policy.  With it the policy backend is not asked. *)
Definition prefetched : ValidationHandler.BatchConfig :=
  {| ValidationHandler.dbUrl := None; ValidationHandler.dbToken := None;
     ValidationHandler.config_policies := Some [harmful];
     ValidationHandler.config_auditPolicies := Some ∅;
     ValidationHandler.config_hasAuditRules := Some true;
     ValidationHandler.config_rateLimitPolicy := None |}.

(** A configuration that names the policy backend, and a backend that
    does not answer. *)
Definition configured : ValidationHandler.BatchConfig :=
  {| ValidationHandler.dbUrl := Some "https://db.example"%string;
     ValidationHandler.dbToken := Some "token"%string;
     ValidationHandler.config_policies := None;
     ValidationHandler.config_auditPolicies := None;
     ValidationHandler.config_hasAuditRules := None;
     ValidationHandler.config_rateLimitPolicy := None |}.

Definition unreachable
  : outcome (list Policy * gmap string AuditPolicy * option RateLimitConfig) :=
  Throw NetworkError.

Definition entry (requestPayload : string) (headers : option string)
  : ValidationHandler.IngestDataBatch :=
  {| ValidationHandler.path := "/mcp";
     ValidationHandler.batch_requestHeaders := headers;
     ValidationHandler.batch_responseHeaders := None;
     ValidationHandler.batch_method := "POST";
     ValidationHandler.batch_requestPayload := Some requestPayload;
     ValidationHandler.batch_responsePayload := None;
     ValidationHandler.batch_ip := Some "10.0.0.5"%string;
     ValidationHandler.batch_statusCode := Some "200"%string |}.

(** A tool call the executor rejects, and the payload [null], on which
    the audit validator throws. *)
Definition batch : list ValidationHandler.IngestDataBatch :=
  [entry (call "read_file") None; entry "null" None].

Definition batch_results : list ValidationHandler.ValidationBatchResult :=
  Eval vm_compute in
    match ValidationHandler.handleBatchValidation (RT := reference)
            unreachable requestEntry responseEntry batch prefetched with
    | Ret results => results
    | Throw _ => []
    end.

End Scenario.

(* ================================================================== *)
(** * Vocabulary of the properties *)
(* ================================================================== *)

(** The two invariants of a [ValidationResult]: a blocked result carries a
    non-empty reason; a modified result carries its payload and is allowed. *)
Definition well_formed (r : Types.ValidationResult) : Prop :=
  (Types.allowed r = false ->
   exists why, Types.reason r = Some why /\ why <> EmptyString)
  /\ (Types.modified r = true ->
      is_Some (Types.modifiedPayload r) /\ Types.allowed r = true).

(** A property of what a computation returns, when it returns. *)
Definition returns {A} (P : A -> Prop) (o : Js.outcome A) : Prop :=
  match o with
  | Js.Ret a => P a
  | Js.Throw _ => True
  end.

Definition when_some {A} (P : A -> Prop) (o : option A) : Prop :=
  match o with
  | Some a => P a
  | None => True
  end.

(** The audit validator's rejection. *)
Definition rejected : Types.ValidationResult :=
  AuditValidator.audit_block "Resource access has been rejected by Audit Policy".

(** The decision [validateWithPolicy] takes on the remarks of a policy,
    which it returns once it has printed the resource path. *)
Definition policyVerdict (now : Z) (policy : Types.AuditPolicy)
  (valCtx : Types.ValidationContext) : Types.ValidationResult :=
  let remarksLower :=
    Js.toLowerCase (Types.or_string (option_map Js.trim (Types.remarks policy)) EmptyString) in
  if String.eqb remarksLower "rejected" then rejected
  else if String.eqb remarksLower "conditionally approved" then
    AuditValidator.validateConditionalApproval now policy valCtx
  else Types.allow.

(** A policy whose remarks read [rejected] once trimmed and lower-cased. *)
Definition is_rejected (policy : Types.AuditPolicy) : Prop :=
  Js.toLowerCase (Types.or_string (option_map Js.trim (Types.remarks policy)) EmptyString)
  = "rejected"%string.

(** An IPv4 address in dotted decimal, and its encoding as an unsigned
    32-bit integer: the octets folded with a left shift by 8. *)
Definition dotted (a b c d : Z) : string :=
  Js.Z_toString a +:+ "." +:+ Js.Z_toString b +:+ "." +:+ Js.Z_toString c +:+ "."
  +:+ Js.Z_toString d.

Definition uint32_of_octets (a b c d : Z) : Z :=
  (Z.shiftl (Z.shiftl (Z.shiftl a 8 + b) 8 + c) 8 + d)%Z.

(** The top [b] of the 32 bits of [x] and [y] agree. *)
Definition top_bits_agree (b x y : Z) : Prop :=
  forall i : Z, (32 - b <= i < 32)%Z -> Z.testbit x i = Z.testbit y i.

Fixpoint has_char (c : ascii) (s : string) : bool :=
  match s with
  | EmptyString => false
  | String a s' => Ascii.eqb a c || has_char c s'
  end.

(** What the proofs need of the decimal text of a small number: it reads
    back, it holds no separator, and it is not empty. *)
Definition decimal_ok (n : Z) : bool :=
  match Js.parseInt (Js.Z_toString n) with
  | Some m => (m =? n)%Z
  | None => false
  end
  && negb (has_char "." (Js.Z_toString n))
  && negb (has_char "/" (Js.Z_toString n))
  && Js.truthy_string (Js.Z_toString n).

(** The verdicts of successive calls of [checkRateLimit] for one key, made
    at the given clock readings, and the store they leave. *)
Fixpoint successive_checks (kv : gmap string RateLimitValidator.entry) (key : string)
  (limit windowSeconds : Z) (times : list Z)
  : list bool * gmap string RateLimitValidator.entry :=
  match times with
  | [] => ([], kv)
  | now :: later =>
      let '(result, kv') := RateLimitValidator.checkRateLimit kv now key limit windowSeconds in
      let '(verdicts, kv'') := successive_checks kv' key limit windowSeconds later in
      (RateLimitValidator.check_allowed result :: verdicts, kv'')
  end.

(** The request [callSingleScanAPI] posts for a scanner. *)
Definition request_for (text : string) (scanner : Types.ScannerInfo)
  : Types.SingleScanRequest :=
  {| Types.req_text := text; Types.req_scanner_type := Types.scanner_type scanner;
     Types.req_scanner_name := Types.scanner_name scanner;
     Types.req_config := Types.scanner_config scanner |}.

(** A computation that returns. *)
Definition succeeds {A} (o : Js.outcome A) : bool :=
  match o with
  | Js.Ret _ => true
  | Js.Throw _ => false
  end.

(** A reply of the model executor that rejects the text: an OK response
    whose body is a JSON value other than [null] with a falsy [is_valid],
    and with a [risk_score] that can be printed. *)
Definition refuses `{RT : JsRuntime} (reply : ScannerClient.response) : bool :=
  match reply with
  | ScannerClient.Response true (ScannerClient.Body JNull) => false
  | ScannerClient.Response true (ScannerClient.Body j) =>
      negb (ScannerClient.is_valid j)
      && succeeds (Coerce.ToString_opt (get_opt (Some j) "risk_score"))
  | _ => false
  end.

(** The two thresholds of the metadata auditor, on the scores as numbers. *)
Definition over_threshold (malicious matching : float) : bool :=
  PrimFloat.ltb 0.75%float malicious || PrimFloat.ltb matching 0.7%float.

(** The values of the fulfilled promises among the settled ones. *)
Fixpoint fulfilled (settled : list (Js.outcome json)) : list json :=
  match settled with
  | [] => []
  | Js.Ret v :: rest => v :: fulfilled rest
  | Js.Throw _ :: rest => fulfilled rest
  end.

(** A result that rewrites nothing. *)
Definition unmodified (r : Types.ValidationResult) : Prop :=
  Types.modified r = false /\ Types.modifiedPayload r = None.

(** The rule types the orchestrator turns into scanner tasks. *)
Definition is_scanned_type (ty : string) : bool :=
  String.eqb ty "harmfulCategories" || String.eqb ty "promptAttacks".

(** A policy without the rules of other types. *)
Definition scanned_rules_only (policy : Types.Policy) : Types.Policy :=
  let keep := option_map (List.filter (fun rule => is_scanned_type (Types.type rule))) in
  {| Types.id := Types.id policy; Types.name := Types.name policy;
     Types.active := Types.active policy;
     Types.default_action := Types.default_action policy;
     Types.filters :=
       {| Types.requestPayload := keep (Types.requestPayload (Types.filters policy));
          Types.responsePayload := keep (Types.responsePayload (Types.filters policy)) |} |}.

(** A text made of decimal digits only. *)
Fixpoint all_digits (s : string) : bool :=
  match s with
  | EmptyString => true
  | String c s' => Js.is_digit c && all_digits s'
  end.

(** The loop of a repetition in the matcher [RegExp.m], by its name. *)
Definition repeat_loop (icase : bool) (a : RegExp.node) (k : RegExp.state -> option nat)
  : nat -> nat -> option nat -> RegExp.state -> option nat :=
  fix rep (fuel mn : nat) (mx : option nat) (st : RegExp.state) {struct fuel} : option nat :=
    match fuel with
    | O => None
    | S fuel' =>
        match mx with
        | Some O => k st
        | _ =>
            match RegExp.m icase a st
                    (fun st' =>
                       if Nat.eqb mn 0 && Nat.eqb (RegExp.pos st') (RegExp.pos st) then None
                       else rep fuel' (Nat.pred mn) (option_map Nat.pred mx) st')
            with
            | Some e => Some e
            | None => if Nat.eqb mn 0 then k st else None
            end
        end
    end.

(** An audit policy whose approval conditions list other endpoints. *)
Definition with_whitelistedEndpoints (policy : Types.AuditPolicy)
  (endpoints : option (list string)) : Types.AuditPolicy :=
  {| Types.resourceName := Types.resourceName policy;
     Types.remarks := Types.remarks policy;
     Types.markedBy := Types.markedBy policy;
     Types.approvalConditions :=
       option_map
         (fun c => {| Types.expiresAt := Types.expiresAt c;
                      Types.allowedIps := Types.allowedIps c;
                      Types.allowedIpRanges := Types.allowedIpRanges c;
                      Types.whitelistedEndpoints := endpoints |})
         (Types.approvalConditions policy) |}.

(* ================================================================== *)
(** * Properties *)
(* ================================================================== *)

(** ** Result shapes *)

Lemma well_formed_allow : well_formed Types.allow.
Proof. split; simpl; discriminate. Qed.

Lemma well_formed_redact payload : well_formed (Types.redact payload).
Proof. split; simpl; [discriminate | eauto]. Qed.

Lemma well_formed_block why meta :
  why <> EmptyString -> well_formed (Types.block why meta).
Proof. intros H. split; simpl; [eauto | discriminate]. Qed.

Lemma append_nonempty (c : ascii) (s t : string) : String c s +:+ t <> EmptyString.
Proof. simpl. discriminate. Qed.

(** A property of whatever a sequence of two computations returns. *)
Lemma returns_bind {A B} (P : B -> Prop) (m : Js.outcome A) (k : A -> Js.outcome B) :
  (forall a, m = Js.Ret a -> returns P (k a)) -> returns P (Js.bind m k).
Proof. intros H. destruct m as [a | e]; [apply H; reflexivity | exact I]. Qed.

Lemma returns_ret {A} (P : A -> Prop) (a : A) : P a -> returns P (Js.Ret a).
Proof. intros H. exact H. Qed.

Create HintDb results.
#[local] Hint Resolve well_formed_allow well_formed_redact well_formed_block : results.

Section Orchestrator.
Context `{RT : JsRuntime}.
Import Js Types Coerce.

Lemma safe_method_facts (m : string) :
  In m PolicyValidator.SAFE_MCP_METHODS ->
  PolicyValidator.isSafeMCPMethod (JStr m) = true
  /\ truthy_string m = true
  /\ String.eqb m "tools/call" = false
  /\ String.eqb m "prompts/get" = false
  /\ String.eqb m "resources/read" = false.
Proof.
  unfold PolicyValidator.SAFE_MCP_METHODS. simpl.
  intros H. repeat (destruct H as [<- | H]; [repeat split; reflexivity |]).
  destruct H.
Qed.

(** A safe method names no resource. *)
Lemma safe_method_no_resource (fields : list (string * json)) (m : string) :
  assoc "method" fields = Some (JStr m) ->
  In m PolicyValidator.SAFE_MCP_METHODS ->
  AuditValidator.extractResourceName (JObj fields) = Ret (JStr EmptyString).
Proof.
  intros Hm Hsafe.
  destruct (safe_method_facts m Hsafe) as (_ & Ht & H1 & H2 & H3).
  unfold AuditValidator.extractResourceName. simpl. rewrite Hm. simpl.
  rewrite Ht. simpl.
  destruct (truthy_opt (assoc "params" fields)); simpl; [| reflexivity].
  rewrite H1, H2, H3. reflexivity.
Qed.

Lemma safe_method_extracts_nothing (payload : string) (fields : list (string * json))
  (m : string) :
  JSON_parse payload = Some (JObj fields) ->
  assoc "method" fields = Some (JStr m) ->
  In m PolicyValidator.SAFE_MCP_METHODS ->
  PolicyValidator.extractUserControlledFields payload = EmptyString.
Proof.
  intros Hp Hm Hsafe.
  destruct (safe_method_facts m Hsafe) as (Hs & Ht & _).
  unfold PolicyValidator.extractUserControlledFields.
  destruct (truthy_string payload); simpl; [| reflexivity].
  unfold parse. rewrite Hp. simpl. rewrite Hm. simpl.
  rewrite Ht. simpl. simpl in Hs. rewrite Hs. reflexivity.
Qed.

(** C1. For every payload that parses to a JSON object whose [method] is
    one of the safe MCP methods, whatever its other fields, the policies
    and the audit policies of the context, and the scanner binding,
    [validateRequest] returns [{allowed: true, modified: false}] and
    neither starts a scan nor sends a request to the scanner. *)
Theorem safe_method_short_circuit
  (binding : ScannerClient.Fetcher) (now : Z) (payload : string)
  (valCtx : ValidationContext) (fields : list (string * json)) (m : string) :
  JSON_parse payload = Some (JObj fields) ->
  assoc "method" fields = Some (JStr m) ->
  In m PolicyValidator.SAFE_MCP_METHODS ->
  fst (PolicyValidator.validateRequest binding now payload valCtx) = Ret allow
  /\ filter PolicyValidator.is_scan
       (snd (PolicyValidator.validateRequest binding now payload valCtx)) = [].
Proof.
  intros Hp Hm Hsafe.
  unfold PolicyValidator.validateRequest.
  destruct (truthy_string payload); simpl; [| split; reflexivity].
  assert (Haudit : AuditValidator.validateRequest now payload valCtx = Ret None).
  { unfold AuditValidator.validateRequest. rewrite Hp.
    rewrite (safe_method_no_resource fields m Hm Hsafe). reflexivity. }
  assert (Hg : PolicyValidator.guardrails binding payload valCtx
               = (Ret allow, [PolicyValidator.Extracted EmptyString])).
  { unfold PolicyValidator.guardrails.
    rewrite (safe_method_extracts_nothing payload fields m Hp Hm Hsafe). reflexivity. }
  destruct (default false (hasAuditRules valCtx)
            && bool_decide (is_Some (auditPolicies valCtx)));
    rewrite ?Haudit, Hg; split; reflexivity.
Qed.

End Orchestrator.

Lemma safe_method_short_circuit_witness :
  let valCtx :=
    Scenario.context None [Scenario.rule "harmfulCategories" None (Some "block"%string)]
      [Scenario.audit "ping" "Rejected" None] in
  fst (PolicyValidator.validateRequest (RT := reference) Scenario.rejecting 0 Scenario.ping valCtx)
  = Js.Ret Types.allow
  /\ filter PolicyValidator.is_scan
       (snd (PolicyValidator.validateRequest (RT := reference) Scenario.rejecting 0
               Scenario.ping valCtx)) = [].
Proof.
  apply (safe_method_short_circuit (RT := reference)) with
    (fields := [("jsonrpc", JStr "2.0"); ("id", JNum 1%float); ("method", JStr "ping")]%string)
    (m := "ping"%string).
  - vm_compute. reflexivity.
  - reflexivity.
  - simpl. auto.
Defined.

(** ** The scanner client *)

Section Scanner.
Context `{RT : JsRuntime}.
Import Js Types.

Lemma oversized_call (binding : ScannerClient.Fetcher) (i : nat) (text : string)
  (scanner : ScannerInfo) :
  (ScannerClient.MAX_REQUEST_BODY_SIZE < Js.length text)%N ->
  ScannerClient.callSingleScanAPI binding i text scanner = (Throw PayloadTooLarge, []).
Proof.
  intros H. unfold ScannerClient.callSingleScanAPI.
  apply N.ltb_lt in H. rewrite H. reflexivity.
Qed.

Lemma oversized_settle (binding : ScannerClient.Fetcher) (text : string)
  (scanners : list ScannerInfo) (i : nat) :
  (ScannerClient.MAX_REQUEST_BODY_SIZE < Js.length text)%N ->
  ScannerClient.settle binding i text scanners
  = (map (fun _ => Throw PayloadTooLarge) scanners, []).
Proof.
  intros H. revert i. induction scanners as [| scanner rest IH]; intros i; simpl.
  - reflexivity.
  - rewrite (oversized_call binding i text scanner H), IH. reflexivity.
Qed.

Lemma tally_failures (e : js_error) (scanners : list ScannerInfo) (acc : ScanResponse) :
  ScannerClient.tally (map (fun _ => Throw e) scanners) acc
  = {| results := results acc; success_count := success_count acc;
       failure_count := failure_count acc + List.length scanners |}.
Proof.
  revert acc. induction scanners as [| scanner rest IH]; intros acc; simpl.
  - destruct acc; simpl. f_equal. lia.
  - rewrite IH. simpl. f_equal. lia.
Qed.

(** C8. A text longer than 1 MiB is refused before any request is made: for
    every non-empty scanner list, [scan] sends nothing, returns no result,
    and counts one failure per scanner; the orchestrator's scanning step
    therefore allows. *)
Theorem oversized_text_is_refused
  (binding : ScannerClient.Fetcher) (text : string) (scanners : list ScannerInfo) :
  (1048576 < Js.length text)%N ->
  scanners <> [] ->
  ScannerClient.scan binding text scanners
  = ({| results := []; success_count := 0; failure_count := List.length scanners |}, [])
  /\ forall (logged : bool) (tasks : list PolicyValidator.ScannerTask),
       fst (PolicyValidator.runScanners logged binding text tasks) = Ret allow.
Proof.
  intros Hlen Hne.
  assert (Hscan : forall l, ScannerClient.scan binding text l
                            = ({| results := []; success_count := 0;
                                  failure_count := List.length l |}, [])).
  { intros [| s l]; [reflexivity |].
    unfold ScannerClient.scan. rewrite (oversized_settle binding text (s :: l) 0 Hlen).
    rewrite tally_failures. reflexivity. }
  split; [apply Hscan |].
  intros logged [| t tasks]; [reflexivity |].
  unfold PolicyValidator.runScanners. rewrite Hscan. reflexivity.
Qed.

End Scanner.

Lemma oversized_text_is_refused_witness :
  let scanner := {| Types.scanner_type := "prompt"; Types.scanner_name := "Toxicity";
                    Types.scanner_config := JObj [] |} in
  (1048576 < Js.length Scenario.oversized)%N
  /\ ScannerClient.scan (RT := reference) Scenario.rejecting Scenario.oversized [scanner]
     = ({| Types.results := []; Types.success_count := 0; Types.failure_count := 1 |}, []).
Proof.
  split.
  - vm_compute. reflexivity.
  - apply (oversized_text_is_refused (RT := reference)).
    + vm_compute. reflexivity.
    + discriminate.
Defined.

(** ** Every validator returns a well-formed result *)

Section ResultShapes.
Context `{RT : JsRuntime}.
Import Js Types.

Lemma pii_result_well_formed (patterns : gmap string RegExp.regexp) (text : string)
  (rule : FilterRule) (policy : Policy) :
  well_formed (fst (PIIValidator.validate patterns text rule policy)).
Proof.
  unfold PIIValidator.validate.
  destruct (negb (truthy_ostring (pattern rule))); simpl; auto with results.
  destruct (PIIValidator.getPIIRegex patterns (or_string (pattern rule) EmptyString));
    simpl; auto with results.
  destruct (RegExp.test _ text) as [matched afterTest].
  destruct matched; simpl; auto with results.
  destruct (String.eqb (or_string (action rule) "block") "block"); simpl.
  - apply well_formed_block, append_nonempty.
  - destruct (String.eqb (or_string (action rule) "block") "redact"); simpl;
      auto with results.
    destruct (RegExp.replace afterTest text _) as [redactedText afterReplace]; simpl.
    auto with results.
Qed.

Lemma regex_result_well_formed (text : string) (rule : FilterRule) (policy : Policy) :
  well_formed (RegexValidator.validate text rule policy).
Proof.
  unfold RegexValidator.validate.
  destruct (negb (truthy_ostring (pattern rule))); auto with results.
  destruct (RegexValidator.compile _); auto with results.
  destruct (RegExp.test _ text) as [matched regex1].
  destruct matched; auto with results.
  destruct (String.eqb (or_string (action rule) "block") "block").
  - apply well_formed_block, append_nonempty.
  - destruct (String.eqb (or_string (action rule) "block") "redact"); auto with results.
Qed.

Lemma rate_limit_result_well_formed (kv : gmap string RateLimitValidator.entry)
  (now later : Z) (payload : string) (valCtx : ValidationContext)
  (cfg : option RateLimitConfig) :
  returns (when_some well_formed)
    (fst (RateLimitValidator.validateRequest kv now later payload valCtx cfg)).
Proof.
  unfold RateLimitValidator.validateRequest.
  destruct cfg as [cfg |]; simpl; [| exact I].
  destruct (negb (enabled cfg)); simpl; [exact I |].
  destruct (JSON_parse payload) as [requestData |]; simpl; [| exact I].
  destruct (RateLimitValidator.extractToolName requestData) as [[tool |] | e]; simpl;
    try exact I.
  destruct (Coerce.joinValues _ _) as [identifier | e]; simpl; [| exact I].
  destruct (RateLimitValidator.checkRateLimit _ _ _ _ _) as [result kv'].
  unfold RateLimitValidator.blocked, RateLimitValidator.passed.
  destruct (negb (RateLimitValidator.check_allowed result)); simpl;
    destruct (Coerce.ToString tool) as [name | e]; simpl; try exact I.
  - apply well_formed_block, append_nonempty.
  - split; simpl; discriminate.
Qed.

Lemma conditional_approval_well_formed (now : Z) (policy : AuditPolicy)
  (valCtx : ValidationContext) :
  well_formed (AuditValidator.validateConditionalApproval now policy valCtx).
Proof.
  unfold AuditValidator.validateConditionalApproval, AuditValidator.audit_block.
  destruct (approvalConditions policy) as [conditions |].
  - repeat match goal with
           | |- context [if ?b then _ else _] => destruct b
           end;
      first [ apply well_formed_block; discriminate | apply well_formed_allow ].
  - apply well_formed_block; discriminate.
Qed.

Lemma audit_policy_well_formed (now : Z) (policy : AuditPolicy) (valCtx : ValidationContext)
  (resourcePath : json) :
  returns well_formed (AuditValidator.validateWithPolicy now policy valCtx resourcePath).
Proof.
  unfold AuditValidator.validateWithPolicy, AuditValidator.audit_block.
  repeat match goal with
         | |- context [if String.eqb ?a ?b then _ else _] => destruct (String.eqb a b)
         end;
    apply returns_bind; intros _ _;
    first [ apply conditional_approval_well_formed
          | apply well_formed_block; discriminate
          | apply well_formed_allow ].
Qed.

Lemma server_block_well_formed (now : Z) (valCtx : ValidationContext) (resourceName : json) :
  returns (when_some well_formed) (AuditValidator.serverBlock now valCtx resourceName).
Proof.
  unfold AuditValidator.serverBlock.
  destruct (truthy_ostring (mcpServerName valCtx)); [| exact I].
  destruct (AuditValidator.lookupPolicy valCtx _) as [serverPolicy |]; [| exact I].
  pose proof (audit_policy_well_formed now serverPolicy valCtx resourceName) as H.
  destruct (AuditValidator.validateWithPolicy now serverPolicy valCtx resourceName)
    as [result | e]; [| exact I].
  simpl. destruct (negb (allowed result)); [exact H | exact I].
Qed.

Lemma audit_result_well_formed (now : Z) (payload : string) (valCtx : ValidationContext) :
  returns (when_some well_formed) (AuditValidator.validateRequest now payload valCtx).
Proof.
  unfold AuditValidator.validateRequest.
  destruct (JSON_parse payload) as [requestData |]; simpl; [| exact I].
  apply returns_bind. intros resourceName _.
  destruct (negb (truthy resourceName)); simpl; [exact I |].
  pose proof (server_block_well_formed now valCtx resourceName) as Hserver.
  destruct (AuditValidator.serverBlock now valCtx resourceName) as [[result |] | e];
    simpl in *; try exact I; [exact Hserver |].
  apply returns_bind. intros [policy |] _; [| exact I].
  apply returns_bind. intros result Hresult.
  pose proof (audit_policy_well_formed now policy valCtx resourceName) as H.
  rewrite Hresult in H. exact H.
Qed.

Lemma scanner_block_well_formed (tasks : list PolicyValidator.ScannerTask) (result : json) :
  returns well_formed (PolicyValidator.scannerBlock tasks result).
Proof.
  unfold PolicyValidator.scannerBlock.
  apply returns_bind. intros nameText _. apply returns_bind. intros riskText _.
  apply well_formed_block, append_nonempty.
Qed.

Lemma checked_results_well_formed (logged : bool) (tasks : list PolicyValidator.ScannerTask)
  (scanResults : list json) :
  returns well_formed (PolicyValidator.checkResults logged tasks scanResults).
Proof.
  induction scanResults as [| result rest IH]; [apply well_formed_allow |].
  cbn [PolicyValidator.checkResults].
  apply returns_bind. intros _ _.
  destruct (negb (ScannerClient.is_valid result));
    [apply scanner_block_well_formed | exact IH].
Qed.

Lemma scanning_step_well_formed (logged : bool) (binding : ScannerClient.Fetcher)
  (text : string) (tasks : list PolicyValidator.ScannerTask) :
  returns well_formed (fst (PolicyValidator.runScanners logged binding text tasks)).
Proof.
  unfold PolicyValidator.runScanners.
  destruct tasks as [| t tasks]; [apply well_formed_allow |].
  cbv beta iota.
  destruct (ScannerClient.scan binding text (map PolicyValidator.info (t :: tasks)))
    as [scanResponse sent].
  apply checked_results_well_formed.
Qed.

Lemma guardrails_well_formed (binding : ScannerClient.Fetcher) (payload : string)
  (valCtx : ValidationContext) :
  returns well_formed (fst (PolicyValidator.guardrails binding payload valCtx)).
Proof.
  unfold PolicyValidator.guardrails.
  destruct (negb (truthy_string _)); [apply well_formed_allow |].
  pose proof (scanning_step_well_formed true binding
                (PolicyValidator.extractUserControlledFields payload)
                (PolicyValidator.collectTasks "prompt" requestPayload
                   (default [] (policies valCtx)))) as H.
  destruct (PolicyValidator.runScanners _ _ _ _) as [r trace]. exact H.
Qed.

Lemma request_result_well_formed (binding : ScannerClient.Fetcher) (now : Z)
  (payload : string) (valCtx : ValidationContext) :
  returns well_formed (fst (PolicyValidator.validateRequest binding now payload valCtx)).
Proof.
  unfold PolicyValidator.validateRequest.
  destruct (negb (truthy_string payload)); [apply well_formed_allow |].
  pose proof (guardrails_well_formed binding payload valCtx) as Hg.
  pose proof (audit_result_well_formed now payload valCtx) as Ha.
  destruct (default false (hasAuditRules valCtx) && bool_decide (is_Some (auditPolicies valCtx)));
    [| exact Hg].
  destruct (AuditValidator.validateRequest now payload valCtx) as [[auditResult |] | e];
    simpl in *; auto.
  destruct (negb (allowed auditResult)); simpl; auto.
Qed.

(** C2. Every result returned by a validator -- the orchestrator's
    [validateRequest] and [validateResponse], the PII validator, the regex
    validator, the rate-limit validator and the audit validator -- carries a
    non-empty reason when it blocks and, when it is modified, carries the
    modified payload and allows. *)
Theorem validators_return_well_formed_results :
  (forall binding now payload valCtx,
      returns well_formed (fst (PolicyValidator.validateRequest binding now payload valCtx)))
  /\ (forall binding payload valCtx,
         returns well_formed (fst (PolicyValidator.validateResponse binding payload valCtx)))
  /\ (forall patterns text rule policy,
         well_formed (fst (PIIValidator.validate patterns text rule policy)))
  /\ (forall text rule policy, well_formed (RegexValidator.validate text rule policy))
  /\ (forall kv now later payload valCtx cfg,
         returns (when_some well_formed)
           (fst (RateLimitValidator.validateRequest kv now later payload valCtx cfg)))
  /\ (forall now payload valCtx,
         returns (when_some well_formed) (AuditValidator.validateRequest now payload valCtx)).
Proof.
  refine (conj _ (conj _ (conj _ (conj _ (conj _ _))))).
  - apply request_result_well_formed.
  - intros binding payload valCtx. unfold PolicyValidator.validateResponse.
    destruct (negb (truthy_string payload)); [apply well_formed_allow |].
    apply scanning_step_well_formed.
  - apply pii_result_well_formed.
  - apply regex_result_well_formed.
  - apply rate_limit_result_well_formed.
  - apply audit_result_well_formed.
Qed.

End ResultShapes.

Lemma validators_return_well_formed_results_witness :
  let valCtx :=
    Scenario.context None [Scenario.rule "promptAttacks" None (Some "block"%string)] [] in
  well_formed
    (fst (PIIValidator.validate PIIValidator.PII_PATTERNS "a@b.co"
            (Scenario.rule "pii" (Some "email"%string) (Some "block"%string))
            (Scenario.policy [])))
  /\ returns well_formed
       (fst (PolicyValidator.validateRequest (RT := reference) Scenario.rejecting 0
               (Scenario.call "read_file") valCtx)).
Proof.
  destruct (validators_return_well_formed_results (RT := reference))
    as (Hrequest & _ & Hpii & _).
  split; [apply Hpii | apply Hrequest].
Defined.

(** ** The audit-policy map *)

Section AuditMap.
Import Js Types.

Lemma toMap_lookup_other (entries : list (option AuditPolicy))
  (acc : gmap string AuditPolicy) (key : string) :
  (forall p, In (Some p) entries -> resourceName p <> key) ->
  PolicyManager.toMap entries acc !! key = acc !! key.
Proof.
  revert acc. induction entries as [| [p |] rest IH]; intros acc Hne; simpl.
  - reflexivity.
  - destruct (truthy_string (resourceName p)).
    + rewrite IH by (intros p' Hin; apply Hne; right; exact Hin).
      apply lookup_insert_ne. apply Hne. left. reflexivity.
    + apply IH. intros p' Hin. apply Hne. right. exact Hin.
  - apply IH. intros p' Hin. apply Hne. right. exact Hin.
Qed.

Lemma toMap_app (before after : list (option AuditPolicy)) (acc : gmap string AuditPolicy) :
  PolicyManager.toMap (before ++ after) acc
  = PolicyManager.toMap after (PolicyManager.toMap before acc).
Proof.
  revert acc. induction before as [| [p |] rest IH]; intros acc; simpl; auto.
  destruct (truthy_string (resourceName p)); apply IH.
Qed.

(** C4, as amended.  The map is keyed by the resource name as the backend
    sent it: an entry with a non-empty [resourceName] that no later entry
    of the list repeats is found under exactly that name. *)
Theorem audit_map_is_keyed_by_resource_name
  (before after : list (option AuditPolicy)) (policy : AuditPolicy) :
  resourceName policy <> EmptyString ->
  (forall later, In (Some later) after -> resourceName later <> resourceName policy) ->
  PolicyManager.fetchMcpAuditInfo
    (PolicyManager.AuditResponse true
       (PolicyManager.AuditBody (Some (before ++ Some policy :: after))))
  !! resourceName policy = Some policy.
Proof.
  intros Hname Hlast. simpl. rewrite toMap_app. simpl.
  destruct (resourceName policy) as [| c s] eqn:E; [contradiction |]. simpl.
  rewrite toMap_lookup_other by exact Hlast.
  apply lookup_insert_eq.
Qed.

End AuditMap.

Lemma audit_map_is_keyed_by_resource_name_witness :
  let first := Scenario.audit "Delete_All" "Approved" None in
  let second := Scenario.audit "Delete_All" "Rejected" None in
  let third := Scenario.audit "read_file" "Rejected" None in
  PolicyManager.fetchMcpAuditInfo
    (PolicyManager.AuditResponse true
       (PolicyManager.AuditBody (Some [Some first; Some second; Some third])))
  !! "Delete_All"%string = Some second.
Proof.
  apply (audit_map_is_keyed_by_resource_name
           [Some (Scenario.audit "Delete_All" "Approved" None)]
           [Some (Scenario.audit "read_file" "Rejected" None)]
           (Scenario.audit "Delete_All" "Rejected" None)).
  - discriminate.
  - intros later [H | []]. injection H as <-. discriminate.
Defined.

(** C4, as the specification states it, fails: an entry whose name has an
    upper-case letter is not found under the lower-cased name. *)
Lemma audit_map_lowercase_counterexample :
  ~ (forall (entries : list (option Types.AuditPolicy)) (policy : Types.AuditPolicy),
        In (Some policy) entries ->
        Types.resourceName policy <> EmptyString ->
        PolicyManager.fetchMcpAuditInfo
          (PolicyManager.AuditResponse true (PolicyManager.AuditBody (Some entries)))
        !! Js.toLowerCase (Types.resourceName policy) = Some policy).
Proof.
  intros claim.
  specialize (claim [Some (Scenario.audit "Delete_All" "Rejected" None)]
                (Scenario.audit "Delete_All" "Rejected" None)).
  assert (H : PolicyManager.fetchMcpAuditInfo
                (PolicyManager.AuditResponse true
                   (PolicyManager.AuditBody
                      (Some [Some (Scenario.audit "Delete_All" "Rejected" None)])))
              !! Js.toLowerCase (Types.resourceName (Scenario.audit "Delete_All" "Rejected" None))
              = None) by (vm_compute; reflexivity).
  rewrite claim in H; [discriminate | left; reflexivity | discriminate].
Qed.

(** ** The windowed counter of the rate limiter *)

Section RateLimit.
Context `{RT : JsRuntime}.
Import Types.
Import RateLimitValidator.
Local Open Scope Z_scope.

(** [ceil_div a b] is the least integer [c] with [a <= b * c]. *)
Lemma ceil_div_spec (a b : Z) :
  0 < b -> b * (Js.ceil_div a b - 1) < a <= b * Js.ceil_div a b.
Proof.
  intros Hb. unfold Js.ceil_div.
  pose proof (Z.div_mod (- a) b ltac:(lia)) as Hdm.
  pose proof (Z.mod_pos_bound (- a) b Hb) as Hmod.
  nia.
Qed.

Lemma check_absent (kv : gmap string entry) (now : Z) (key : string)
  (limit windowSeconds : Z) :
  kv !! key = None ->
  checkRateLimit kv now key limit windowSeconds
  = ({| check_allowed := true; currentCount := 1;
        check_resetAt := now + windowSeconds * 1000 |},
     <[key := {| value := {| count := 1; resetAt := now + windowSeconds * 1000 |};
                 expirationTtl := windowSeconds |}]> kv).
Proof. intros H. unfold checkRateLimit. rewrite H. reflexivity. Qed.

Lemma check_expired (kv : gmap string entry) (now : Z) (key : string)
  (limit windowSeconds : Z) (e : entry) :
  kv !! key = Some e -> now > resetAt (value e) ->
  checkRateLimit kv now key limit windowSeconds
  = ({| check_allowed := true; currentCount := 1;
        check_resetAt := now + windowSeconds * 1000 |},
     <[key := {| value := {| count := 1; resetAt := now + windowSeconds * 1000 |};
                 expirationTtl := windowSeconds |}]> kv).
Proof.
  intros H Hnow. unfold checkRateLimit. rewrite H. simpl.
  destruct (Z.gtb_spec now (resetAt (value e))); [reflexivity | lia].
Qed.

Lemma check_exhausted (kv : gmap string entry) (now : Z) (key : string)
  (limit windowSeconds : Z) (e : entry) :
  kv !! key = Some e -> now <= resetAt (value e) -> count (value e) >= limit ->
  checkRateLimit kv now key limit windowSeconds
  = ({| check_allowed := false; currentCount := count (value e);
        check_resetAt := resetAt (value e) |}, kv).
Proof.
  intros H Hnow Hcount. unfold checkRateLimit. rewrite H. simpl.
  destruct (Z.gtb_spec now (resetAt (value e))); [lia |].
  destruct (Z.geb_spec (count (value e)) limit); [reflexivity | lia].
Qed.

Lemma check_counted (kv : gmap string entry) (now : Z) (key : string)
  (limit windowSeconds : Z) (e : entry) :
  kv !! key = Some e -> now <= resetAt (value e) -> count (value e) < limit ->
  checkRateLimit kv now key limit windowSeconds
  = ({| check_allowed := true; currentCount := count (value e) + 1;
        check_resetAt := resetAt (value e) |},
     <[key := {| value := {| count := count (value e) + 1; resetAt := resetAt (value e) |};
                 expirationTtl := Js.ceil_div (resetAt (value e) - now) 1000 |}]> kv).
Proof.
  intros H Hnow Hcount. unfold checkRateLimit. rewrite H. simpl.
  destruct (Z.gtb_spec now (resetAt (value e))); [lia |].
  destruct (Z.geb_spec (count (value e)) limit); [lia | reflexivity].
Qed.

(** C5. [checkRateLimit] follows the windowed counter protocol on every
    state of the key-value store: a missing or expired cell is replaced by
    [{count: 1, resetAt: now + windowSeconds * 1000}] with TTL
    [windowSeconds] and the call is allowed with count 1; a live cell whose
    count has reached the limit blocks and is left alone; any other live
    cell is rewritten with its count incremented, its [resetAt] kept and
    TTL [ceil((resetAt - now) / 1000)], and the call is allowed.  When the
    check blocks, the validator leaves the store alone and answers with a
    result that is not allowed, whose reason names the tool and the seconds
    until the reset, and whose metadata holds the policy id
    [RateLimitPolicy], the tool name, the current count, the limit, the
    reset time and the seconds until it.  The reason prints the tool name:
    for a name that has no string conversion there is no result, the call
    throws the error of the conversion. *)
Theorem rate_limit_follows_the_windowed_counter
  (kv : gmap string entry) (now : Z) (key : string) (limit windowSeconds : Z) :
  ((kv !! key = None \/ exists e, kv !! key = Some e /\ now > resetAt (value e)) ->
   checkRateLimit kv now key limit windowSeconds
   = ({| check_allowed := true; currentCount := 1;
         check_resetAt := now + windowSeconds * 1000 |},
      <[key := {| value := {| count := 1; resetAt := now + windowSeconds * 1000 |};
                  expirationTtl := windowSeconds |}]> kv))
  /\ (forall e, kv !! key = Some e -> now <= resetAt (value e) -> count (value e) >= limit ->
        checkRateLimit kv now key limit windowSeconds
        = ({| check_allowed := false; currentCount := count (value e);
              check_resetAt := resetAt (value e) |}, kv))
  /\ (forall e, kv !! key = Some e -> now <= resetAt (value e) -> count (value e) < limit ->
        checkRateLimit kv now key limit windowSeconds
        = ({| check_allowed := true; currentCount := count (value e) + 1;
              check_resetAt := resetAt (value e) |},
           <[key := {| value := {| count := count (value e) + 1;
                                   resetAt := resetAt (value e) |};
                       expirationTtl := Js.ceil_div (resetAt (value e) - now) 1000 |}]> kv))
  /\ (forall later payload valCtx cfg requestData tool identifier e,
        enabled cfg = true ->
        JSON_parse payload = Some requestData ->
        extractToolName requestData = Js.Ret (Some tool) ->
        Coerce.joinValues ":" (map (identifierPart valCtx tool) (identifierTypes cfg))
        = Js.Ret identifier ->
        kv !! getRateLimitKey identifier = Some e ->
        now <= resetAt (value e) ->
        count (value e) >= Types.limit cfg ->
        (forall name,
            Coerce.ToString tool = Js.Ret name ->
            exists r,
              validateRequest kv now later payload valCtx (Some cfg) = (Js.Ret (Some r), kv)
              /\ allowed r = false
              /\ reason r
                 = Some ("Rate limit exceeded for tool '" +:+ name
                         +:+ "'. Try again in "
                         +:+ Js.Z_toString (Js.ceil_div (resetAt (value e) - later) 1000)
                         +:+ " seconds.")
              /\ metadata r
                 = Some [("policy_id", MStr "RateLimitPolicy");
                         ("tool_name", MJson (Some tool));
                         ("current_count", MInt (count (value e)));
                         ("limit", MInt (Types.limit cfg));
                         ("reset_at", MInt (resetAt (value e)));
                         ("reset_in_seconds",
                          MInt (Js.ceil_div (resetAt (value e) - later) 1000))]%string)
        /\ (forall err,
               Coerce.ToString tool = Js.Throw err ->
               validateRequest kv now later payload valCtx (Some cfg) = (Js.Throw err, kv))).
Proof.
  refine (conj _ (conj _ (conj _ _))).
  - intros [H | (e & H & Hnow)].
    + apply check_absent. exact H.
    + apply check_expired with e; assumption.
  - intros e. apply check_exhausted.
  - intros e. apply check_counted.
  - intros later payload valCtx cfg requestData tool identifier e
      Hon Hp Htool Hjoin Hkv Hnow Hcount.
    assert (Hrun : validateRequest kv now later payload valCtx (Some cfg)
                   = (Js.bind (blocked tool (Types.limit cfg)
                                 {| check_allowed := false; currentCount := count (value e);
                                    check_resetAt := resetAt (value e) |} later)
                        (fun r => Js.Ret (Some r)), kv)).
    { unfold validateRequest. rewrite Hon, Hp. cbn [negb]. rewrite Htool, Hjoin.
      rewrite (check_exhausted kv now _ (Types.limit cfg) (Types.windowSeconds cfg) e
                 Hkv Hnow Hcount).
      reflexivity. }
    rewrite Hrun. unfold blocked. split.
    + intros name Hname. rewrite Hname. eexists. repeat split.
    + intros err Herr. rewrite Herr. reflexivity.
Qed.

End RateLimit.

Lemma rate_limit_follows_the_windowed_counter_witness :
  let key := "ratelimit:10.0.0.5:read_file"%string in
  let cell n := {| RateLimitValidator.value :=
                     {| RateLimitValidator.count := n; RateLimitValidator.resetAt := 61000 |};
                   RateLimitValidator.expirationTtl := 60 |} in
  let cfg := {| Types.enabled := true; Types.limit := 2; Types.windowSeconds := 60;
                Types.identifierTypes := [Types.IP; Types.TOOL] |} in
  RateLimitValidator.checkRateLimit ∅ 1000 key 2 60
  = ({| RateLimitValidator.check_allowed := true; RateLimitValidator.currentCount := 1;
        RateLimitValidator.check_resetAt := 61000 |}, {[ key := cell 1%Z ]})
  /\ RateLimitValidator.checkRateLimit {[ key := cell 1%Z ]} 2500 key 2 60
     = ({| RateLimitValidator.check_allowed := true; RateLimitValidator.currentCount := 2;
           RateLimitValidator.check_resetAt := 61000 |},
        <[ key := {| RateLimitValidator.value :=
                       {| RateLimitValidator.count := 2; RateLimitValidator.resetAt := 61000 |};
                     RateLimitValidator.expirationTtl := 59 |} ]> {[ key := cell 1%Z ]})
  /\ RateLimitValidator.checkRateLimit {[ key := cell 2%Z ]} 3000 key 2 60
     = ({| RateLimitValidator.check_allowed := false; RateLimitValidator.currentCount := 2;
           RateLimitValidator.check_resetAt := 61000 |}, {[ key := cell 2%Z ]})
  /\ exists r,
       RateLimitValidator.validateRequest (RT := reference) {[ key := cell 2%Z ]} 3000 3500
         (Scenario.call "read_file") (Scenario.context None [] []) (Some cfg)
       = (Js.Ret (Some r), {[ key := cell 2%Z ]})
       /\ Types.reason r
          = Some "Rate limit exceeded for tool 'read_file'. Try again in 58 seconds."%string
       /\ Types.metadata_of r "reset_in_seconds" = Some (Types.MInt 58).
Proof.
  intros key cell cfg.
  pose proof (rate_limit_follows_the_windowed_counter (RT := reference)
                ∅ 1000 key 2 60) as (Hfresh & _).
  pose proof (rate_limit_follows_the_windowed_counter (RT := reference)
                {[ key := cell 1%Z ]} 2500 key 2 60) as (_ & _ & Hcount & _).
  pose proof (rate_limit_follows_the_windowed_counter (RT := reference)
                {[ key := cell 2%Z ]} 3000 key 2 60) as (_ & Hfull & _ & Hblock).
  refine (conj _ (conj _ (conj _ _))).
  - rewrite Hfresh; [reflexivity | left; reflexivity].
  - apply (Hcount (cell 1%Z)); [reflexivity | simpl; lia | simpl; lia].
  - apply (Hfull (cell 2%Z)); [reflexivity | simpl; lia | simpl; lia].
  - destruct (Hblock 3500%Z (Scenario.call "read_file") (Scenario.context None [] []) cfg
                (JObj [("method", JStr "tools/call");
                       ("params", JObj [("name", JStr "read_file")])]%string)
                (JStr "read_file") "10.0.0.5:read_file"%string (cell 2%Z))
      as (Hreturns & _).
    + reflexivity.
    + vm_compute. reflexivity.
    + reflexivity.
    + reflexivity.
    + reflexivity.
    + simpl; lia.
    + simpl; lia.
    + destruct (Hreturns "read_file"%string eq_refl) as (r & Hr & _ & Hreason & Hmeta).
      exists r. split; [exact Hr |]. split.
      * rewrite Hreason. reflexivity.
      * unfold Types.metadata_of. rewrite Hmeta. reflexivity.
Defined.

(** ** Audit rejections *)

Section AuditRejection.
Context `{RT : JsRuntime}.
Import Types.
Import AuditValidator.

(** [validateWithPolicy] prints the resource path, then answers with the
    decision on the remarks. *)
Lemma validateWithPolicy_prints (now : Z) (policy : AuditPolicy) (valCtx : ValidationContext)
  (resourcePath : json) :
  validateWithPolicy now policy valCtx resourcePath
  = Js.bind (Coerce.ToString resourcePath) (fun _ => Js.Ret (policyVerdict now policy valCtx)).
Proof.
  unfold validateWithPolicy, policyVerdict.
  destruct (String.eqb _ "approved") eqn:Happroved.
  - apply String.eqb_eq in Happroved. rewrite Happroved. reflexivity.
  - destruct (String.eqb _ "rejected"); [reflexivity |].
    destruct (String.eqb _ "conditionally approved"); reflexivity.
Qed.

Lemma rejected_policy_blocks (now : Z) (policy : AuditPolicy) (valCtx : ValidationContext) :
  is_rejected policy -> policyVerdict now policy valCtx = rejected.
Proof.
  unfold is_rejected, policyVerdict. intros ->. reflexivity.
Qed.

(** Whatever an audit policy blocks with, it is tagged [AuditPolicy]. *)
Lemma audit_block_is_tagged (now : Z) (policy : AuditPolicy) (valCtx : ValidationContext) :
  allowed (policyVerdict now policy valCtx) = false ->
  metadata_of (policyVerdict now policy valCtx) "policy_id"
  = Some (MStr AUDIT_POLICY_CATEGORY).
Proof.
  unfold policyVerdict, validateConditionalApproval.
  repeat match goal with
         | |- context [if ?b then _ else _] => destruct b
         | |- context [match ?o with Some _ => _ | None => _ end] => destruct o
         end; simpl; intros H; first [discriminate H | reflexivity].
Qed.

(** The server-level step, for a resource name that can be printed. *)
Lemma serverBlock_printed (now : Z) (valCtx : ValidationContext) (name : json) (key : string) :
  Coerce.ToString name = Js.Ret key ->
  serverBlock now valCtx name
  = Js.Ret (if Types.truthy_ostring (mcpServerName valCtx) then
              match lookupPolicy valCtx
                      (Js.toLowerCase (or_string (mcpServerName valCtx) EmptyString)) with
              | Some serverPolicy =>
                  if negb (allowed (policyVerdict now serverPolicy valCtx))
                  then Some (policyVerdict now serverPolicy valCtx) else None
              | None => None
              end
            else None).
Proof.
  intros Hkey. unfold serverBlock.
  destruct (truthy_ostring (mcpServerName valCtx)); [| reflexivity].
  destruct (lookupPolicy valCtx _) as [serverPolicy |]; [| reflexivity].
  rewrite validateWithPolicy_prints, Hkey. reflexivity.
Qed.

Lemma server_block_is_tagged (now : Z) (valCtx : ValidationContext) (name : json)
  (r : ValidationResult) :
  serverBlock now valCtx name = Js.Ret (Some r) ->
  allowed r = false /\ metadata_of r "policy_id" = Some (MStr AUDIT_POLICY_CATEGORY).
Proof.
  unfold serverBlock.
  destruct (truthy_ostring (mcpServerName valCtx)); [| discriminate].
  destruct (lookupPolicy valCtx _) as [serverPolicy |]; [| discriminate].
  rewrite validateWithPolicy_prints.
  destruct (Coerce.ToString name) as [key | e]; [| discriminate]. cbn [Js.bind].
  destruct (allowed (policyVerdict now serverPolicy valCtx)) eqn:E; cbn [negb];
    [discriminate |].
  intros [= <-]. split; [exact E | apply audit_block_is_tagged; exact E].
Qed.

Lemma parsed_payload_is_truthy (payload : string) (requestData : json) :
  JSON_parse payload = Some requestData -> Js.truthy_string payload = true.
Proof.
  destruct payload; [| reflexivity].
  rewrite JSON_parse_empty. discriminate.
Qed.

(** C6, as amended.  When the resource a request names has an audit policy
    whose remarks read [rejected], the audit validator blocks with policy
    id [AuditPolicy]; the block is the rejection itself, with reason
    [Resource access has been rejected by Audit Policy], unless the
    server-level policy blocks first, and then it is that policy's block.
    With audit rules switched on, the orchestrator returns the audit
    validator's block at once: it neither runs the extractor nor starts a
    scan.  The policy of a resource is the entry of the map under the name
    the request gives, converted to a string when it is another value. *)
Theorem audit_rejection_blocks_first
  (now : Z) (payload : string) (valCtx : ValidationContext)
  (requestData name : json) (key : string) (policy : AuditPolicy) :
  JSON_parse payload = Some requestData ->
  extractResourceName requestData = Js.Ret name ->
  truthy name = true ->
  Coerce.ToString name = Js.Ret key ->
  lookupPolicy valCtx key = Some policy ->
  is_rejected policy ->
  exists r blocking,
    validateRequest now payload valCtx = Js.Ret (Some r)
    /\ allowed r = false
    /\ metadata_of r "policy_id" = Some (MStr "AuditPolicy")
    /\ serverBlock now valCtx name = Js.Ret blocking
    /\ match blocking with
       | Some serverResult => r = serverResult
       | None => r = rejected
       end
    /\ (hasAuditRules valCtx = Some true ->
        forall binding,
          PolicyValidator.validateRequest binding now payload valCtx = (Js.Ret r, [])).
Proof.
  intros Hp Hname Htruthy Hkey Hpolicy Hrej.
  pose proof (serverBlock_printed now valCtx name key Hkey) as Hserver.
  set (blocking := if truthy_ostring (mcpServerName valCtx) then _ else None) in Hserver.
  assert (Hmap : is_Some (auditPolicies valCtx)).
  { unfold lookupPolicy in Hpolicy. destruct (auditPolicies valCtx); [eauto | discriminate]. }
  assert (Haudit : validateRequest now payload valCtx
                   = Js.Ret (Some (default rejected blocking))).
  { unfold validateRequest. rewrite Hp, Hname. cbn [Js.bind]. rewrite Htruthy. cbn [negb].
    rewrite Hserver. cbn [Js.bind].
    destruct blocking as [serverResult |]; [reflexivity |].
    unfold lookupResource. unfold lookupPolicy in Hpolicy.
    destruct (auditPolicies valCtx) as [m |]; [| discriminate].
    rewrite Hkey. cbn [Js.bind]. rewrite Hpolicy.
    rewrite validateWithPolicy_prints, Hkey. cbn [Js.bind].
    rewrite (rejected_policy_blocks now policy valCtx Hrej). reflexivity. }
  assert (Hblocked : allowed (default rejected blocking) = false
                     /\ metadata_of (default rejected blocking) "policy_id"
                        = Some (MStr "AuditPolicy")).
  { destruct blocking as [serverResult |] eqn:E; cbn [default from_option].
    - exact (server_block_is_tagged now valCtx name serverResult Hserver).
    - split; reflexivity. }
  exists (default rejected blocking), blocking.
  destruct Hblocked as [Hno Htag].
  refine (conj Haudit (conj Hno (conj Htag (conj Hserver (conj _ _))))).
  - destruct blocking; reflexivity.
  - intros Hrules binding. unfold PolicyValidator.validateRequest.
    rewrite (parsed_payload_is_truthy payload requestData Hp). cbn [negb].
    rewrite Hrules. cbn [default from_option Datatypes.id andb].
    rewrite (bool_decide_eq_true_2 _ Hmap), Haudit, Hno. reflexivity.
Qed.

End AuditRejection.

Lemma audit_rejection_blocks_first_witness :
  let valCtx := Scenario.context None [Scenario.rule "promptAttacks" None (Some "block"%string)]
                  [Scenario.audit "delete_all" " Rejected " None] in
  exists r,
    AuditValidator.validateRequest (RT := reference) 0 (Scenario.call "delete_all") valCtx
    = Js.Ret (Some r)
    /\ r = Types.block "Resource access has been rejected by Audit Policy"
             [("policy_id", Types.MStr "AuditPolicy")]%string
    /\ PolicyValidator.validateRequest (RT := reference) Scenario.rejecting 0
         (Scenario.call "delete_all") valCtx = (Js.Ret r, []).
Proof.
  intros valCtx.
  destruct (audit_rejection_blocks_first (RT := reference) 0 (Scenario.call "delete_all") valCtx
              (JObj [("method", JStr "tools/call");
                     ("params", JObj [("name", JStr "delete_all")])]%string)
              (JStr "delete_all") "delete_all"
              (Scenario.audit "delete_all" " Rejected " None))
    as (r & blocking & Ha & _ & _ & Hserver & Hr & Ho).
  - vm_compute. reflexivity.
  - reflexivity.
  - reflexivity.
  - reflexivity.
  - vm_compute. reflexivity.
  - reflexivity.
  - exists r. split; [exact Ha |]. split.
    + assert (Hnone : blocking = None) by (vm_compute in Hserver; congruence).
      rewrite Hnone in Hr. exact Hr.
    + apply Ho. reflexivity.
Defined.

(** C6, as the specification states it, fails: with a server-level policy
    that is conditionally approved without conditions, the request for a
    rejected tool is blocked with that policy's reason. *)
Lemma audit_rejection_reason_counterexample :
  ~ (forall (RT : JsRuntime) (now : Z) (payload : string) (valCtx : Types.ValidationContext)
            (requestData name : json) (key : string) (policy : Types.AuditPolicy),
        JSON_parse payload = Some requestData ->
        AuditValidator.extractResourceName requestData = Js.Ret name ->
        truthy name = true ->
        Coerce.ToString name = Js.Ret key ->
        AuditValidator.lookupPolicy valCtx key = Some policy ->
        is_rejected policy ->
        AuditValidator.validateRequest now payload valCtx = Js.Ret (Some rejected)).
Proof.
  intros claim.
  specialize (claim reference 0%Z (Scenario.call "delete_all")
                (Scenario.context (Some "Files"%string) []
                   [Scenario.audit "files" "Conditionally Approved" None;
                    Scenario.audit "delete_all" "Rejected" None])
                (JObj [("method", JStr "tools/call");
                       ("params", JObj [("name", JStr "delete_all")])]%string)
                (JStr "delete_all") "delete_all"%string
                (Scenario.audit "delete_all" "Rejected" None)).
  assert (H : AuditValidator.validateRequest (RT := reference) 0 (Scenario.call "delete_all")
                (Scenario.context (Some "Files"%string) []
                   [Scenario.audit "files" "Conditionally Approved" None;
                    Scenario.audit "delete_all" "Rejected" None])
              = Js.Ret (Some (AuditValidator.audit_block "No approval conditions defined")))
    by (vm_compute; reflexivity).
  rewrite claim in H.
  - discriminate H.
  - vm_compute. reflexivity.
  - reflexivity.
  - reflexivity.
  - reflexivity.
  - vm_compute. reflexivity.
  - reflexivity.
Qed.


(** ** CIDR matching *)

Section Cidr.
Import AuditValidator.
Local Open Scope Z_scope.

(** *** Dotted decimal text *)

Lemma decimal_facts (n : Z) :
  0 <= n < 256 -> decimal_ok n = true.
Proof.
  intros Hn.
  assert (Hall : forallb decimal_ok (map Z.of_nat (seq 0 256)) = true)
    by (vm_compute; reflexivity).
  rewrite forallb_forall in Hall. apply Hall.
  apply in_map_iff. exists (Z.to_nat n). split; [lia |].
  apply in_seq. lia.
Qed.

Lemma parseInt_decimal (n : Z) : 0 <= n < 256 -> Js.parseInt (Js.Z_toString n) = Some n.
Proof.
  intros Hn. pose proof (decimal_facts n Hn) as H. unfold decimal_ok in H.
  destruct (Js.parseInt (Js.Z_toString n)) as [m |]; [| discriminate].
  apply andb_prop in H as [H _]. apply andb_prop in H as [H _]. apply andb_prop in H as [H _].
  apply Z.eqb_eq in H. congruence.
Qed.

Lemma decimal_has_no_separator (n : Z) :
  0 <= n < 256 ->
  has_char "." (Js.Z_toString n) = false /\ has_char "/" (Js.Z_toString n) = false
  /\ Js.truthy_string (Js.Z_toString n) = true.
Proof.
  intros Hn. pose proof (decimal_facts n Hn) as H. unfold decimal_ok in H.
  destruct (Js.parseInt (Js.Z_toString n)); [| discriminate].
  apply andb_prop in H as [H H3]. apply andb_prop in H as [H H2].
  apply andb_prop in H as [_ H1].
  apply negb_true_iff in H1, H2. auto.
Qed.

Lemma has_char_app (c : ascii) (s t : string) :
  has_char c (s +:+ t) = has_char c s || has_char c t.
Proof.
  induction s as [| a s IH]; simpl; [reflexivity |].
  rewrite IH. destruct (Ascii.eqb a c); reflexivity.
Qed.

Lemma split_none (c : ascii) (s : string) : has_char c s = false -> Js.split c s = [s].
Proof.
  induction s as [| a s IH]; simpl; [reflexivity |].
  destruct (Ascii.eqb a c); simpl; [discriminate |].
  intros H. rewrite (IH H). reflexivity.
Qed.

Lemma split_at (c : ascii) (s t : string) :
  has_char c s = false -> Js.split c (s +:+ String c t) = s :: Js.split c t.
Proof.
  induction s as [| a s IH]; simpl.
  - intros _. rewrite Ascii.eqb_refl. reflexivity.
  - destruct (Ascii.eqb a c); simpl; [discriminate |].
    intros H. rewrite (IH H). reflexivity.
Qed.

Lemma split_dotted (a b c d : Z) :
  0 <= a < 256 -> 0 <= b < 256 -> 0 <= c < 256 -> 0 <= d < 256 ->
  Js.split "." (dotted a b c d)
  = [Js.Z_toString a; Js.Z_toString b; Js.Z_toString c; Js.Z_toString d].
Proof.
  intros Ha Hb Hc Hd. unfold dotted.
  destruct (decimal_has_no_separator a Ha) as (Ha' & _).
  destruct (decimal_has_no_separator b Hb) as (Hb' & _).
  destruct (decimal_has_no_separator c Hc) as (Hc' & _).
  destruct (decimal_has_no_separator d Hd) as (Hd' & _).
  change (Js.Z_toString a +:+ "." +:+ Js.Z_toString b +:+ "." +:+ Js.Z_toString c +:+ "."
          +:+ Js.Z_toString d)
    with (Js.Z_toString a +:+ String "." (Js.Z_toString b +:+ String "."
            (Js.Z_toString c +:+ String "." (Js.Z_toString d)))).
  rewrite !split_at by assumption. rewrite split_none by assumption. reflexivity.
Qed.

Lemma split_cidr (a b c d bits : Z) :
  0 <= a < 256 -> 0 <= b < 256 -> 0 <= c < 256 -> 0 <= d < 256 -> 0 <= bits < 256 ->
  Js.split "/" (dotted a b c d +:+ "/" +:+ Js.Z_toString bits)
  = [dotted a b c d; Js.Z_toString bits].
Proof.
  intros Ha Hb Hc Hd Hbits.
  destruct (decimal_has_no_separator a Ha) as (_ & Ha' & _).
  destruct (decimal_has_no_separator b Hb) as (_ & Hb' & _).
  destruct (decimal_has_no_separator c Hc) as (_ & Hc' & _).
  destruct (decimal_has_no_separator d Hd) as (_ & Hd' & _).
  destruct (decimal_has_no_separator bits Hbits) as (_ & Hbits' & _).
  change (dotted a b c d +:+ "/" +:+ Js.Z_toString bits)
    with (dotted a b c d +:+ String "/" (Js.Z_toString bits)).
  rewrite split_at, split_none; [reflexivity | assumption |].
  unfold dotted. rewrite !has_char_app, Ha', Hb', Hc', Hd'. reflexivity.
Qed.

(** *** 32-bit arithmetic *)

Lemma ToInt32_small (x : Z) : - 2 ^ 31 <= x < 2 ^ 31 -> Js.ToInt32 (Some x) = x.
Proof.
  intros Hx. unfold Js.ToInt32, Js.ToUint32.
  destruct (Z.ltb_spec (x mod 2 ^ 32) (2 ^ 31)) as [Hlt | Hge].
  - destruct (Z.neg_nonneg_cases x) as [Hneg | Hpos].
    + replace x with (x + 2 ^ 32 + (-1) * 2 ^ 32) in Hlt at 1 by lia.
      rewrite Z.mod_add, Z.mod_small in Hlt by lia. lia.
    + apply Z.mod_small. lia.
  - destruct (Z.neg_nonneg_cases x) as [Hneg | Hpos].
    + replace x with (x + 2 ^ 32 + (-1) * 2 ^ 32) at 1 by lia.
      rewrite Z.mod_add, Z.mod_small by lia. lia.
    + rewrite Z.mod_small in Hge by lia. lia.
Qed.

Lemma ToInt32_uint (x : Z) :
  0 <= x < 2 ^ 32 -> Js.ToInt32 (Some x) = if x <? 2 ^ 31 then x else x - 2 ^ 32.
Proof.
  intros Hx. unfold Js.ToInt32, Js.ToUint32. rewrite Z.mod_small by lia. reflexivity.
Qed.

(** One step of the fold in [ipToNumber], followed by [>>> 0]. *)
Lemma shift_in_octet (x d : Z) :
  0 <= x < 2 ^ 24 -> 0 <= d < 256 ->
  Js.ToUint32 (Js.add (Some (Js.shl (Some x) 8)) (Some d)) = Z.shiftl x 8 + d.
Proof.
  intros Hx Hd. unfold Js.shl, Js.add, Js.ToUint32.
  change (8 mod 32) with 8.
  rewrite (ToInt32_small x) by lia.
  rewrite Z.shiftl_mul_pow2 by lia.
  rewrite ToInt32_uint by lia.
  destruct (Z.ltb_spec (x * 2 ^ 8) (2 ^ 31)).
  - apply Z.mod_small. lia.
  - replace (x * 2 ^ 8 - 2 ^ 32 + d) with (x * 2 ^ 8 + d + (-1) * 2 ^ 32) by lia.
    rewrite Z.mod_add by lia. apply Z.mod_small. lia.
Qed.

Lemma shift_in_octet_small (x d : Z) :
  0 <= x < 2 ^ 16 -> 0 <= d < 256 ->
  Js.add (Some (Js.shl (Some x) 8)) (Some d) = Some (Z.shiftl x 8 + d).
Proof.
  intros Hx Hd. unfold Js.shl, Js.add.
  change (8 mod 32) with 8.
  rewrite (ToInt32_small x) by lia.
  rewrite Z.shiftl_mul_pow2 by lia.
  rewrite ToInt32_small by lia. reflexivity.
Qed.

Lemma uint32_of_octets_range (a b c d : Z) :
  0 <= a < 256 -> 0 <= b < 256 -> 0 <= c < 256 -> 0 <= d < 256 ->
  0 <= uint32_of_octets a b c d < 2 ^ 32.
Proof.
  intros Ha Hb Hc Hd. unfold uint32_of_octets.
  rewrite !Z.shiftl_mul_pow2 by lia. lia.
Qed.

(** The code's encoding of a dotted quad is the usual one. *)
Lemma ipToNumber_dotted (a b c d : Z) :
  0 <= a < 256 -> 0 <= b < 256 -> 0 <= c < 256 -> 0 <= d < 256 ->
  ipToNumber (dotted a b c d) = uint32_of_octets a b c d.
Proof.
  intros Ha Hb Hc Hd. unfold ipToNumber, Js.ushr0.
  rewrite split_dotted by assumption. cbn [fold_left].
  rewrite !parseInt_decimal by assumption.
  rewrite (shift_in_octet_small 0 a) by lia.
  change (Z.shiftl 0 8 + a) with a.
  rewrite (shift_in_octet_small a b) by lia.
  rewrite (shift_in_octet_small (Z.shiftl a 8 + b) c)
    by (rewrite ?Z.shiftl_mul_pow2 by lia; lia).
  rewrite shift_in_octet by (rewrite ?Z.shiftl_mul_pow2 by lia; lia).
  reflexivity.
Qed.

(** *** Bits *)

Lemma testbit_ToInt32 (x i : Z) :
  0 <= x < 2 ^ 32 -> 0 <= i ->
  Z.testbit (Js.ToInt32 (Some x)) i = Z.testbit x (Z.min i 31).
Proof.
  intros Hx Hi. rewrite ToInt32_uint by assumption.
  destruct (Z.ltb_spec x (2 ^ 31)) as [Hlt | Hge].
  - destruct (Z.le_gt_cases i 31) as [Hle | Hgt].
    + rewrite Z.min_l by lia. reflexivity.
    + rewrite Z.min_r by lia.
      destruct (Z.eq_dec x 0) as [-> | Hnz]; [rewrite !Z.bits_0; reflexivity |].
      assert (Hlog : Z.log2 x < 31) by (apply Z.log2_lt_pow2; lia).
      rewrite !Z.bits_above_log2 by lia. reflexivity.
  - destruct (Z.le_gt_cases i 31) as [Hle | Hgt].
    + rewrite Z.min_l by lia.
      rewrite <- (Z.mod_pow2_bits_low (x - 2 ^ 32) 32 i) by lia.
      replace (x - 2 ^ 32) with (x + (-1) * 2 ^ 32) by lia.
      rewrite Z.mod_add, Z.mod_small by lia. reflexivity.
    + rewrite Z.min_r by lia.
      rewrite Z.bits_above_log2_neg.
      * symmetry. apply Z.testbit_true; [lia |].
        replace (x / 2 ^ 31) with 1; [reflexivity |].
        apply Z.div_unique with (r := x - 2 ^ 31); lia.
      * lia.
      * destruct (Z.eq_dec (Z.pred (- (x - 2 ^ 32))) 0) as [E | E].
        -- rewrite E. simpl. lia.
        -- assert (Z.log2 (Z.pred (- (x - 2 ^ 32))) < 31)
             by (apply Z.log2_lt_pow2; lia).
           lia.
Qed.

Lemma testbit_prefix_mask (k i : Z) :
  0 <= k -> 0 <= i -> Z.testbit (Z.lnot (Z.ones k)) i = (k <=? i).
Proof.
  intros Hk Hi. rewrite Z.lnot_spec by assumption.
  destruct (Z.leb_spec k i).
  - rewrite Z.ones_spec_high by lia. reflexivity.
  - rewrite Z.ones_spec_low by lia. reflexivity.
Qed.

(** Masking two 32-bit encodings with [~(2^k - 1)] compares their bits from
    [k] up. *)
Lemma masked_equal_iff (x y k : Z) :
  0 <= x < 2 ^ 32 -> 0 <= y < 2 ^ 32 -> 0 <= k <= 31 ->
  Z.land (Js.ToInt32 (Some x)) (Z.lnot (Z.ones k))
  = Z.land (Js.ToInt32 (Some y)) (Z.lnot (Z.ones k))
  <-> (forall i, k <= i < 32 -> Z.testbit x i = Z.testbit y i).
Proof.
  intros Hx Hy Hk. split.
  - intros Heq i Hi.
    assert (Hbit : Z.testbit (Z.land (Js.ToInt32 (Some x)) (Z.lnot (Z.ones k))) i
                   = Z.testbit (Z.land (Js.ToInt32 (Some y)) (Z.lnot (Z.ones k))) i)
      by (rewrite Heq; reflexivity).
    rewrite !Z.land_spec, !testbit_prefix_mask, !testbit_ToInt32 in Hbit by lia.
    rewrite Z.min_l in Hbit by lia.
    replace (k <=? i) with true in Hbit by (symmetry; apply Z.leb_le; lia).
    rewrite !andb_true_r in Hbit. exact Hbit.
  - intros Hbits. apply Z.bits_inj'. intros i Hi.
    rewrite !Z.land_spec, !testbit_prefix_mask, !testbit_ToInt32 by lia.
    destruct (Z.leb_spec k i) as [Hle | Hgt]; [| rewrite !andb_false_r; reflexivity].
    rewrite !andb_true_r. apply Hbits. lia.
Qed.

Lemma prefix_mask_value (b : Z) :
  1 <= b <= 32 ->
  Js.bitnot (hostBits (Some b)) = Z.lnot (Z.ones (32 - b))
  /\ Js.ToInt32 (Some (Z.lnot (Z.ones (32 - b)))) = Z.lnot (Z.ones (32 - b))
  /\ Z.lnot (Z.ones (32 - b)) = - 2 ^ (32 - b).
Proof.
  intros Hb.
  assert (Hpow : 1 <= 2 ^ (32 - b) <= 2 ^ 31).
  { split; [apply (Z.pow_le_mono_r 2 0 (32 - b)); lia
           | apply Z.pow_le_mono_r; lia]. }
  assert (Hneg : Z.lnot (Z.ones (32 - b)) = - 2 ^ (32 - b)).
  { rewrite Z.ones_equiv. unfold Z.lnot. lia. }
  refine (conj _ (conj _ Hneg)).
  - unfold Js.bitnot, hostBits.
    destruct (Z.ltb_spec (32 - b) (-53)); [lia |].
    destruct (Z.ltb_spec (32 - b) 0); [lia |].
    destruct (Z.ltb_spec 53 (32 - b)); [lia |]. simpl orb. cbv iota.
    rewrite ToInt32_small by lia. rewrite Z.ones_equiv. f_equal; lia.
  - rewrite Hneg. apply ToInt32_small. lia.
Qed.

(** C7. For IPv4 addresses [y] and [x] in dotted decimal and a prefix
    length [b] between 0 and 32, [isIPInCIDR(y, x/b)] is true exactly when
    the top [b] bits of the unsigned 32-bit encodings of [y] and [x] agree;
    [ipToNumber] computes that encoding, the octets folded with a left
    shift by 8, and the mask is [~(2^(32-b) - 1)], which as an unsigned
    32-bit integer is [2^32 - 2^(32-b)]. *)
Theorem cidr_match_is_prefix_equality (y1 y2 y3 y4 x1 x2 x3 x4 b : Z) :
  0 <= y1 < 256 -> 0 <= y2 < 256 -> 0 <= y3 < 256 -> 0 <= y4 < 256 ->
  0 <= x1 < 256 -> 0 <= x2 < 256 -> 0 <= x3 < 256 -> 0 <= x4 < 256 ->
  0 <= b <= 32 ->
  ipToNumber (dotted y1 y2 y3 y4) = uint32_of_octets y1 y2 y3 y4
  /\ Js.ToUint32 (Some (Js.bitnot (hostBits (Some b)))) = 2 ^ 32 - 2 ^ (32 - b)
  /\ (isIPInCIDR (dotted y1 y2 y3 y4) (dotted x1 x2 x3 x4 +:+ "/" +:+ Js.Z_toString b) = true
      <-> top_bits_agree b (uint32_of_octets y1 y2 y3 y4) (uint32_of_octets x1 x2 x3 x4)).
Proof.
  intros Hy1 Hy2 Hy3 Hy4 Hx1 Hx2 Hx3 Hx4 Hb.
  pose proof (uint32_of_octets_range y1 y2 y3 y4 Hy1 Hy2 Hy3 Hy4) as Hy.
  pose proof (uint32_of_octets_range x1 x2 x3 x4 Hx1 Hx2 Hx3 Hx4) as Hx.
  split; [apply ipToNumber_dotted; assumption |].
  assert (Hzero : Js.bitnot (hostBits (Some 0)) = 0) by reflexivity.
  split.
  - destruct (Z.eq_dec b 0) as [-> | Hnz]; [reflexivity |].
    destruct (prefix_mask_value b ltac:(lia)) as (-> & _ & ->).
    assert (Hpow : 1 <= 2 ^ (32 - b) <= 2 ^ 31).
    { split; [apply (Z.pow_le_mono_r 2 0 (32 - b)); lia
             | apply Z.pow_le_mono_r; lia]. }
    unfold Js.ToUint32.
    replace (- 2 ^ (32 - b)) with (2 ^ 32 - 2 ^ (32 - b) + (-1) * 2 ^ 32) by lia.
    rewrite Z.mod_add by lia. apply Z.mod_small. lia.
  - unfold isIPInCIDR.
    rewrite split_cidr by lia.
    destruct (decimal_has_no_separator b ltac:(lia)) as (_ & _ & ->). cbv iota. simpl negb.
    cbv iota.
    rewrite (parseInt_decimal b) by lia.
    rewrite !ipToNumber_dotted by assumption.
    rewrite Z.eqb_eq. unfold Js.bitand.
    destruct (Z.eq_dec b 0) as [-> | Hnz].
    + rewrite Hzero. change (Js.ToInt32 (Some 0)) with 0. rewrite !Z.land_0_r.
      split; [| reflexivity]. intros _ i Hi. lia.
    + destruct (prefix_mask_value b ltac:(lia)) as (-> & -> & _).
      rewrite masked_equal_iff by lia. reflexivity.
Qed.

End Cidr.

Lemma cidr_match_is_prefix_equality_witness :
  AuditValidator.ipToNumber "10.0.0.5" = 167772165%Z
  /\ Js.ToUint32 (Some (Js.bitnot (AuditValidator.hostBits (Some 24%Z)))) = 4294967040%Z
  /\ (AuditValidator.isIPInCIDR "10.0.0.5" "10.0.0.0/24" = true
      <-> top_bits_agree 24 167772165 167772160).
Proof.
  apply (cidr_match_is_prefix_equality 10 0 0 5 10 0 0 0 24); lia.
Defined.
(** ** The metadata auditor *)

Section MetadataAuditor.
Context `{RT : JsRuntime}.
Import Types.
Import McpMetadataValidator.

Lemma get_object (v : json) (k : string) (x : json) :
  get v k = Js.Ret (Some x) -> get_opt (Some v) k = Some x.
Proof. destruct v; simpl; congruence. Qed.

(** Once one member of a value has been read, every member can be. *)
Lemma get_after_get (v : json) (k0 : string) (x : option json) (k : string) :
  get v k0 = Js.Ret x -> get v k = Js.Ret (get_opt (Some v) k).
Proof. destruct v; simpl; congruence. Qed.

Lemma endpoint_is_truthy (a b : string) :
  Js.truthy_string (a +:+ "/tools/list/" +:+ b) = true.
Proof. destruct a; reflexivity. Qed.

(** A value converts to a number exactly when it converts to a string. *)
Lemma number_of_printed (v : option json) (text : string) :
  Coerce.ToString_opt v = Js.Ret text -> exists x, Coerce.ToNumber v = Js.Ret x.
Proof.
  destruct v as [[| [|] | x | s | items | fields] |]; intros H;
    try (cbn; eauto; fail);
    cbn [Coerce.ToString_opt] in H; unfold Coerce.ToNumber; cbv beta iota;
    rewrite H; cbn [Js.bind]; eauto.
Qed.

Lemma printed_of_number (v : option json) (x : float) :
  Coerce.ToNumber v = Js.Ret x -> exists text, Coerce.ToString_opt v = Js.Ret text.
Proof.
  destruct v as [[| [|] | y | s | items | fields] |]; intros H;
    try (cbn; eauto; fail);
    unfold Coerce.ToNumber in H; cbv beta iota in H; cbn [Coerce.ToString_opt];
    match type of H with
    | Js.bind ?m _ = _ => destruct m as [text | e]; [eauto | discriminate]
    end.
Qed.

(** The threshold test on an answer whose scores are numbers. *)
Lemma exceedsThreshold_numbers (resp : json) (x0 : option json) (k0 : string)
  (malicious matching : float) :
  get resp k0 = Js.Ret x0 ->
  Coerce.ToNumber (get_opt (Some resp) "maliciousMatchScore") = Js.Ret malicious ->
  Coerce.ToNumber (get_opt (Some resp) "toolNameDescriptionMatchScore") = Js.Ret matching ->
  exceedsThreshold resp = Js.Ret (over_threshold malicious matching).
Proof.
  intros Hget Hmal Hmatch. unfold exceedsThreshold, Coerce.gt, Coerce.lt, over_threshold.
  rewrite (get_after_get resp k0 x0 "maliciousMatchScore" Hget). cbn [Js.bind].
  rewrite Hmal. cbn [Js.bind].
  destruct (PrimFloat.ltb 0.75 malicious); [reflexivity |].
  rewrite (get_after_get resp k0 x0 "toolNameDescriptionMatchScore" Hget). cbn [Js.bind].
  rewrite Hmatch. reflexivity.
Qed.

(** What [validateTool] does once the name, the description and the
    schema have been printed and the model has answered with a document. *)
Lemma validateTool_answered (llm : LLM) (now : Z) (token : string) (tool : json)
  (valCtx : ValidationContext) (name : json) (nameText descriptionText schema : string)
  (content : string) (resp : json) :
  get tool "name" = Js.Ret (Some name) ->
  truthy name = true ->
  extractInputSchema tool = Js.Ret schema ->
  Coerce.ToString name = Js.Ret nameText ->
  Coerce.ToString (or_empty (get_opt (Some tool) "description")) = Js.Ret descriptionText ->
  llm tool = Js.Ret content ->
  JSON_parse (cleanJSON content) = Some resp ->
  validateTool llm now token tool valCtx
  = Js.Ret
      (Js.try_catch
         (Js.bind (get resp "isMalicious") (fun isMalicious =>
            Js.bind (Coerce.ToString_opt isMalicious) (fun _ =>
              Js.bind (get resp "toolNameDescriptionMatchScore") (fun matching =>
                Js.bind (Coerce.ToString_opt matching) (fun _ =>
                  Js.bind (exceedsThreshold resp) (fun over =>
                    if over then
                      Js.bind (reportToolThreat now token tool resp valCtx)
                        (fun issued => Js.Ret [issued])
                    else Js.Ret []))))))
         (fun _ => [])).
Proof.
  intros Hname Htruthy Hschema HnameText Hdescription Hllm Hparse.
  unfold validateTool. rewrite Hname. cbn [Js.bind truthy_opt]. rewrite Htruthy. cbn [negb].
  rewrite Hschema. cbn [Js.bind].
  unfold validateMCPComponent, Coerce.parse.
  cbn [default from_option Datatypes.id]. unfold Datatypes.id.
  rewrite HnameText. cbn [Js.bind]. rewrite Hdescription. cbn [Js.bind].
  rewrite Hllm. cbn [Js.bind]. rewrite Hparse. reflexivity.
Qed.

(** C9, as amended.  A tool descriptor is reported exactly when the parsed
    answer of the model has [maliciousMatchScore > 0.75] or
    [toolNameDescriptionMatchScore < 0.7], as long as the values
    [validateTool] prints on its way convert to strings: the name and the
    description of the tool and the descriptions of its input schema
    before the model is asked, and [isMalicious], the two scores and the
    reason of the answer after.  Then [validateTool] issues one report: its
    result carries policy id [MCPMaliciousComponent] and the reason of the
    answer, its endpoint is the original endpoint followed by
    [/tools/list/<name>], its response payload is the document
    [{result: {tools: [tool]}}] holding that tool alone, and the event sent
    to the threat backend is built from these.  Conversely, whenever
    [validateTool] issues a report, the model has answered with a document
    whose scores are over a threshold, and the report is that one. *)
Theorem offending_tool_is_reported_once :
  (forall (llm : LLM) (now : Z) (token : string) (tool : json) (valCtx : ValidationContext)
          (name : json) (nameText descriptionText schema content : string) (resp : json)
          (isMalicious : option json) (maliciousText reasonText : string)
          (malicious matching : float),
      get tool "name" = Js.Ret (Some name) ->
      truthy name = true ->
      extractInputSchema tool = Js.Ret schema ->
      Coerce.ToString name = Js.Ret nameText ->
      Coerce.ToString (or_empty (get_opt (Some tool) "description")) = Js.Ret descriptionText ->
      llm tool = Js.Ret content ->
      JSON_parse (cleanJSON content) = Some resp ->
      get resp "isMalicious" = Js.Ret isMalicious ->
      Coerce.ToString_opt isMalicious = Js.Ret maliciousText ->
      Coerce.ToString_opt (get_opt (Some resp) "reason") = Js.Ret reasonText ->
      Coerce.ToNumber (get_opt (Some resp) "maliciousMatchScore") = Js.Ret malicious ->
      Coerce.ToNumber (get_opt (Some resp) "toolNameDescriptionMatchScore")
      = Js.Ret matching ->
      over_threshold malicious matching = true ->
      exists r,
        validateTool llm now token tool valCtx = Js.Ret [r]
        /\ metadata_of (validationResult r) "policy_id" = Some (MStr "MCPMaliciousComponent")
        /\ reason (validationResult r)
           = Some ("Malicious MCP component detected: " +:+ reasonText)
        /\ endpoint (reportCtx r)
           = Some (template_ostring (endpoint valCtx) +:+ "/tools/list/" +:+ nameText)
        /\ ctx_responsePayload (reportCtx r)
           = Some (JSON_stringify (JObj [("result", JObj [("tools", JArr [tool])])]%string))
        /\ post r = ThreatReporter.reportThreat now (validationResult r) (reportCtx r) token
        /\ ThreatReporter.filterId (ThreatReporter.maliciousEvent (post r))
           = MStr "MCPMaliciousComponent"
        /\ ThreatReporter.latestApiEndpoint (ThreatReporter.maliciousEvent (post r))
           = template_ostring (endpoint valCtx) +:+ "/tools/list/" +:+ nameText)
  /\ (forall (llm : LLM) (now : Z) (token : string) (tool : json) (valCtx : ValidationContext)
             (reports : list report),
         validateTool llm now token tool valCtx = Js.Ret reports ->
         reports <> [] ->
         exists content resp malicious matching r,
           llm tool = Js.Ret content
           /\ JSON_parse (cleanJSON content) = Some resp
           /\ Coerce.ToNumber (get_opt (Some resp) "maliciousMatchScore") = Js.Ret malicious
           /\ Coerce.ToNumber (get_opt (Some resp) "toolNameDescriptionMatchScore")
              = Js.Ret matching
           /\ over_threshold malicious matching = true
           /\ reportToolThreat now token tool resp valCtx = Js.Ret r
           /\ reports = [r]).
Proof.
  split.
  - intros llm now token tool valCtx name nameText descriptionText schema content resp
      isMalicious maliciousText reasonText malicious matching
      Hname Htruthy Hschema HnameText Hdescription Hllm Hparse
      Hmal HmalText Hreason Hscore Hmatch Hover.
    rewrite (validateTool_answered llm now token tool valCtx name nameText descriptionText
               schema content resp Hname Htruthy Hschema HnameText Hdescription Hllm Hparse).
    destruct (printed_of_number _ _ Hscore) as (scoreText & HscoreText).
    destruct (printed_of_number _ _ Hmatch) as (matchText & HmatchText).
    rewrite Hmal. cbn [Js.bind]. rewrite HmalText. cbn [Js.bind].
    rewrite (get_after_get resp _ _ "toolNameDescriptionMatchScore" Hmal). cbn [Js.bind].
    rewrite HmatchText. cbn [Js.bind].
    rewrite (exceedsThreshold_numbers resp _ _ malicious matching Hmal Hscore Hmatch), Hover.
    cbn [Js.bind].
    unfold reportToolThreat, customEndpoint.
    rewrite Hname. cbn [Js.bind Coerce.ToString_opt]. rewrite HnameText. cbn [Js.bind].
    rewrite (get_after_get resp _ _ "maliciousMatchScore" Hmal). cbn [Js.bind].
    rewrite HscoreText. cbn [Js.bind].
    rewrite (get_after_get resp _ _ "toolNameDescriptionMatchScore" Hmal). cbn [Js.bind].
    rewrite HmatchText. cbn [Js.bind].
    rewrite (get_after_get resp _ _ "reason" Hmal). cbn [Js.bind].
    rewrite Hreason. cbn [Js.bind Js.try_catch].
    eexists. split; [reflexivity |].
    refine (conj eq_refl (conj eq_refl (conj eq_refl (conj eq_refl (conj eq_refl
              (conj eq_refl _)))))).
    cbn. unfold or_string. rewrite endpoint_is_truthy. reflexivity.
  - intros llm now token tool valCtx reports Hrun Hne.
    unfold validateTool in Hrun.
    destruct (get tool "name") as [toolName | e]; cbn [Js.bind] in Hrun; [| discriminate].
    destruct (negb (truthy_opt toolName)); [congruence |].
    destruct (extractInputSchema tool) as [schema | e]; cbn [Js.bind] in Hrun;
      [| discriminate].
    unfold validateMCPComponent, Coerce.parse in Hrun.
    destruct (Coerce.ToString (default JNull toolName)) as [nameText | e];
      cbn [Js.bind Js.try_catch] in Hrun; [| congruence].
    destruct (Coerce.ToString (or_empty _)) as [descriptionText | e];
      cbn [Js.bind Js.try_catch] in Hrun; [| congruence].
    destruct (llm tool) as [content | e]; cbn [Js.bind Js.try_catch] in Hrun; [| congruence].
    destruct (JSON_parse (cleanJSON content)) as [resp |] eqn:Hparse;
      cbn [Js.bind Js.try_catch] in Hrun; [| congruence].
    destruct (get resp "isMalicious") as [isMalicious | e] eqn:Hmal;
      cbn [Js.bind Js.try_catch] in Hrun; [| congruence].
    destruct (Coerce.ToString_opt isMalicious) as [maliciousText | e];
      cbn [Js.bind Js.try_catch] in Hrun; [| congruence].
    rewrite (get_after_get resp _ _ "toolNameDescriptionMatchScore" Hmal) in Hrun.
    cbn [Js.bind] in Hrun.
    destruct (Coerce.ToString_opt (get_opt (Some resp) "toolNameDescriptionMatchScore"))
      as [matchText | e] eqn:HmatchText; cbn [Js.bind Js.try_catch] in Hrun; [| congruence].
    destruct (number_of_printed _ _ HmatchText) as (matching & Hmatch).
    destruct (Coerce.ToNumber (get_opt (Some resp) "maliciousMatchScore"))
      as [malicious | e] eqn:Hscore.
    + rewrite (exceedsThreshold_numbers resp _ _ malicious matching Hmal Hscore Hmatch) in Hrun.
      cbn [Js.bind] in Hrun.
      destruct (over_threshold malicious matching) eqn:Hover;
        cbn [Js.try_catch] in Hrun; [| congruence].
      destruct (reportToolThreat now token tool resp valCtx) as [r | e] eqn:Hreport;
        cbn [Js.bind Js.try_catch] in Hrun; [| congruence].
      exists content, resp, malicious, matching, r.
      repeat split; congruence.
    + unfold exceedsThreshold, Coerce.gt in Hrun.
      rewrite (get_after_get resp _ _ "maliciousMatchScore" Hmal) in Hrun.
      cbn [Js.bind] in Hrun. rewrite Hscore in Hrun.
      cbn [Js.bind Js.try_catch] in Hrun. congruence.
Qed.

End MetadataAuditor.

Lemma offending_tool_is_reported_once_witness :
  let llm : McpMetadataValidator.LLM := fun _ => Js.Ret (Scenario.verdict "0.9" "0.2") in
  let valCtx := Scenario.context None [] [] in
  exists r,
    McpMetadataValidator.validateTool (RT := reference) llm 1700000000123 "token"
      Scenario.get_weather valCtx = Js.Ret [r]
    /\ Types.metadata_of (McpMetadataValidator.validationResult r) "policy_id"
       = Some (Types.MStr "MCPMaliciousComponent")
    /\ Types.endpoint (McpMetadataValidator.reportCtx r)
       = Some "/mcp/tools/list/get_weather"%string
    /\ ThreatReporter.detectedAt (ThreatReporter.maliciousEvent (McpMetadataValidator.post r))
       = "1700000000"%string.
Proof.
  intros llm valCtx.
  destruct (proj1 (offending_tool_is_reported_once (RT := reference)) llm 1700000000123%Z
              "token"%string Scenario.get_weather valCtx (JStr "get_weather")
              "get_weather"%string "Executes arbitrary shell commands"%string
              "(none)"%string
              (Scenario.verdict "0.9" "0.2")
              (JObj [("isMalicious", JBool true); ("maliciousMatchScore", JNum 0.9%float);
                     ("toolNameDescriptionMatchScore", JNum 0.2%float);
                     ("reason", JStr "mismatch")]%string)
              (Some (JBool true)) "true"%string "mismatch"%string 0.9%float 0.2%float)
    as (r & Hrun & Hid & _ & Hend & _ & Hpost & _).
  - reflexivity.
  - reflexivity.
  - reflexivity.
  - reflexivity.
  - reflexivity.
  - reflexivity.
  - vm_compute. reflexivity.
  - reflexivity.
  - reflexivity.
  - reflexivity.
  - reflexivity.
  - reflexivity.
  - vm_compute. reflexivity.
  - exists r. refine (conj Hrun (conj Hid (conj Hend _))).
    rewrite Hpost. reflexivity.
Defined.

(** C9, as the specification states it, fails: when the answer of the
    model has scores over the thresholds and a [reason] that has no string
    conversion, building the report throws inside the [try] of
    [validateTool], the error is caught, and no report is issued. *)
Lemma offending_tool_unreported_counterexample :
  ~ (forall (RT : JsRuntime) (llm : McpMetadataValidator.LLM) (now : Z) (token : string)
            (tool : json) (valCtx : Types.ValidationContext) (name : json)
            (content : string) (resp : json) (malicious matching : float),
        get tool "name" = Js.Ret (Some name) ->
        truthy name = true ->
        llm tool = Js.Ret content ->
        JSON_parse (McpMetadataValidator.cleanJSON content) = Some resp ->
        Coerce.ToNumber (get_opt (Some resp) "maliciousMatchScore") = Js.Ret malicious ->
        Coerce.ToNumber (get_opt (Some resp) "toolNameDescriptionMatchScore")
        = Js.Ret matching ->
        over_threshold malicious matching = true ->
        exists r, McpMetadataValidator.validateTool llm now token tool valCtx = Js.Ret [r]).
Proof.
  intros claim.
  destruct (claim reference (fun _ => Js.Ret Scenario.evasive) 1700000000123%Z "token"%string
              Scenario.get_weather (Scenario.context None [] []) (JStr "get_weather")
              Scenario.evasive
              (JObj [("isMalicious", JBool true); ("maliciousMatchScore", JNum 0.9%float);
                     ("toolNameDescriptionMatchScore", JNum 0.2%float);
                     ("reason", JObj [("toString", JNum 1%float)])]%string)
              0.9%float 0.2%float) as (r & Hr).
  - reflexivity.
  - reflexivity.
  - reflexivity.
  - vm_compute. reflexivity.
  - reflexivity.
  - reflexivity.
  - vm_compute. reflexivity.
  - vm_compute in Hr. discriminate Hr.
Qed.


(** ** Redaction by the regex validator *)

Section RegexRedaction.
Context `{RT : JsRuntime}.
Import Types.

Lemma append_associative (a b c : string) : (a +:+ b) +:+ c = a +:+ b +:+ c.
Proof.
  induction a as [| x a IH]; [reflexivity |].
  change (String x ((a +:+ b) +:+ c) = String x (a +:+ b +:+ c)).
  f_equal. exact IH.
Qed.

(** What the regex validator does on a redact rule whose pattern matches:
    the expression is compiled without the global flag, so [replace]
    substitutes the leftmost match and nothing else. *)
Lemma regex_redact_leftmost (text p : string) (rule : FilterRule) (policy : Policy)
  (r : RegExp.node) (i e : nat) :
  pattern rule = Some p ->
  Js.truthy_string p = true ->
  action rule = Some "redact"%string ->
  RegExp_compile p = Some r ->
  RegExp.scan true r None text 0 = Some (i, e) ->
  RegexValidator.validate text rule policy
  = redact (Js.take i text +:+ "[REDACTED]" +:+ Js.drop e text).
Proof.
  intros Hp Htruthy Hact Hcompile Hscan.
  unfold RegexValidator.validate, RegexValidator.compile.
  rewrite Hp, Hact. simpl. rewrite Htruthy, Hcompile. simpl.
  unfold RegExp.test, RegExp.replace, RegExp.exec. simpl. rewrite Hscan. simpl.
  rewrite Hscan. simpl.
  unfold RegExp.slice. rewrite Nat.sub_0_r. simpl Js.drop at 1.
  rewrite !append_associative. reflexivity.
Qed.

End RegexRedaction.

(** C3 at a text with two matches: the regex validator redacts the first
    occurrence and leaves the second in the payload it returns. *)
Theorem regex_redact_leaves_later_matches :
  RegexValidator.validate (RT := reference) "token=abc and token=def"
    (Scenario.rule "regex" (Some "token=[a-z]+"%string) (Some "redact"%string))
    (Scenario.policy [])
  = Types.redact "[REDACTED] and token=def".
Proof. vm_compute. reflexivity. Qed.

(** ** Repeated calls of the PII validator *)

(** C10 at a text holding one e-mail address: the first call blocks and leaves
    the shared expression with [lastIndex] 6; the second call, with the same
    arguments, starts matching there, finds nothing and allows. *)
Theorem pii_block_changes_the_next_call :
  let rule := Scenario.rule "pii" (Some "email"%string) (Some "block"%string) in
  let policy := Scenario.policy [] in
  let first := PIIValidator.validate PIIValidator.PII_PATTERNS "a@b.co" rule policy in
  let second := PIIValidator.validate (snd first) "a@b.co" rule policy in
  fst first
  = Types.block "Blocked due to PII detection: email"
      [("policy_id", Types.MStr "MCPGuardrails"); ("rule_type", Types.MStr "pii");
       ("pii_type", Types.MStr "email")]%string
  /\ RegExp.lastIndex <$> snd first !! "email"%string = Some 6%nat
  /\ fst second = Types.allow
  /\ fst first <> fst second.
Proof.
  cbv zeta. repeat split; try (vm_compute; reflexivity).
  vm_compute. discriminate.
Qed.

(* ================================================================== *)
(** * Further properties of the rate limiter *)
(* ================================================================== *)

Section RateLimitWindow.
Context `{RT : JsRuntime}.
Import Types.
Import RateLimitValidator.
Local Open Scope Z_scope.

Lemma checks_in_live_window (key : string) (limit windowSeconds : Z) (times : list Z) :
  forall (kv : gmap string entry) (e : entry) (n : nat),
    kv !! key = Some e ->
    (1 <= n)%nat ->
    count (value e) = Z.min (Z.of_nat n) (Z.max 1 limit) ->
    Forall (fun t => t <= resetAt (value e)) times ->
    fst (successive_checks kv key limit windowSeconds times)
    = map (fun k => Z.of_nat k <=? Z.max 1 limit) (seq (S n) (List.length times)).
Proof.
  induction times as [| t times IH]; intros kv e n Hkv Hn Hcount Hlive; [reflexivity |].
  inversion Hlive as [| ? ? Ht Hrest]; subst.
  cbn [successive_checks List.length seq map].
  destruct (Z_lt_ge_dec (count (value e)) limit) as [Hlt | Hge].
  - rewrite (check_counted kv t key limit windowSeconds e Hkv Ht Hlt).
    set (e' := {| value := _; expirationTtl := _ |}).
    specialize (IH (<[key := e']> kv) e' (S n)).
    destruct (successive_checks (<[key := e']> kv) key limit windowSeconds times)
      as [verdicts kv''] eqn:Hrec.
    cbn [fst] in *. f_equal.
    + symmetry. apply Z.leb_le. lia.
    + apply IH; [apply lookup_insert_eq | lia | subst e'; cbn; lia | exact Hrest].
  - rewrite (check_exhausted kv t key limit windowSeconds e Hkv Ht Hge).
    specialize (IH kv e (S n)).
    destruct (successive_checks kv key limit windowSeconds times) as [verdicts kv''] eqn:Hrec.
    cbn [fst] in *. f_equal.
    + symmetry. apply Z.leb_gt. lia.
    + apply IH; [exact Hkv | lia | lia | exact Hrest].
Qed.

(** X1. Starting from a store without the key, the first call opens a
    window that lasts [windowSeconds] seconds; of the calls made before the
    window has run out, the [k]-th is allowed exactly when [k] is at most
    the limit, the first call being allowed whatever the limit is. *)
Theorem window_admits_limit_calls
  (kv : gmap string entry) (key : string) (limit windowSeconds : Z)
  (first : Z) (times : list Z) :
  kv !! key = None ->
  Forall (fun t => t <= first + windowSeconds * 1000) times ->
  fst (successive_checks kv key limit windowSeconds (first :: times))
  = map (fun k => Z.of_nat k <=? Z.max 1 limit) (seq 1 (S (List.length times))).
Proof.
  intros Hkv Hlive.
  cbn [successive_checks List.length seq map].
  rewrite (check_absent kv first key limit windowSeconds Hkv).
  set (e := {| value := _; expirationTtl := _ |}).
  pose proof (checks_in_live_window key limit windowSeconds times
                (<[key := e]> kv) e 1%nat) as H.
  destruct (successive_checks (<[key := e]> kv) key limit windowSeconds times)
    as [verdicts kv''] eqn:Hrec.
  cbn [fst] in *. f_equal.
  - symmetry. apply Z.leb_le. lia.
  - apply H; [apply lookup_insert_eq | lia | subst e; cbn; lia | exact Hlive].
Qed.

(** X2. A check rewrites at most the cell of its own key: every other key
    of the store keeps its entry.  The key itself holds a cell afterwards,
    and the call reports that cell: its count and its reset time.  While a
    window is live the reset time is kept and the count does not go
    down. *)
Theorem check_touches_only_its_key
  (kv : gmap string entry) (now : Z) (key : string) (limit windowSeconds : Z) :
  let '(result, kv') := checkRateLimit kv now key limit windowSeconds in
  (forall other, other <> key -> kv' !! other = kv !! other)
  /\ value <$> kv' !! key
     = Some {| count := currentCount result; resetAt := check_resetAt result |}
  /\ (forall e, kv !! key = Some e -> now <= resetAt (value e) ->
        check_resetAt result = resetAt (value e)
        /\ count (value e) <= currentCount result <= count (value e) + 1).
Proof.
  unfold checkRateLimit.
  destruct (kv !! key) as [e |] eqn:Hkv; cbn [fmap option_fmap option_map].
  - destruct (Z.gtb_spec now (resetAt (value e))) as [Hgt | Hle].
    + refine (conj _ (conj _ _)).
      * intros other Hother. apply lookup_insert_ne. congruence.
      * rewrite lookup_insert_eq. reflexivity.
      * intros e' He' Hlive. assert (e' = e) by congruence. subst. lia.
    + destruct (Z.geb_spec (count (value e)) limit) as [Hge | Hlt].
      * refine (conj _ (conj _ _)).
        -- reflexivity.
        -- rewrite Hkv. destruct e as [[c r] ttl]. reflexivity.
        -- intros e' He' Hlive. assert (e' = e) by congruence. subst. cbn. lia.
      * refine (conj _ (conj _ _)).
        -- intros other Hother. apply lookup_insert_ne. congruence.
        -- rewrite lookup_insert_eq. reflexivity.
        -- intros e' He' Hlive. assert (e' = e) by congruence. subst. cbn. lia.
  - refine (conj _ (conj _ _)).
    + intros other Hother. apply lookup_insert_ne. congruence.
    + rewrite lookup_insert_eq. reflexivity.
    + intros e' He'. discriminate.
Qed.

Lemma check_reports_its_cell
  (kv : gmap string entry) (now : Z) (key : string) (limit windowSeconds : Z) :
  value <$> snd (checkRateLimit kv now key limit windowSeconds) !! key
  = Some {| count := currentCount (fst (checkRateLimit kv now key limit windowSeconds));
            resetAt := check_resetAt (fst (checkRateLimit kv now key limit windowSeconds)) |}.
Proof.
  unfold checkRateLimit.
  destruct (kv !! key) as [e |] eqn:Hkv; cbn [fmap option_fmap option_map].
  - destruct (now >? resetAt (value e)).
    + cbn [fst snd]. rewrite lookup_insert_eq. reflexivity.
    + destruct (count (value e) >=? limit); cbn [fst snd].
      * rewrite Hkv. destruct e as [[c r] ttl]. reflexivity.
      * rewrite lookup_insert_eq. reflexivity.
  - cbn [fst snd]. rewrite lookup_insert_eq. reflexivity.
Qed.

Lemma getRateLimitKey_inj (a b : string) : getRateLimitKey a = getRateLimitKey b -> a = b.
Proof. unfold getRateLimitKey. intros H. injection H. auto. Qed.

(** X3. The monitoring read and the reset agree with the limiter: after
    a check on the key of an identifier, [getRateLimitStatus] returns the
    count and reset time the check reported; after [resetRateLimit] the
    status is [null], the next check opens a fresh window and is allowed
    with count 1, and the status of every other identifier is what it
    was. *)
Theorem status_and_reset_round_trip
  (kv : gmap string entry) (now : Z) (identifier : string) (limit windowSeconds : Z) :
  (let '(result, kv') :=
     checkRateLimit kv now (getRateLimitKey identifier) limit windowSeconds in
   getRateLimitStatus kv' identifier
   = Some {| count := currentCount result; resetAt := check_resetAt result |})
  /\ getRateLimitStatus (resetRateLimit kv identifier) identifier = None
  /\ fst (checkRateLimit (resetRateLimit kv identifier) now (getRateLimitKey identifier)
            limit windowSeconds)
     = {| check_allowed := true; currentCount := 1;
          check_resetAt := now + windowSeconds * 1000 |}
  /\ (forall other, other <> identifier ->
        getRateLimitStatus (resetRateLimit kv identifier) other
        = getRateLimitStatus kv other).
Proof.
  refine (conj _ (conj _ (conj _ _))).
  - pose proof (check_reports_its_cell kv now (getRateLimitKey identifier)
                  limit windowSeconds) as H.
    destruct (checkRateLimit kv now (getRateLimitKey identifier) limit windowSeconds)
      as [result kv'].
    exact H.
  - unfold getRateLimitStatus, resetRateLimit. rewrite lookup_delete_eq. reflexivity.
  - rewrite check_absent; [reflexivity |].
    unfold resetRateLimit. apply lookup_delete_eq.
  - intros other Hother. unfold getRateLimitStatus, resetRateLimit.
    rewrite lookup_delete_ne; [reflexivity |].
    intros H. apply getRateLimitKey_inj in H. congruence.
Qed.






(** X5. A blocked tool call announces the whole seconds left until the
    window resets: [reset_in_seconds] is the least [n] with
    [later + 1000 * n >= reset_at], where [later] is the clock reading
    taken for the message.  The window was still live when the counter
    was read ([now <= reset_at]), so the announcement is positive exactly
    when the message is built before the reset time, and it is 0 or
    negative when it is built at or after it. *)
Theorem blocked_call_announces_time_to_reset
  (kv kv' : gmap string entry) (now later : Z) (payload : string)
  (valCtx : ValidationContext) (rateLimitConfig : option RateLimitConfig)
  (r : ValidationResult) :
  validateRequest kv now later payload valCtx rateLimitConfig = (Js.Ret (Some r), kv') ->
  allowed r = false ->
  exists reset n,
    metadata_of r "reset_at" = Some (MInt reset)
    /\ metadata_of r "reset_in_seconds" = Some (MInt n)
    /\ now <= reset
    /\ 1000 * (n - 1) < reset - later <= 1000 * n
    /\ (1 <= n <-> later < reset)
    /\ kv' = kv.
Proof.
  unfold validateRequest.
  destruct rateLimitConfig as [cfg |]; [| discriminate].
  destruct (negb (enabled cfg)); [discriminate |].
  destruct (JSON_parse payload) as [requestData |]; [| discriminate].
  destruct (extractToolName requestData) as [[tool |] | e]; try discriminate.
  destruct (Coerce.joinValues _ _) as [identifier | e]; [| discriminate].
  set (key := getRateLimitKey _).
  unfold checkRateLimit, blocked, passed.
  destruct (Coerce.ToString tool) as [name | e].
  2: { destruct (kv !! key) as [e0 |]; cbn [fmap option_fmap option_map];
         repeat match goal with
                | |- context [if ?b then _ else _] => destruct b
                end; discriminate. }
  destruct (kv !! key) as [e |] eqn:Hkv; cbn [fmap option_fmap option_map].
  - destruct (Z.gtb_spec now (resetAt (value e))) as [Hgt | Hle];
      cbn [negb check_allowed Js.bind].
    + intros H Hr. injection H as <- _. discriminate.
    + destruct (count (value e) >=? limit cfg); cbn [negb check_allowed Js.bind].
      * intros H _. injection H as <- <-.
        exists (resetAt (value e)), (Js.ceil_div (resetAt (value e) - later) 1000).
        pose proof (ceil_div_spec (resetAt (value e) - later) 1000 ltac:(lia)) as Hceil.
        cbn [check_resetAt] in *.
        repeat split; try reflexivity; try assumption; lia.
      * intros H Hr. injection H as <- _. discriminate.
  - cbn [negb check_allowed Js.bind]. intros H Hr. injection H as <- _. discriminate.
Qed.

End RateLimitWindow.

Lemma window_admits_limit_calls_witness :
  fst (successive_checks ∅ "ratelimit:10.0.0.5:read_file" 2 60 [1000; 2500; 3000; 61000]%Z)
  = [true; true; false; false].
Proof.
  apply (window_admits_limit_calls ∅ "ratelimit:10.0.0.5:read_file" 2 60 1000
           [2500; 3000; 61000]%Z).
  - reflexivity.
  - repeat constructor; lia.
Defined.

Lemma blocked_call_announces_time_to_reset_witness :
  let key := "ratelimit:10.0.0.5:read_file"%string in
  let kv : gmap string RateLimitValidator.entry :=
    {[ key := {| RateLimitValidator.value :=
                   {| RateLimitValidator.count := 2; RateLimitValidator.resetAt := 61000 |};
                 RateLimitValidator.expirationTtl := 60 |} ]} in
  let r :=
    Types.block "Rate limit exceeded for tool 'read_file'. Try again in 58 seconds."
      [("policy_id", Types.MStr "RateLimitPolicy");
       ("tool_name", Types.MJson (Some (JStr "read_file")));
       ("current_count", Types.MInt 2); ("limit", Types.MInt 2);
       ("reset_at", Types.MInt 61000); ("reset_in_seconds", Types.MInt 58)]%string in
  exists reset n : Z,
    Types.metadata_of r "reset_at" = Some (Types.MInt reset)
    /\ Types.metadata_of r "reset_in_seconds" = Some (Types.MInt n)
    /\ (3000 <= reset)%Z
    /\ (1000 * (n - 1) < reset - 3500 <= 1000 * n)%Z
    /\ ((1 <= n)%Z <-> (3500 < reset)%Z)
    /\ kv = kv.
Proof.
  intros key kv r.
  apply (blocked_call_announces_time_to_reset (RT := reference) kv kv 3000 3500
           (Scenario.call "read_file") (Scenario.context None [] [])
           (Some {| Types.enabled := true; Types.limit := 2; Types.windowSeconds := 60;
                    Types.identifierTypes := [Types.IP; Types.TOOL] |}) r).
  - vm_compute. reflexivity.
  - reflexivity.
Defined.

(* ================================================================== *)
(** * Further properties of the scanner client and the orchestrator *)
(* ================================================================== *)

Section ScannerAccounting.
Context `{RT : JsRuntime}.
Import Js Types.

Lemma tally_results (settled : list (outcome json)) (acc : ScanResponse) :
  results (ScannerClient.tally settled acc) = results acc ++ fulfilled settled.
Proof.
  revert acc. induction settled as [| [v | e] rest IH]; intros acc; cbn.
  - rewrite app_nil_r. reflexivity.
  - rewrite IH. cbn. rewrite <- app_assoc. reflexivity.
  - rewrite IH. reflexivity.
Qed.

Lemma tally_counts (settled : list (outcome json)) (acc : ScanResponse) :
  (success_count (ScannerClient.tally settled acc)
   + failure_count (ScannerClient.tally settled acc)
   = success_count acc + failure_count acc + List.length settled)%nat.
Proof.
  revert acc. induction settled as [| [v | e] rest IH]; intros acc; cbn.
  - lia.
  - rewrite IH. cbn. destruct (ScannerClient.is_valid v); lia.
  - rewrite IH. cbn. lia.
Qed.

Lemma fulfilled_length (settled : list (outcome json)) :
  (List.length (fulfilled settled) <= List.length settled)%nat.
Proof. induction settled as [| [v | e] rest IH]; cbn; lia. Qed.

Lemma settle_length (binding : ScannerClient.Fetcher) (text : string)
  (scanners : list ScannerInfo) (i : nat) :
  List.length (fst (ScannerClient.settle binding i text scanners)) = List.length scanners.
Proof.
  revert i. induction scanners as [| scanner rest IH]; intros i; cbn; [reflexivity |].
  destruct (ScannerClient.callSingleScanAPI binding i text scanner) as [r sent].
  specialize (IH (S i)).
  destruct (ScannerClient.settle binding (S i) text rest) as [rs sent'].
  cbn in *. congruence.
Qed.

Lemma settle_sent (binding : ScannerClient.Fetcher) (text : string)
  (scanners : list ScannerInfo) (i : nat) :
  snd (ScannerClient.settle binding i text scanners)
  = if (ScannerClient.MAX_REQUEST_BODY_SIZE <? Js.length text)%N then []
    else map (request_for text) scanners.
Proof.
  revert i. induction scanners as [| scanner rest IH]; intros i; cbn [ScannerClient.settle].
  - destruct (_ <? _)%N; reflexivity.
  - specialize (IH (S i)).
    unfold ScannerClient.callSingleScanAPI.
    destruct (ScannerClient.settle binding (S i) text rest) as [rs sent'].
    cbn [snd] in IH.
    destruct (ScannerClient.MAX_REQUEST_BODY_SIZE <? Js.length text)%N;
      cbn [snd app map]; rewrite IH; reflexivity.
Qed.

Lemma settle_nth (binding : ScannerClient.Fetcher) (text : string)
  (scanners : list ScannerInfo) (k i : nat) :
  nth_error (fst (ScannerClient.settle binding k text scanners)) i
  = option_map (fun scanner => fst (ScannerClient.callSingleScanAPI binding (k + i) text scanner))
      (nth_error scanners i).
Proof.
  revert k i. induction scanners as [| scanner rest IH]; intros k i; cbn [ScannerClient.settle].
  - destruct i; reflexivity.
  - specialize (IH (S k)).
    destruct (ScannerClient.callSingleScanAPI binding k text scanner) as [r sent] eqn:Hcall.
    destruct (ScannerClient.settle binding (S k) text rest) as [rs sent'].
    cbn [fst] in *. destruct i as [| i]; cbn [nth_error option_map].
    + rewrite Nat.add_0_r, Hcall. reflexivity.
    + rewrite IH. replace (S k + i)%nat with (k + S i)%nat by lia. reflexivity.
Qed.

Lemma scan_sent (binding : ScannerClient.Fetcher) (text : string)
  (scanners : list ScannerInfo) :
  snd (ScannerClient.scan binding text scanners)
  = if (ScannerClient.MAX_REQUEST_BODY_SIZE <? Js.length text)%N then []
    else map (request_for text) scanners.
Proof.
  unfold ScannerClient.scan. destruct scanners as [| scanner rest].
  - cbn. destruct (_ <? _)%N; reflexivity.
  - pose proof (settle_sent binding text (scanner :: rest) 0) as Hsent.
    destruct (ScannerClient.settle binding 0 text (scanner :: rest)) as [settled sent].
    exact Hsent.
Qed.

(** X6. [scan] makes one call per scanner and loses none: the success
    and failure counts add up to the number of scanners and there are at
    most as many results.  Unless the text exceeds the size limit, it posts
    exactly one request per scanner, in the order of the list, each with
    the whole text and the type, name and configuration of its scanner;
    beyond the limit it posts nothing. *)
Theorem scan_accounts_for_every_scanner
  (binding : ScannerClient.Fetcher) (text : string) (scanners : list ScannerInfo) :
  let '(response, sent) := ScannerClient.scan binding text scanners in
  (success_count response + failure_count response = List.length scanners)%nat
  /\ (List.length (results response) <= List.length scanners)%nat
  /\ sent = if (ScannerClient.MAX_REQUEST_BODY_SIZE <? Js.length text)%N then []
            else map (request_for text) scanners.
Proof.
  unfold ScannerClient.scan.
  destruct scanners as [| scanner rest].
  - cbn. destruct (_ <? _)%N; auto.
  - pose proof (settle_length binding text (scanner :: rest) 0) as Hlen.
    pose proof (settle_sent binding text (scanner :: rest) 0) as Hsent.
    destruct (ScannerClient.settle binding 0 text (scanner :: rest)) as [settled sent].
    cbn [fst snd] in *.
    refine (conj _ (conj _ Hsent)).
    + rewrite tally_counts. cbn in *. lia.
    + rewrite tally_results. cbn [results ScannerClient.no_results app].
      pose proof (fulfilled_length settled). cbn in *. lia.
Qed.

(** A falsy value is a primitive, and prints. *)
Lemma falsy_prints (v : option json) :
  truthy_opt v = false -> succeeds (Coerce.ToString_opt v) = true.
Proof. destruct v as [[| [|] | x | s | items | fields] |]; cbn; congruence. Qed.

(** What a call returns, by the reply it got: the body of an OK reply
    that is not [null] and whose [is_valid] and [risk_score] print. *)
Lemma call_returns (binding : ScannerClient.Fetcher) (i : nat) (text : string)
  (scanner : ScannerInfo) (v : json) :
  fst (ScannerClient.callSingleScanAPI binding i text scanner) = Ret v
  <-> (Js.length text <= ScannerClient.MAX_REQUEST_BODY_SIZE)%N
      /\ binding i (request_for text scanner)
         = ScannerClient.Response true (ScannerClient.Body v)
      /\ v <> JNull
      /\ succeeds (Coerce.ToString_opt (get_opt (Some v) "is_valid")) = true
      /\ succeeds (Coerce.ToString_opt (get_opt (Some v) "risk_score")) = true.
Proof.
  unfold ScannerClient.callSingleScanAPI. fold (request_for text scanner).
  destruct (N.ltb_spec ScannerClient.MAX_REQUEST_BODY_SIZE (Js.length text)) as [Hbig | Hok].
  - split; [discriminate | intros (Hle & _); lia].
  - cbn [fst].
    destruct (binding i (request_for text scanner)) as [| [|] [| j]];
      try (split; [discriminate | intros (_ & H & _); discriminate]).
    destruct (Json.get j "is_valid") as [isValid | e] eqn:Hget.
    + assert (Hnonnull : j <> JNull) by (destruct j; cbn in Hget; congruence).
      assert (Hvalid : isValid = get_opt (Some j) "is_valid")
        by (destruct j; cbn in Hget |- *; congruence).
      assert (Hrisk : Json.get j "risk_score" = Ret (get_opt (Some j) "risk_score"))
        by (destruct j; cbn in Hget |- *; congruence).
      cbn [bind]. rewrite Hrisk, Hvalid.
      destruct (Coerce.ToString_opt (get_opt (Some j) "is_valid")) as [t1 | e1] eqn:H1;
        cbn [bind].
      * destruct (Coerce.ToString_opt (get_opt (Some j) "risk_score")) as [t2 | e2] eqn:H2;
          cbn [bind].
        -- split.
           ++ intros [= <-]. rewrite H1, H2. repeat split; auto.
           ++ intros (_ & [= <-] & _). reflexivity.
        -- split; [discriminate |].
           intros (_ & [= <-] & _ & _ & H). rewrite H2 in H. discriminate.
      * split; [discriminate |].
        intros (_ & [= <-] & _ & H & _). rewrite H1 in H. discriminate.
    + cbn [bind]. split; [discriminate |].
      intros (_ & [= <-] & Hnonnull & _). destruct j; cbn in Hget; congruence.
Qed.

Lemma call_refused (binding : ScannerClient.Fetcher) (i : nat) (text : string)
  (scanner : ScannerInfo) :
  (exists v, fst (ScannerClient.callSingleScanAPI binding i text scanner) = Ret v
             /\ ScannerClient.is_valid v = false)
  <-> (Js.length text <= ScannerClient.MAX_REQUEST_BODY_SIZE)%N
      /\ refuses (binding i (request_for text scanner)) = true.
Proof.
  split.
  - intros (v & Hv & Hinvalid). apply call_returns in Hv as (Hle & Hreply & Hnonnull & _ & Hrisk).
    split; [exact Hle |]. rewrite Hreply. unfold refuses.
    destruct v; try congruence; rewrite Hinvalid, Hrisk; reflexivity.
  - intros (Hle & Href). unfold refuses in Href.
    destruct (binding i (request_for text scanner)) as [| [|] [| j]] eqn:Hreply;
      try discriminate.
    assert (Hj : j <> JNull /\ ScannerClient.is_valid j = false
                 /\ succeeds (Coerce.ToString_opt (get_opt (Some j) "risk_score")) = true).
    { destruct j; try discriminate; apply andb_true_iff in Href as [H1 H2];
        apply negb_true_iff in H1; repeat split; auto; discriminate. }
    destruct Hj as (Hnonnull & Hinvalid & Hrisk).
    exists j. split; [| exact Hinvalid].
    apply call_returns. repeat split; auto.
    apply falsy_prints. exact Hinvalid.
Qed.

Lemma fulfilled_In (settled : list (outcome json)) (v : json) :
  In v (fulfilled settled) <-> exists i, nth_error settled i = Some (Ret v).
Proof.
  induction settled as [| [w | e] rest IH]; cbn.
  - split; [tauto | intros ([| i] & H); discriminate].
  - rewrite IH. split.
    + intros [-> | (i & Hi)]; [exists 0%nat; reflexivity | exists (S i); exact Hi].
    + intros ([| i] & Hi); cbn in Hi; [left; congruence | right; eauto].
  - rewrite IH. split.
    + intros (i & Hi). exists (S i). exact Hi.
    + intros ([| i] & Hi); cbn in Hi; [discriminate | eauto].
Qed.

(** The results of a scan are what the calls returned, in the order of
    the scanners. *)
Lemma scan_results (binding : ScannerClient.Fetcher) (text : string)
  (scanners : list ScannerInfo) (v : json) :
  In v (results (fst (ScannerClient.scan binding text scanners)))
  <-> exists i scanner,
        nth_error scanners i = Some scanner
        /\ fst (ScannerClient.callSingleScanAPI binding i text scanner) = Ret v.
Proof.
  unfold ScannerClient.scan. destruct scanners as [| s l].
  - cbn. split; [tauto | intros ([| i] & scanner & H & _); discriminate].
  - pose proof (settle_nth binding text (s :: l) 0) as Hnth.
    destruct (ScannerClient.settle binding 0 text (s :: l)) as [settled sent].
    cbn [fst] in *. rewrite tally_results. cbn [results ScannerClient.no_results app].
    rewrite fulfilled_In. split.
    + intros (i & Hi). rewrite Hnth in Hi.
      destruct (nth_error (s :: l) i) as [scanner |] eqn:Hscanner; [| discriminate].
      cbn in Hi. exists i, scanner. split; [exact Hscanner | congruence].
    + intros (i & scanner & Hscanner & Hcall). exists i.
      rewrite Hnth, Hscanner. cbn. rewrite Hcall. reflexivity.
Qed.

(** The loop over the results blocks on a rejected result only. *)
Lemma checkResults_blocks (logged : bool) (tasks : list PolicyValidator.ScannerTask)
  (scanResults : list json) (r : ValidationResult) :
  PolicyValidator.checkResults logged tasks scanResults = Ret r ->
  allowed r = false ->
  exists v, In v scanResults /\ ScannerClient.is_valid v = false.
Proof.
  induction scanResults as [| result rest IH]; cbn [PolicyValidator.checkResults].
  - intros [= <-]. discriminate.
  - destruct (if logged then _ else _) as [[] | e]; cbn [bind]; [| discriminate].
    destruct (ScannerClient.is_valid result) eqn:Hvalid; cbn [negb].
    + intros H Hr. destruct (IH H Hr) as (v & Hin & Hv). exists v. split; [right |]; auto.
    + intros _ _. exists result. split; [left; reflexivity | exact Hvalid].
Qed.

(** When every result prints, the loop returns, and blocks exactly when
    a result was rejected. *)
Lemma checkResults_returns (logged : bool) (tasks : list PolicyValidator.ScannerTask)
  (scanResults : list json) :
  (forall v, In v scanResults ->
     succeeds (Coerce.ToString_opt (get_opt (Some v) "scanner_name")) = true
     /\ succeeds (Coerce.ToString_opt (get_opt (Some v) "is_valid")) = true
     /\ succeeds (Coerce.ToString_opt (get_opt (Some v) "risk_score")) = true) ->
  exists r,
    PolicyValidator.checkResults logged tasks scanResults = Ret r
    /\ (allowed r = false
        <-> exists v, In v scanResults /\ ScannerClient.is_valid v = false).
Proof.
  induction scanResults as [| result rest IH]; intros Hprint;
    cbn [PolicyValidator.checkResults].
  - exists allow. split; [reflexivity |].
    split; [discriminate | intros (v & [] & _)].
  - destruct (Hprint result (or_introl eq_refl)) as (Hname & Hvalid & Hrisk).
    destruct (Coerce.ToString_opt (get_opt (Some result) "scanner_name"))
      as [nameText | e] eqn:HnameText; [| discriminate].
    destruct (Coerce.ToString_opt (get_opt (Some result) "is_valid"))
      as [validText | e] eqn:HvalidText; [| discriminate].
    destruct (Coerce.ToString_opt (get_opt (Some result) "risk_score"))
      as [riskText | e] eqn:HriskText; [| discriminate].
    assert (Hlog : (if logged then PolicyValidator.logResult result else Ret tt) = Ret tt).
    { destruct logged; [| reflexivity].
      unfold PolicyValidator.logResult. rewrite HnameText, HvalidText, HriskText.
      reflexivity. }
    rewrite Hlog. cbn [bind].
    destruct (ScannerClient.is_valid result) eqn:Hinvalid; cbn [negb].
    + destruct IH as (r & Hr & Hiff); [intros v Hv; apply Hprint; right; exact Hv |].
      exists r. split; [exact Hr |]. rewrite Hiff. split.
      * intros (v & Hin & Hv). exists v. split; [right |]; auto.
      * intros (v & [<- | Hin] & Hv); [congruence | eauto].
    + unfold PolicyValidator.scannerBlock. rewrite HnameText, HriskText. cbn [bind].
      eexists. split; [reflexivity |]. split; [| reflexivity].
      intros _. exists result. split; [left; reflexivity | exact Hinvalid].
Qed.

(** X7. The scanning step fails open, and blocks on a rejection only.
    A result it returns blocks only when the text is within the size
    limit and the reply to the request of some task is an OK response
    whose body is a JSON value other than [null] with a falsy [is_valid]
    (and a [risk_score] that prints): a call that fails, a response that
    is not OK and a body that is not JSON never block.  When the
    [scanner_name] of every OK reply prints, the step returns a result,
    and it blocks exactly then. *)
Theorem scanning_blocks_only_on_a_rejection
  (logged : bool) (binding : ScannerClient.Fetcher) (text : string)
  (tasks : list PolicyValidator.ScannerTask) :
  (forall r,
      fst (PolicyValidator.runScanners logged binding text tasks) = Ret r ->
      allowed r = false ->
      (Js.length text <= ScannerClient.MAX_REQUEST_BODY_SIZE)%N
      /\ exists i task,
           nth_error tasks i = Some task
           /\ refuses (binding i (request_for text (PolicyValidator.info task))) = true)
  /\ ((forall i task j,
          nth_error tasks i = Some task ->
          binding i (request_for text (PolicyValidator.info task))
          = ScannerClient.Response true (ScannerClient.Body j) ->
          succeeds (Coerce.ToString_opt (get_opt (Some j) "scanner_name")) = true) ->
      exists r,
        fst (PolicyValidator.runScanners logged binding text tasks) = Ret r
        /\ (allowed r = false
            <-> (Js.length text <= ScannerClient.MAX_REQUEST_BODY_SIZE)%N
                /\ exists i task,
                     nth_error tasks i = Some task
                     /\ refuses (binding i (request_for text (PolicyValidator.info task)))
                        = true)).
Proof.
  assert (Hresults :
    forall v,
      In v (results (fst (ScannerClient.scan binding text (map PolicyValidator.info tasks))))
      <-> exists i task,
            nth_error tasks i = Some task
            /\ fst (ScannerClient.callSingleScanAPI binding i text (PolicyValidator.info task))
               = Ret v).
  { intros v. rewrite scan_results. split.
    - intros (i & scanner & Hscanner & Hcall). rewrite nth_error_map in Hscanner.
      destruct (nth_error tasks i) as [task |] eqn:Htask; [| discriminate].
      injection Hscanner as <-. eauto.
    - intros (i & task & Htask & Hcall). exists i, (PolicyValidator.info task).
      rewrite nth_error_map, Htask. auto. }
  assert (Hrejected :
    (exists v,
        In v (results (fst (ScannerClient.scan binding text (map PolicyValidator.info tasks))))
        /\ ScannerClient.is_valid v = false)
    <-> (Js.length text <= ScannerClient.MAX_REQUEST_BODY_SIZE)%N
        /\ exists i task,
             nth_error tasks i = Some task
             /\ refuses (binding i (request_for text (PolicyValidator.info task))) = true).
  { split.
    - intros (v & Hin & Hv). apply Hresults in Hin as (i & task & Htask & Hcall).
      destruct (proj1 (call_refused binding i text (PolicyValidator.info task)))
        as [Hle Href]; [eauto |].
      split; [exact Hle | eauto].
    - intros (Hle & i & task & Htask & Href).
      destruct (proj2 (call_refused binding i text (PolicyValidator.info task)))
        as (v & Hv & Hinvalid); [auto |].
      exists v. split; [| exact Hinvalid]. apply Hresults. eauto. }
  unfold PolicyValidator.runScanners.
  destruct tasks as [| t tasks].
  - split.
    + intros r [= <-]. discriminate.
    + intros _. exists allow. split; [reflexivity |].
      split; [discriminate | intros (_ & [| i] & task & H & _); discriminate].
  - cbv beta iota.
    destruct (ScannerClient.scan binding text (map PolicyValidator.info (t :: tasks)))
      as [scanResponse sent].
    cbn [fst] in *. split.
    + intros r Hr Hblock. apply Hrejected.
      apply (checkResults_blocks logged (t :: tasks) (results scanResponse) r Hr Hblock).
    + intros Hnames.
      destruct (checkResults_returns logged (t :: tasks) (results scanResponse))
        as (r & Hr & Hiff).
      * intros v Hin. apply Hresults in Hin as (i & task & Htask & Hcall).
        apply call_returns in Hcall as (_ & Hreply & _ & Hvalid & Hrisk).
        repeat split; auto. apply (Hnames i task v Htask Hreply).
      * exists r. split; [exact Hr |]. rewrite Hiff. exact Hrejected.
Qed.

End ScannerAccounting.

Section OrchestratorScope.
Context `{RT : JsRuntime}.
Import Js Types Coerce.

Lemma tasksOfRule_scanned (ty : string) (policy : Policy) (rule : FilterRule) :
  PolicyValidator.tasksOfRule ty policy rule
  = if String.eqb (type rule) "harmfulCategories" then
      [{| PolicyValidator.info :=
            {| scanner_type := ty; scanner_name := "Toxicity";
               scanner_config := PolicyValidator.config_or_empty rule |};
          PolicyValidator.policyId := id policy;
          PolicyValidator.policyName := name policy |}]
    else if String.eqb (type rule) "promptAttacks" then
      [{| PolicyValidator.info :=
            {| scanner_type := ty; scanner_name := "PromptInjection";
               scanner_config := PolicyValidator.config_or_empty rule |};
          PolicyValidator.policyId := id policy;
          PolicyValidator.policyName := name policy |}]
    else [].
Proof.
  unfold PolicyValidator.tasksOfRule, ScannerClient.isScannerFilterType,
    ScannerClient.getScannersForFilterType.
  cbn [existsb].
  destruct (String.eqb (type rule) "harmfulCategories") eqn:H1; [reflexivity |].
  destruct (String.eqb (type rule) "promptAttacks") eqn:H2; [reflexivity |].
  cbn [orb].
  destruct (String.eqb (type rule) "deniedTopics") eqn:H3; [| reflexivity].
  apply String.eqb_eq in H3. rewrite H3. reflexivity.
Qed.

Lemma tasks_ignore_other_rules (ty : string) (policy : Policy) (rules : list FilterRule) :
  flat_map (PolicyValidator.tasksOfRule ty policy)
    (List.filter (fun rule => is_scanned_type (type rule)) rules)
  = flat_map (PolicyValidator.tasksOfRule ty policy) rules.
Proof.
  induction rules as [| rule rules IH]; [reflexivity |].
  cbn [List.filter flat_map]. unfold is_scanned_type at 1.
  rewrite (tasksOfRule_scanned ty policy rule).
  destruct (String.eqb (type rule) "harmfulCategories") eqn:H1; cbn [orb].
  - cbn [flat_map]. rewrite (tasksOfRule_scanned ty policy rule), H1, IH. reflexivity.
  - destruct (String.eqb (type rule) "promptAttacks") eqn:H2.
    + cbn [flat_map]. rewrite (tasksOfRule_scanned ty policy rule), H1, H2, IH. reflexivity.
    + exact IH.
Qed.

Lemma collectTasks_scanned_rules_only (ty : string) (policies : list Policy) :
  (PolicyValidator.collectTasks ty requestPayload (map scanned_rules_only policies)
   = PolicyValidator.collectTasks ty requestPayload policies)
  /\ (PolicyValidator.collectTasks ty responsePayload (map scanned_rules_only policies)
      = PolicyValidator.collectTasks ty responsePayload policies).
Proof.
  unfold PolicyValidator.collectTasks.
  split; induction policies as [| policy policies IH]; try reflexivity;
    cbn [map flat_map]; rewrite IH; f_equal;
    cbn [active scanned_rules_only filters requestPayload responsePayload];
    destruct (active policy); try reflexivity.
  - destruct (requestPayload (filters policy)) as [rules |]; [| reflexivity].
    cbn [option_map default]. apply (tasks_ignore_other_rules ty policy rules).
  - destruct (responsePayload (filters policy)) as [rules |]; [| reflexivity].
    cbn [option_map default]. apply (tasks_ignore_other_rules ty policy rules).
Qed.

Lemma audit_ignores_policies (now : Z) (payload : string) (valCtx : ValidationContext)
  (policies : list Policy) :
  AuditValidator.validateRequest now payload (MCPProcessor.with_policies valCtx policies)
  = AuditValidator.validateRequest now payload valCtx.
Proof. reflexivity. Qed.

(** X8. Only [harmfulCategories] and [promptAttacks] rules take part in a
    decision of the orchestrator.  Dropping every other rule ([pii],
    [regex], [banTopics], [banSubstrings], [deniedTopics], ...) from the
    policies of the context changes neither the result of
    [validateRequest] or [validateResponse] nor anything they do. *)
Theorem orchestrator_ignores_other_rule_types
  (binding : ScannerClient.Fetcher) (now : Z) (payload : string)
  (valCtx : ValidationContext) (policies : list Policy) :
  PolicyValidator.validateRequest binding now payload
    (MCPProcessor.with_policies valCtx (map scanned_rules_only policies))
  = PolicyValidator.validateRequest binding now payload
      (MCPProcessor.with_policies valCtx policies)
  /\ PolicyValidator.validateResponse binding payload
       (MCPProcessor.with_policies valCtx (map scanned_rules_only policies))
     = PolicyValidator.validateResponse binding payload
         (MCPProcessor.with_policies valCtx policies).
Proof.
  destruct (collectTasks_scanned_rules_only "prompt" policies) as [Hreq _].
  destruct (collectTasks_scanned_rules_only "output" policies) as [_ Hresp].
  split.
  - unfold PolicyValidator.validateRequest, PolicyValidator.guardrails.
    rewrite !audit_ignores_policies.
    cbn [MCPProcessor.with_policies Types.policies default from_option
         hasAuditRules auditPolicies].
    unfold Datatypes.id. rewrite Hreq. reflexivity.
  - unfold PolicyValidator.validateResponse.
    cbn [MCPProcessor.with_policies Types.policies default from_option].
    unfold Datatypes.id. rewrite Hresp. reflexivity.
Qed.

Lemma scanner_block_unmodified (tasks : list PolicyValidator.ScannerTask) (result : json) :
  returns unmodified (PolicyValidator.scannerBlock tasks result).
Proof.
  unfold PolicyValidator.scannerBlock.
  apply returns_bind. intros nameText _. apply returns_bind. intros riskText _.
  split; reflexivity.
Qed.

Lemma checked_results_unmodified (logged : bool) (tasks : list PolicyValidator.ScannerTask)
  (scanResults : list json) :
  returns unmodified (PolicyValidator.checkResults logged tasks scanResults).
Proof.
  induction scanResults as [| result rest IH]; [split; reflexivity |].
  cbn [PolicyValidator.checkResults].
  apply returns_bind. intros _ _.
  destruct (negb (ScannerClient.is_valid result));
    [apply scanner_block_unmodified | exact IH].
Qed.

Lemma scanning_step_unmodified (logged : bool) (binding : ScannerClient.Fetcher)
  (text : string) (tasks : list PolicyValidator.ScannerTask) :
  returns unmodified (fst (PolicyValidator.runScanners logged binding text tasks)).
Proof.
  unfold PolicyValidator.runScanners.
  destruct tasks as [| t tasks]; [split; reflexivity |].
  cbv beta iota.
  destruct (ScannerClient.scan binding text (map PolicyValidator.info (t :: tasks)))
    as [scanResponse sent].
  apply checked_results_unmodified.
Qed.

Lemma audit_policy_unmodified (now : Z) (policy : AuditPolicy) (valCtx : ValidationContext) :
  unmodified (policyVerdict now policy valCtx).
Proof.
  unfold policyVerdict, AuditValidator.validateConditionalApproval.
  repeat match goal with
         | |- context [if ?b then _ else _] => destruct b
         | |- context [match ?x with Some _ => _ | None => _ end] => destruct x
         end; split; reflexivity.
Qed.

Lemma audit_result_unmodified (now : Z) (payload : string) (valCtx : ValidationContext) :
  returns (when_some unmodified) (AuditValidator.validateRequest now payload valCtx).
Proof.
  unfold AuditValidator.validateRequest.
  destruct (JSON_parse payload) as [requestData |]; [| exact I].
  apply returns_bind. intros resourceName _.
  destruct (negb (truthy resourceName)); [exact I |].
  apply returns_bind. intros [serverResult |] Hserver.
  - revert Hserver. unfold AuditValidator.serverBlock.
    destruct (truthy_ostring (mcpServerName valCtx)); [| discriminate].
    destruct (AuditValidator.lookupPolicy valCtx _) as [serverPolicy |]; [| discriminate].
    rewrite validateWithPolicy_prints.
    destruct (ToString resourceName) as [key | e]; [| discriminate]. cbn [bind].
    destruct (negb (allowed _)); [| discriminate].
    intros [= <-]. apply audit_policy_unmodified.
  - apply returns_bind. intros [policy |] _; [| exact I].
    rewrite validateWithPolicy_prints.
    apply returns_bind. intros result Hresult.
    destruct (ToString resourceName) as [key | e]; [| discriminate].
    cbn [bind] in Hresult. injection Hresult as <-. apply audit_policy_unmodified.
Qed.

Lemma request_result_unmodified (binding : ScannerClient.Fetcher) (now : Z)
  (payload : string) (valCtx : ValidationContext) :
  returns unmodified (fst (PolicyValidator.validateRequest binding now payload valCtx)).
Proof.
  unfold PolicyValidator.validateRequest.
  destruct (negb (truthy_string payload)); [split; reflexivity |].
  assert (Hg : returns unmodified (fst (PolicyValidator.guardrails binding payload valCtx))).
  { unfold PolicyValidator.guardrails.
    destruct (negb (truthy_string _)); [split; reflexivity |].
    pose proof (scanning_step_unmodified true binding
                  (PolicyValidator.extractUserControlledFields payload)
                  (PolicyValidator.collectTasks "prompt" requestPayload
                     (default [] (policies valCtx)))) as H.
    destruct (PolicyValidator.runScanners _ _ _ _) as [r trace]. exact H. }
  pose proof (audit_result_unmodified now payload valCtx) as Ha.
  destruct (default false (hasAuditRules valCtx) && bool_decide (is_Some (auditPolicies valCtx)));
    [| exact Hg].
  destruct (AuditValidator.validateRequest now payload valCtx) as [[auditResult |] | e];
    cbn in *; auto.
  destruct (negb (allowed auditResult)); cbn; auto.
Qed.

Lemma response_result_unmodified (binding : ScannerClient.Fetcher)
  (payload : string) (valCtx : ValidationContext) :
  returns unmodified (fst (PolicyValidator.validateResponse binding payload valCtx)).
Proof.
  unfold PolicyValidator.validateResponse.
  destruct (negb (truthy_string payload)); [split; reflexivity |].
  apply scanning_step_unmodified.
Qed.

(** X9. The orchestrator never rewrites a message: whatever the
    policies, the audit policies and the replies of the scanners, a result
    of [validateRequest] or [validateResponse] has [modified] false and no
    [modifiedPayload]; a [redact] action configured in a rule is never
    applied on this path. *)
Theorem orchestrator_never_modifies
  (binding : ScannerClient.Fetcher) (now : Z) (payload : string)
  (valCtx : ValidationContext) :
  returns unmodified (fst (PolicyValidator.validateRequest binding now payload valCtx))
  /\ returns unmodified (fst (PolicyValidator.validateResponse binding payload valCtx)).
Proof.
  split; [apply request_result_unmodified | apply response_result_unmodified].
Qed.

End OrchestratorScope.

Section Extractor.
Context `{RT : JsRuntime}.
Import Js Types Coerce.

(** The runtime never serialises an array to the empty string. *)
Hypothesis array_text_is_not_empty :
  forall items : list json, JSON_stringify (JArr items) <> EmptyString.

Lemma tool_frame_not_empty (toolName arguments : string) :
  PolicyValidator.tool_frame toolName arguments <> EmptyString.
Proof. unfold PolicyValidator.tool_frame. discriminate. Qed.

Lemma stringify_or_payload_not_empty (userFields : list json) (fullPayload : string) :
  fullPayload <> EmptyString ->
  PolicyValidator.stringify_or_payload userFields fullPayload <> EmptyString.
Proof.
  intros H. unfold PolicyValidator.stringify_or_payload.
  destruct userFields; [exact H | apply array_text_is_not_empty].
Qed.

Lemma extractFromParams_not_empty (method params : json) (fullPayload : string) :
  fullPayload <> EmptyString ->
  returns (fun s => s <> EmptyString)
    (PolicyValidator.extractFromParams method params fullPayload).
Proof.
  intros H. unfold PolicyValidator.extractFromParams.
  destruct (match method with JStr s => String.eqb s "tools/call" | _ => false end).
  - destruct (truthy_opt _ && truthy_opt _).
    + apply returns_bind. intros name _. apply tool_frame_not_empty.
    + destruct (truthy_opt _); [| exact H].
      apply returns_bind. intros name _. apply tool_frame_not_empty.
  - destruct (_ || _).
    + destruct (if truthy_opt _ then _ else _) as [contents | e]; [| exact I].
      cbn [bind returns]. apply stringify_or_payload_not_empty, H.
    + destruct (match method with JStr s => String.eqb s "resources/read" | _ => false end);
        cbn [returns]; apply stringify_or_payload_not_empty, H.
Qed.

(** X10. Only a safe method empties the text to scan.  When
    [extractUserControlledFields] returns the empty string for a payload
    that is not empty, the payload is JSON whose [method] is one of the
    safe MCP methods; for every other payload -- not JSON, without a
    method or parameters, or naming any other method -- the extractor
    returns a non-empty text, so the guardrails cannot be skipped by
    shaping the request. *)
Theorem only_safe_methods_skip_the_scan (payload : string) :
  payload <> EmptyString ->
  PolicyValidator.extractUserControlledFields payload = EmptyString ->
  exists request m,
    JSON_parse payload = Some request
    /\ get request "method" = Ret (Some (JStr m))
    /\ In m PolicyValidator.SAFE_MCP_METHODS.
Proof.
  intros Hne. unfold PolicyValidator.extractUserControlledFields.
  destruct payload as [| c payload]; [congruence |]. cbn [truthy_string negb].
  set (text := String c payload) in *.
  unfold parse. destruct (JSON_parse text) as [request |]; [| intros H; cbn in H; congruence].
  cbn [bind].
  destruct (get request "method") as [method | e] eqn:Hmethod;
    [| intros H; cbn in H; congruence].
  cbn [bind].
  destruct (truthy_opt method) eqn:Htruthy; cbn [negb];
    [| intros H; cbn in H; congruence].
  destruct (PolicyValidator.isSafeMCPMethod (default JNull method)) eqn:Hsafe.
  - intros _. destruct method as [[| b | x | m | items | fields] |]; try discriminate.
    exists request, m. refine (conj eq_refl (conj Hmethod _)).
    unfold PolicyValidator.isSafeMCPMethod in Hsafe.
    cbn [default from_option Datatypes.id] in Hsafe.
    apply existsb_exists in Hsafe as (m' & Hin & Heq).
    apply String.eqb_eq in Heq. subst. exact Hin.
  - destruct (get request "params") as [params | e]; [| intros H; cbn in H; congruence].
    cbn [bind].
    destruct (negb (truthy_opt params)); [intros H; cbn in H; congruence |].
    pose proof (extractFromParams_not_empty (default JNull method) (default JNull params)
                  text Hne) as Hext.
    destruct (PolicyValidator.extractFromParams _ _ text) as [s | e];
      intros H; cbn in H, Hext; congruence.
Qed.

End Extractor.

Section SentRequests.
Context `{RT : JsRuntime}.
Import Js Types Coerce.

Lemma collected_task (ty : string) (side : PolicyFilters -> option (list FilterRule))
  (policies : list Policy) (task : PolicyValidator.ScannerTask) :
  In task (PolicyValidator.collectTasks ty side policies) ->
  exists policy rule,
    In policy policies /\ active policy = true
    /\ In rule (default [] (side (filters policy)))
    /\ scanner_type (PolicyValidator.info task) = ty
    /\ scanner_config (PolicyValidator.info task) = PolicyValidator.config_or_empty rule
    /\ PolicyValidator.policyId task = id policy
    /\ ((type rule = "harmfulCategories"%string
         /\ scanner_name (PolicyValidator.info task) = "Toxicity"%string)
        \/ (type rule = "promptAttacks"%string
            /\ scanner_name (PolicyValidator.info task) = "PromptInjection"%string)).
Proof.
  unfold PolicyValidator.collectTasks. rewrite in_flat_map.
  intros (policy & Hpolicy & Htask).
  destruct (active policy) eqn:Hactive; [| destruct Htask].
  apply in_flat_map in Htask as (rule & Hrule & Htask).
  rewrite tasksOfRule_scanned in Htask.
  exists policy, rule.
  destruct (String.eqb (type rule) "harmfulCategories") eqn:H1.
  - destruct Htask as [<- | []]. apply String.eqb_eq in H1.
    repeat split; auto.
  - destruct (String.eqb (type rule) "promptAttacks") eqn:H2; [| destruct Htask].
    destruct Htask as [<- | []]. apply String.eqb_eq in H2.
    repeat split; auto.
Qed.

Lemma scanning_step_sent (logged : bool) (binding : ScannerClient.Fetcher) (text : string)
  (tasks : list PolicyValidator.ScannerTask) (req : SingleScanRequest) :
  In (PolicyValidator.Sent req) (snd (PolicyValidator.runScanners logged binding text tasks)) ->
  (Js.length text <= ScannerClient.MAX_REQUEST_BODY_SIZE)%N
  /\ exists task, In task tasks /\ req = request_for text (PolicyValidator.info task).
Proof.
  unfold PolicyValidator.runScanners.
  destruct tasks as [| t tasks]; [intros [] |].
  cbv beta iota.
  pose proof (scan_sent binding text (map PolicyValidator.info (t :: tasks))) as Hsent.
  destruct (ScannerClient.scan binding text (map PolicyValidator.info (t :: tasks)))
    as [scanResponse sent].
  cbn [snd] in *.
  intros [H | H]; [discriminate |].
  apply in_map_iff in H as (req' & Heq & Hin). injection Heq as ->.
  rewrite Hsent in Hin.
  destruct (N.ltb_spec ScannerClient.MAX_REQUEST_BODY_SIZE (Js.length text)); [destruct Hin |].
  split; [assumption |].
  rewrite map_map in Hin. apply in_map_iff in Hin as (task & Heq & Hin). eauto.
Qed.

(** X11. Every request [validateRequest] sends to the model executor
    carries the text the extractor produced for the payload, within the
    size limit, with scanner type [prompt]; it comes from a
    [harmfulCategories] rule (scanner [Toxicity]) or a [promptAttacks]
    rule (scanner [PromptInjection]) of the request rules of an active
    policy of the context, and carries the configuration of the rule, or
    the empty object when the rule has none or a falsy one. *)
Theorem requests_come_from_active_scanner_rules
  (binding : ScannerClient.Fetcher) (now : Z) (payload : string)
  (valCtx : ValidationContext) (req : SingleScanRequest) :
  In (PolicyValidator.Sent req)
    (snd (PolicyValidator.validateRequest binding now payload valCtx)) ->
  req_text req = PolicyValidator.extractUserControlledFields payload
  /\ (Js.length (req_text req) <= ScannerClient.MAX_REQUEST_BODY_SIZE)%N
  /\ req_scanner_type req = "prompt"%string
  /\ exists policy rule,
       In policy (default [] (policies valCtx)) /\ active policy = true
       /\ In rule (default [] (requestPayload (filters policy)))
       /\ req_config req = PolicyValidator.config_or_empty rule
       /\ ((type rule = "harmfulCategories"%string /\ req_scanner_name req = "Toxicity"%string)
           \/ (type rule = "promptAttacks"%string
               /\ req_scanner_name req = "PromptInjection"%string)).
Proof.
  intros Hin.
  assert (Hg : In (PolicyValidator.Sent req)
                 (snd (PolicyValidator.guardrails binding payload valCtx))).
  { revert Hin. unfold PolicyValidator.validateRequest.
    destruct (negb (truthy_string payload)); [intros [] |].
    destruct (if _ && _ then _ else _) as [[auditResult |] | e]; cbn [snd];
      try (intros []); try (intros H; exact H).
    destruct (negb (allowed auditResult)); cbn [snd]; [intros [] | auto]. }
  revert Hg. unfold PolicyValidator.guardrails.
  destruct (negb (truthy_string _)).
  { intros [H | []]. discriminate. }
  pose proof (scanning_step_sent true binding
                (PolicyValidator.extractUserControlledFields payload)
                (PolicyValidator.collectTasks "prompt" requestPayload
                   (default [] (policies valCtx))) req) as Hsent.
  destruct (PolicyValidator.runScanners _ _ _ _) as [r trace]. cbn [snd] in *.
  intros [H | H]; [discriminate |].
  destruct (Hsent H) as (Hlen & task & Htask & ->).
  apply collected_task in Htask
    as (policy & rule & Hpolicy & Hactive & Hrule & Hty & Hcfg & _ & Hname).
  cbn [request_for req_text req_scanner_type req_config req_scanner_name].
  repeat split; auto.
  exists policy, rule. repeat split; auto.
Qed.

End SentRequests.

Lemma only_safe_methods_skip_the_scan_witness :
  exists request m,
    JSON_parse (JsRuntime := reference) Scenario.ping = Some request
    /\ get request "method" = Js.Ret (Some (JStr m))
    /\ In m PolicyValidator.SAFE_MCP_METHODS.
Proof.
  apply (only_safe_methods_skip_the_scan (RT := reference)).
  - intros items. simpl. discriminate.
  - discriminate.
  - vm_compute. reflexivity.
Defined.

Lemma requests_come_from_active_scanner_rules_witness :
  let valCtx :=
    Scenario.context None [Scenario.rule "harmfulCategories" None (Some "block"%string)] [] in
  let req :=
    request_for (PolicyValidator.tool_frame "read_file" "{}")
      {| Types.scanner_type := "prompt"; Types.scanner_name := "Toxicity";
         Types.scanner_config := JObj [] |} in
  Types.req_text req
  = PolicyValidator.extractUserControlledFields (RT := reference) (Scenario.call "read_file")
  /\ (Js.length (Types.req_text req) <= ScannerClient.MAX_REQUEST_BODY_SIZE)%N
  /\ Types.req_scanner_type req = "prompt"%string
  /\ exists policy rule,
       In policy (default [] (Types.policies valCtx)) /\ Types.active policy = true
       /\ In rule (default [] (Types.requestPayload (Types.filters policy)))
       /\ Types.req_config req = PolicyValidator.config_or_empty rule
       /\ ((Types.type rule = "harmfulCategories"%string
            /\ Types.req_scanner_name req = "Toxicity"%string)
           \/ (Types.type rule = "promptAttacks"%string
               /\ Types.req_scanner_name req = "PromptInjection"%string)).
Proof.
  intros valCtx req.
  apply (requests_come_from_active_scanner_rules (RT := reference) Scenario.rejecting 0
           (Scenario.call "read_file") valCtx req).
  vm_compute. right. right. left. reflexivity.
Defined.

(* ================================================================== *)
(** * Guardrail policies and the request processor *)
(* ================================================================== *)

Section GuardrailPolicies.
Context `{RT : JsRuntime}.
Import Js Types Coerce.
Import PolicyManager.

Lemma pushed_type (flag : option bool) (rule r : FilterRule) :
  In r (pushed flag rule) -> r = rule.
Proof.
  unfold pushed. destruct (default false flag); [intros [<- | []]; reflexivity | intros []].
Qed.

(** The response rules of a converted policy are of the four types that
    never reach a scanner. *)
Lemma response_rule_types (gp : GuardrailsPolicy) (flag : option bool) (r : FilterRule) :
  In r (rulesFor gp flag false) ->
  In (type r) ["banTopics"; "banSubstrings"; "pii"; "regex"]%string.
Proof.
  unfold rulesFor. cbn [andb app].
  rewrite !in_app_iff. intros [H | [H | H]].
  - destruct (deniedTopics gp) as [[| dt more] |]; try destruct H.
    apply in_app_iff in H as [H | H].
    + apply pushed_type in H. subst. cbn. auto.
    + destruct (flat_map samplePhrases (dt :: more)); [destruct H |].
      apply pushed_type in H. subst. cbn. auto.
  - apply in_flat_map in H as (piiType & _ & H). apply pushed_type in H. subst. cbn. auto.
  - apply in_flat_map in H as (regexPattern & _ & H). apply pushed_type in H.
    subst. cbn. auto.
Qed.

Lemma converted_response_tasks (ty : string) (gp : GuardrailsPolicy) :
  flat_map (PolicyValidator.tasksOfRule ty (convertGuardrailsToPolicy gp))
    (rulesFor gp (applyOnResponse gp) false) = [].
Proof.
  assert (H : forall rules,
             (forall r, In r rules ->
                        In (type r) ["banTopics"; "banSubstrings"; "pii"; "regex"]%string) ->
             flat_map (PolicyValidator.tasksOfRule ty (convertGuardrailsToPolicy gp)) rules
             = []).
  { induction rules as [| r rules IH]; intros Hall; [reflexivity |].
    cbn [flat_map]. rewrite IH by (intros r' Hr'; apply Hall; right; exact Hr').
    rewrite tasksOfRule_scanned.
    destruct (Hall r (or_introl eq_refl)) as [<- | [<- | [<- | [<- | []]]]]; reflexivity. }
  apply H. intros r. apply response_rule_types.
Qed.

Lemma activePolicies_converted (entries : list (option GuardrailsPolicy))
  (policies : list Policy) :
  activePolicies entries = Ret policies ->
  exists gps,
    entries = map Some gps
    /\ policies
       = map convertGuardrailsToPolicy
           (List.filter (fun gp => default false (gp_active gp)) gps).
Proof.
  revert policies. induction entries as [| [gp |] rest IH]; intros policies; cbn.
  - intros [= <-]. exists []. split; reflexivity.
  - destruct (activePolicies rest) as [more | e]; [| discriminate].
    cbn [bind]. intros [= <-].
    destruct (IH more eq_refl) as (gps & -> & ->).
    exists (gp :: gps). split; [reflexivity |].
    cbn [List.filter]. destruct (default false (gp_active gp)); reflexivity.
  - discriminate.
Qed.

(** X12. What [fetchGuardrailPolicies] returns, when it returns: the
    body held a list without [null] entries, the result is the
    conversion of its active entries in their order, and every policy
    in it is active and carries the one id [MCPGuardrails].  A reply that
    is not OK, a body that is not JSON or is [null], and a [null] entry make it
    throw. *)
Theorem fetched_policies_are_the_active_ones
  (reply : guardrailResponse) (policies : list Policy) :
  fetchGuardrailPolicies reply = Ret policies ->
  exists gps,
    (reply = GuardrailResponse true (GuardrailBody (Some (map Some gps)))
     \/ (reply = GuardrailResponse true (GuardrailBody None) /\ gps = []))
    /\ policies
       = map convertGuardrailsToPolicy
           (List.filter (fun gp => default false (gp_active gp)) gps)
    /\ Forall (fun policy => active policy = true /\ id policy = "MCPGuardrails"%string)
         policies.
Proof.
  destruct reply as [| [|] [| | [entries |]]]; cbn; try discriminate.
  - intros H. apply activePolicies_converted in H as (gps & -> & ->).
    exists gps. refine (conj (or_introl eq_refl) (conj eq_refl _)).
    apply List.Forall_forall. intros policy Hin.
    apply in_map_iff in Hin as (gp & <- & Hgp).
    apply filter_In in Hgp as [_ Hactive].
    cbn. split; [exact Hactive | reflexivity].
  - intros [= <-]. exists []. refine (conj (or_intror (conj eq_refl eq_refl)) (conj eq_refl _)).
    constructor.
Qed.

Lemma fetched_response_tasks (ty : string) (gps : list GuardrailsPolicy) :
  PolicyValidator.collectTasks ty responsePayload (map convertGuardrailsToPolicy gps) = [].
Proof.
  unfold PolicyValidator.collectTasks.
  induction gps as [| gp gps IH]; [reflexivity |].
  cbn [map flat_map]. rewrite IH, app_nil_r.
  destruct (active (convertGuardrailsToPolicy gp)); [| reflexivity].
  apply converted_response_tasks.
Qed.

(** X13. Under the policies the policy backend delivers, responses are
    never scanned: whatever its guardrail policies say, for every response
    payload and every state of the model executor [validateResponse]
    allows without starting a scan, and [processResponse] forwards the
    response, reports nothing and leaves the response payload of the
    context as the response it was given. *)
Theorem fetched_policies_never_scan_responses
  (reply : guardrailResponse) (policies : list Policy)
  (p : MCPProcessor.processor) (later : Z) (payload : string) (valCtx : ValidationContext) :
  fetchGuardrailPolicies reply = Ret policies ->
  PolicyValidator.validateResponse (MCPProcessor.modelExecutorBinding p) payload
    (MCPProcessor.with_policies valCtx policies) = (Ret allow, [])
  /\ let run := MCPProcessor.processResponse p later payload valCtx policies in
     (exists data, MCPProcessor.answer run = Ret (MCPProcessor.forwarded data None))
     /\ MCPProcessor.reports run = []
     /\ MCPProcessor.events run = []
     /\ (ctx_responsePayload (MCPProcessor.context run) = Some payload
         \/ MCPProcessor.context run = valCtx).
Proof.
  intros Hfetch.
  assert (Htasks : forall ctx,
            PolicyValidator.validateResponse (MCPProcessor.modelExecutorBinding p) payload
              (MCPProcessor.with_policies ctx policies) = (Ret allow, [])).
  { intros ctx. unfold PolicyValidator.validateResponse.
    destruct (negb (truthy_string payload)); [reflexivity |].
    cbn [MCPProcessor.with_policies Types.policies default from_option]. unfold Datatypes.id.
    replace (PolicyValidator.collectTasks "output" responsePayload policies) with
      (@nil PolicyValidator.ScannerTask); [reflexivity |].
    destruct reply as [| [|] [| | [entries |]]]; cbn in Hfetch; try discriminate.
    - apply activePolicies_converted in Hfetch as (gps & _ & ->).
      symmetry. apply fetched_response_tasks.
    - injection Hfetch as <-. reflexivity. }
  split; [apply Htasks |].
  unfold MCPProcessor.processResponse.
  destruct (negb (truthy_string payload)); cbn zeta.
  { cbn. eauto 6. }
  destruct (JSON_parse payload) as [responseData |]; [| cbn; eauto 6].
  destruct (MCPProcessor.skipThreat p); [cbn; eauto 6 |].
  rewrite Htasks. unfold MCPProcessor.conclude. cbn. eauto 6.
Qed.

End GuardrailPolicies.

Section Processor.
Context `{RT : JsRuntime}.
Import Js Types Coerce.
Import MCPProcessor.

Lemma or_string_truthy (why fallback : string) :
  why <> EmptyString -> or_string (Some why) fallback = why.
Proof. destruct why; [congruence | reflexivity]. Qed.

(** X14. What [processRequest] does with a request.  A payload that is
    empty or not JSON, and every payload when threat detection is
    skipped, is forwarded without the validator being run: nothing is
    scanned, nothing is reported and the context is left alone.
    Otherwise the result follows the validator: [shouldForward] is the
    negation of [isBlocked], the payload is never rewritten, a forwarded
    request has no blocked response and is not reported, and a blocked
    request is one the validator refused with a non-empty reason: its
    response is the JSON-RPC error built from the payload and that
    reason, the context takes the text of that response as its response
    payload, and exactly one report is started when a token is
    configured, none otherwise. *)
Theorem processRequest_follows_the_validator
  (p : processor) (now later : Z) (raw : string) (valCtx : ValidationContext)
  (ps : list Policy) (audits : gmap string AuditPolicy) (hasRules : bool) :
  let run := processRequest p now later raw valCtx ps audits hasRules in
  let valCtx1 :=
    with_audit (with_policies (with_requestPayload valCtx raw) ps) audits hasRules in
  (JSON_parse raw = None \/ skipThreat p = true ->
   events run = [] /\ reports run = [] /\ context run = valCtx
   /\ exists data, answer run = Ret (forwarded data None))
  /\ returns
       (fun result =>
          shouldForward result = negb (isBlocked result)
          /\ pr_modifiedPayload result = None
          /\ (isBlocked result = false ->
              blockedResponse result = None /\ reports run = []
              /\ ctx_responsePayload (context run) = ctx_responsePayload valCtx)
          /\ (isBlocked result = true ->
              exists r why,
                fst (PolicyValidator.validateRequest (modelExecutorBinding p) now raw valCtx1)
                = Ret r
                /\ allowed r = false /\ reason r = Some why /\ why <> EmptyString
                /\ blockedResponse result
                   = Some (PolicyValidator.createBlockedResponse raw why)
                /\ ctx_responsePayload (context run)
                   = Some (JSON_stringify (PolicyValidator.createBlockedResponse raw why))
                /\ reports run
                   = if truthy_string (tbsToken p)
                     then [ThreatReporter.reportThreat later r (context run) (tbsToken p)]
                     else []))
       (answer run).
Proof.
  cbv zeta. unfold processRequest.
  destruct (truthy_string raw) eqn:Hraw; cbn [negb].
  2: { destruct raw; [| discriminate]. cbn.
       split; [eauto 6 | repeat split; auto; discriminate]. }
  destruct (JSON_parse raw) as [requestData |] eqn:Hparse.
  2: { cbn. split; [eauto 6 | repeat split; auto; discriminate]. }
  destruct (skipThreat p) eqn:Hskip.
  { cbn. split; [eauto 6 | repeat split; auto; discriminate]. }
  split; [intros [H | H]; discriminate |].
  set (valCtx1 := with_audit _ audits hasRules).
  pose proof (request_result_well_formed (modelExecutorBinding p) now raw valCtx1) as Hwf.
  pose proof (request_result_unmodified (modelExecutorBinding p) now raw valCtx1) as Hun.
  destruct (PolicyValidator.validateRequest (modelExecutorBinding p) now raw valCtx1)
    as [[r | e] trace]; [| exact I].
  cbn [fst returns] in Hwf, Hun. destruct Hun as [Hmod _]. destruct Hwf as [Hwhy _].
  unfold conclude. rewrite Hmod. cbn [andb].
  destruct (allowed r) eqn:Hallowed; cbn [negb returns answer context reports].
  - cbn. repeat split; auto; discriminate.
  - destruct (Hwhy eq_refl) as (why & Hreason & Hne).
    rewrite Hreason, (or_string_truthy why _ Hne).
    cbn [stopped shouldForward isBlocked pr_modifiedPayload blockedResponse negb].
    refine (conj eq_refl (conj eq_refl (conj _ _))); [discriminate |].
    intros _. exists r, why.
    refine (conj eq_refl (conj Hallowed (conj Hreason (conj Hne (conj eq_refl (conj eq_refl _)))))).
    reflexivity.
Qed.

End Processor.

Lemma fetched_policies_are_the_active_ones_witness :
  exists gps,
    (Scenario.guardrails_reply
     = PolicyManager.GuardrailResponse true (PolicyManager.GuardrailBody (Some (map Some gps)))
     \/ (Scenario.guardrails_reply
         = PolicyManager.GuardrailResponse true (PolicyManager.GuardrailBody None)
         /\ gps = []))
    /\ [PolicyManager.convertGuardrailsToPolicy Scenario.strict]
       = map PolicyManager.convertGuardrailsToPolicy
           (List.filter (fun gp => default false (PolicyManager.gp_active gp)) gps)
    /\ Forall (fun policy => Types.active policy = true
                             /\ Types.id policy = "MCPGuardrails"%string)
         [PolicyManager.convertGuardrailsToPolicy Scenario.strict].
Proof.
  apply (fetched_policies_are_the_active_ones Scenario.guardrails_reply
           [PolicyManager.convertGuardrailsToPolicy Scenario.strict]).
  reflexivity.
Defined.

Lemma fetched_policies_never_scan_responses_witness :
  let policies := [PolicyManager.convertGuardrailsToPolicy Scenario.strict] in
  let valCtx := Scenario.context None [] [] in
  PolicyValidator.validateResponse (RT := reference) Scenario.rejecting Scenario.done
    (MCPProcessor.with_policies valCtx policies) = (Js.Ret Types.allow, [])
  /\ let run :=
       MCPProcessor.processResponse (RT := reference) Scenario.gateway 0 Scenario.done
         valCtx policies in
     (exists data, MCPProcessor.answer run = Js.Ret (MCPProcessor.forwarded data None))
     /\ MCPProcessor.reports run = []
     /\ MCPProcessor.events run = []
     /\ (Types.ctx_responsePayload (MCPProcessor.context run) = Some Scenario.done
         \/ MCPProcessor.context run = valCtx).
Proof.
  intros policies valCtx.
  apply (fetched_policies_never_scan_responses (RT := reference) Scenario.guardrails_reply
           policies Scenario.gateway 0 Scenario.done valCtx).
  reflexivity.
Defined.

(* ================================================================== *)
(** * Batch validation *)
(* ================================================================== *)

Section BatchValidation.
Context `{RT : JsRuntime}.
Import Js Types Coerce.
Import MCPProcessor ValidationHandler.

Variable fetched :
  outcome (list Policy * gmap string AuditPolicy * option RateLimitConfig).
Variable processRequest :
  nat -> string -> ValidationContext -> list Policy -> gmap string AuditPolicy -> bool ->
  outcome ProcessResult * ValidationContext.
Variable processResponse :
  nat -> string -> ValidationContext -> list Policy ->
  outcome ProcessResult * ValidationContext.


Lemma entry_identity (loaded : Loaded) (i : nat) (data : IngestDataBatch)
  (r : ValidationBatchResult) :
  validateEntry processRequest processResponse loaded i data = Ret r ->
  index r = i /\ result_method r = batch_method data /\ result_path r = path data.
Proof.
  unfold ValidationHandler.validateEntry.
  destruct (parseHeaders (batch_requestHeaders data)) as [reqHeaders | e]; [| discriminate].
  destruct (parseHeaders (batch_responseHeaders data)) as [respHeaders | e]; [| discriminate].
  cbn [bind].
  destruct (if truthy_ostring (batch_requestPayload data) then _ else _)
    as [[[[allowed1 modified1] payload1] error1] valCtx1].
  destruct (if truthy_ostring (batch_responsePayload data) then _ else _)
    as [[[allowed2 modified2] payload2] error2].
  intros [= <-]. auto.
Qed.

Lemma validateFrom_aligned (loaded : Loaded) (batchData : list IngestDataBatch) :
  forall (k : nat) (results : list ValidationBatchResult),
    validateFrom processRequest processResponse loaded k batchData = Ret results ->
    List.length results = List.length batchData
    /\ forall i data,
         nth_error batchData i = Some data ->
         exists r,
           nth_error results i = Some r
           /\ validateEntry processRequest processResponse loaded (k + i) data = Ret r.
Proof.
  induction batchData as [| data rest IH]; intros k results; cbn [ValidationHandler.validateFrom].
  - intros [= <-]. split; [reflexivity |]. intros [| i] d H; discriminate.
  - destruct (validateEntry processRequest processResponse loaded k data) as [r | e] eqn:Hentry;
      [| discriminate].
    cbn [bind].
    destruct (validateFrom processRequest processResponse loaded (S k) rest) as [more | e] eqn:Hrest;
      [| discriminate].
    cbn [bind]. intros [= <-].
    destruct (IH (S k) more Hrest) as [Hlen Hnth].
    split; [cbn; congruence |].
    intros [| i] d Hd; cbn in Hd.
    + injection Hd as <-. exists r. rewrite Nat.add_0_r. auto.
    + destruct (Hnth i d Hd) as (r' & Hr' & He').
      exists r'. replace (k + S i)%nat with (S k + i)%nat by lia. auto.
Qed.

(** X15. A batch that is validated yields one result per entry, in the
    order of the batch: the result at a position carries that position
    as its [index] and the method and path of the entry at it. *)
Theorem batch_results_align_with_entries
  (batchData : list IngestDataBatch) (config : BatchConfig)
  (results : list ValidationBatchResult) :
  handleBatchValidation fetched processRequest processResponse batchData config
  = Ret results ->
  List.length results = List.length batchData
  /\ forall i data,
       nth_error batchData i = Some data ->
       exists r,
         nth_error results i = Some r
         /\ index r = i
         /\ result_method r = batch_method data
         /\ result_path r = path data.
Proof.
  unfold ValidationHandler.handleBatchValidation.
  destruct (loadPolicies fetched config) as [loaded | e]; [| discriminate].
  cbn [bind]. intros H.
  apply validateFrom_aligned in H as [Hlen Hnth].
  split; [exact Hlen |].
  intros i data Hdata. destruct (Hnth i data Hdata) as (r & Hr & Hentry).
  exists r. split; [exact Hr |]. apply (entry_identity _ _ _ _ Hentry).
Qed.

(** X16. Validation errors fail open.  The result of an entry says
    the request was not allowed only when the processor returned a
    blocked result for its request payload; when the processor threw,
    the error is recorded and the request is reported as allowed and
    not modified.  The same holds for the response half, which is
    processed even when the request half threw or was blocked. *)
Theorem validation_errors_fail_open
  (loaded : Loaded) (i : nat) (data : IngestDataBatch) (r : ValidationBatchResult) :
  validateEntry processRequest processResponse loaded i data = Ret r ->
  (requestAllowed r = false ->
   exists payload valCtx result,
     batch_requestPayload data = Some payload
     /\ fst (processRequest i payload valCtx (loaded_policies loaded)
            (loaded_auditPolicies loaded) (loaded_hasAuditRules loaded)) = Ret result
     /\ isBlocked result = true)
  /\ (forall e, requestError r = Some e ->
        requestAllowed r = true /\ requestModified r = false
        /\ exists payload valCtx,
             batch_requestPayload data = Some payload
             /\ fst (processRequest i payload valCtx (loaded_policies loaded)
                    (loaded_auditPolicies loaded) (loaded_hasAuditRules loaded)) = Throw e)
  /\ (responseAllowed r = false ->
      exists payload valCtx result,
        batch_responsePayload data = Some payload
        /\ fst (processResponse i payload valCtx (loaded_policies loaded)) = Ret result
        /\ isBlocked result = true)
  /\ (forall e, responseError r = Some e ->
        responseAllowed r = true /\ responseModified r = false
        /\ exists payload valCtx,
             batch_responsePayload data = Some payload
             /\ fst (processResponse i payload valCtx (loaded_policies loaded)) = Throw e).
Proof.
  unfold ValidationHandler.validateEntry.
  destruct (parseHeaders (batch_requestHeaders data)) as [reqHeaders | e]; [| discriminate].
  destruct (parseHeaders (batch_responseHeaders data)) as [respHeaders | e]; [| discriminate].
  cbn [bind].
  set (valCtx := {| ip := batch_ip data |}).
  assert (Hreq :
    forall allowed1 modified1 payload1 error1 valCtx1,
      (if truthy_ostring (batch_requestPayload data)
       then match processRequest i (or_string (batch_requestPayload data) EmptyString) valCtx
                    (loaded_policies loaded) (loaded_auditPolicies loaded)
                    (loaded_hasAuditRules loaded) with
            | (Ret processResult, valCtx') =>
                (negb (isBlocked processResult),
                 truthy_ostring (pr_modifiedPayload processResult),
                 pr_modifiedPayload processResult, None, valCtx')
            | (Throw e, valCtx') => (true, false, None, Some e, valCtx')
            end
       else (true, false, None, None, valCtx))
      = (allowed1, modified1, payload1, error1, valCtx1) ->
      (allowed1 = false ->
       exists payload ctx result,
         batch_requestPayload data = Some payload
         /\ fst (processRequest i payload ctx (loaded_policies loaded)
                (loaded_auditPolicies loaded) (loaded_hasAuditRules loaded)) = Ret result /\ isBlocked result = true)
      /\ (forall e, error1 = Some e ->
            allowed1 = true /\ modified1 = false
            /\ exists payload ctx,
                 batch_requestPayload data = Some payload
                 /\ fst (processRequest i payload ctx (loaded_policies loaded)
                        (loaded_auditPolicies loaded) (loaded_hasAuditRules loaded))
                    = Throw e)).
  { intros allowed1 modified1 payload1 error1 valCtx1.
    destruct (batch_requestPayload data) as [[| c payload] |]; cbn [truthy_ostring truthy_string].
    1, 3: intros [= <- <- <- <- <-]; split; [discriminate | intros e; discriminate].
    cbn [or_string truthy_string].
    destruct (processRequest i (String c payload) valCtx (loaded_policies loaded)
                (loaded_auditPolicies loaded) (loaded_hasAuditRules loaded))
      as [[result | e] valCtx'] eqn:Hcall.
    - intros [= <- <- <- <- <-]. split; [| intros e; discriminate].
      intros Hblocked. exists (String c payload), valCtx, result.
      rewrite Hcall. repeat split. destruct (isBlocked result); [reflexivity | discriminate].
    - intros [= <- <- <- <- <-]. split; [discriminate |].
      intros e' [= <-]. repeat split.
      exists (String c payload), valCtx. rewrite Hcall. auto. }
  destruct (if truthy_ostring (batch_requestPayload data) then _ else _)
    as [[[[allowed1 modified1] payload1] error1] valCtx1] eqn:Hfirst.
  specialize (Hreq _ _ _ _ _ eq_refl). destruct Hreq as [Hblocked1 Herror1].
  assert (Hresp :
    forall allowed2 modified2 payload2 error2,
      (if truthy_ostring (batch_responsePayload data)
       then match processResponse i (or_string (batch_responsePayload data) EmptyString)
                    valCtx1 (loaded_policies loaded) with
            | (Ret processResult, _) =>
                (negb (isBlocked processResult),
                 truthy_ostring (pr_modifiedPayload processResult),
                 pr_modifiedPayload processResult, None)
            | (Throw e, _) => (true, false, None, Some e)
            end
       else (true, false, None, None))
      = (allowed2, modified2, payload2, error2) ->
      (allowed2 = false ->
       exists payload ctx result,
         batch_responsePayload data = Some payload
         /\ fst (processResponse i payload ctx (loaded_policies loaded)) = Ret result /\ isBlocked result = true)
      /\ (forall e, error2 = Some e ->
            allowed2 = true /\ modified2 = false
            /\ exists payload ctx,
                 batch_responsePayload data = Some payload
                 /\ fst (processResponse i payload ctx (loaded_policies loaded)) = Throw e)).
  { intros allowed2 modified2 payload2 error2.
    destruct (batch_responsePayload data) as [[| c payload] |]; cbn [truthy_ostring truthy_string].
    1, 3: intros [= <- <- <- <-]; split; [discriminate | intros e; discriminate].
    cbn [or_string truthy_string].
    destruct (processResponse i (String c payload) valCtx1 (loaded_policies loaded))
      as [[result | e] valCtx'] eqn:Hcall.
    - intros [= <- <- <- <-]. split; [| intros e; discriminate].
      intros Hblocked. exists (String c payload), valCtx1, result.
      rewrite Hcall. repeat split. destruct (isBlocked result); [reflexivity | discriminate].
    - intros [= <- <- <- <-]. split; [discriminate |].
      intros e' [= <-]. repeat split.
      exists (String c payload), valCtx1. rewrite Hcall. auto. }
  destruct (if truthy_ostring (batch_responsePayload data) then _ else _)
    as [[[allowed2 modified2] payload2] error2] eqn:Hsecond.
  specialize (Hresp _ _ _ _ eq_refl). destruct Hresp as [Hblocked2 Herror2].
  intros [= <-]. cbn. auto.
Qed.

Lemma bad_headers_throw (text : string) :
  text <> EmptyString -> JSON_parse text = None ->
  parseHeaders (Some text) = Throw SyntaxError.
Proof.
  intros Hne Hparse. unfold parseHeaders.
  destruct text; [congruence |]. cbn [truthy_ostring truthy_string or_string].
  unfold parse. rewrite Hparse. reflexivity.
Qed.

Lemma parseHeaders_throws (text : option string) (e : js_error) :
  parseHeaders text = Throw e -> e = SyntaxError.
Proof.
  unfold parseHeaders, parse.
  destruct (truthy_ostring text); [| discriminate].
  destruct (JSON_parse _); cbn; congruence.
Qed.

Lemma entry_throws_syntax_error (loaded : Loaded) (i : nat) (data : IngestDataBatch)
  (e : js_error) :
  validateEntry processRequest processResponse loaded i data = Throw e -> e = SyntaxError.
Proof.
  unfold ValidationHandler.validateEntry.
  destruct (parseHeaders (batch_requestHeaders data)) as [reqHeaders | e1] eqn:H1.
  - destruct (parseHeaders (batch_responseHeaders data)) as [respHeaders | e2] eqn:H2.
    + cbn [bind].
      destruct (if truthy_ostring (batch_requestPayload data) then _ else _)
        as [[[[allowed1 modified1] payload1] error1] valCtx1].
      destruct (if truthy_ostring (batch_responsePayload data) then _ else _)
        as [[[allowed2 modified2] payload2] error2].
      discriminate.
    + cbn [bind]. intros [= <-]. eapply parseHeaders_throws, H2.
  - cbn [bind]. intros [= <-]. eapply parseHeaders_throws, H1.
Qed.

(** X17. Header text is parsed outside the guarded part of the loop:
    once the prologue has the policies, when the request or response
    headers of any one entry are a non-empty text that is not JSON, the
    whole batch fails with that [SyntaxError] and no result is returned
    for any entry, whatever the other entries hold.  When the database is
    configured and a request to the policy backend fails, the batch fails
    with that error before any entry is looked at. *)
Theorem bad_header_text_aborts_the_batch
  (batchData : list IngestDataBatch) (config : BatchConfig)
  (i : nat) (data : IngestDataBatch) (text : string) :
  nth_error batchData i = Some data ->
  batch_requestHeaders data = Some text \/ batch_responseHeaders data = Some text ->
  text <> EmptyString ->
  JSON_parse text = None ->
  handleBatchValidation fetched processRequest processResponse batchData config
  = if truthy_ostring (dbUrl config) && truthy_ostring (dbToken config)
    then bind fetched (fun _ => Throw SyntaxError)
    else Throw SyntaxError.
Proof.
  intros Hdata Hheaders Hne Hparse.
  assert (Hentry : forall loaded k,
             validateEntry processRequest processResponse loaded k data = Throw SyntaxError).
  { intros loaded k. unfold ValidationHandler.validateEntry.
    destruct Hheaders as [-> | ->].
    - rewrite (bad_headers_throw text Hne Hparse). reflexivity.
    - rewrite (bad_headers_throw text Hne Hparse).
      destruct (parseHeaders (batch_requestHeaders data)) as [reqHeaders | e] eqn:H1;
        [reflexivity |].
      cbn [bind]. f_equal. eapply parseHeaders_throws, H1. }
  assert (Hloop : forall loaded,
             validateFrom processRequest processResponse loaded 0 batchData
             = Throw SyntaxError).
  { intros loaded. generalize 0%nat.
    revert i Hdata. induction batchData as [| d rest IH]; intros i Hdata k.
    - destruct i; discriminate.
    - cbn [ValidationHandler.validateFrom]. destruct i as [| i]; cbn in Hdata.
      + injection Hdata as ->. rewrite Hentry. reflexivity.
      + destruct (validateEntry processRequest processResponse loaded k d) as [r | e] eqn:Hd.
        * cbn [bind]. rewrite (IH i Hdata (S k)). reflexivity.
        * cbn [bind]. f_equal. apply (entry_throws_syntax_error _ _ _ _ Hd). }
  unfold ValidationHandler.handleBatchValidation, loadPolicies.
  destruct (truthy_ostring (dbUrl config) && truthy_ostring (dbToken config)).
  - destruct fetched as [[[ps audits] rl] | e]; cbn [bind]; [apply Hloop | reflexivity].
  - cbn [bind]. apply Hloop.
Qed.

End BatchValidation.

Lemma batch_results_align_with_entries_witness :
  List.length Scenario.batch_results = List.length Scenario.batch
  /\ forall i data,
       nth_error Scenario.batch i = Some data ->
       exists r,
         nth_error Scenario.batch_results i = Some r
         /\ ValidationHandler.index r = i
         /\ ValidationHandler.result_method r = ValidationHandler.batch_method data
         /\ ValidationHandler.result_path r = ValidationHandler.path data.
Proof.
  apply (batch_results_align_with_entries (RT := reference) Scenario.unreachable
           Scenario.requestEntry Scenario.responseEntry Scenario.batch Scenario.prefetched
           Scenario.batch_results).
  vm_compute. reflexivity.
Defined.

Lemma validation_errors_fail_open_witness :
  let loaded :=
    {| ValidationHandler.loaded_policies := [Scenario.harmful];
       ValidationHandler.loaded_auditPolicies := ∅;
       ValidationHandler.loaded_hasAuditRules := true;
       ValidationHandler.loaded_rateLimitPolicy := None |} in
  let data := Scenario.entry "null" None in
  let r :=
    {| ValidationHandler.index := 1; ValidationHandler.result_method := "POST";
       ValidationHandler.result_path := "/mcp";
       ValidationHandler.requestAllowed := true; ValidationHandler.requestModified := false;
       ValidationHandler.requestModifiedPayload := None;
       ValidationHandler.requestError := Some Js.TypeError;
       ValidationHandler.responseAllowed := true; ValidationHandler.responseModified := false;
       ValidationHandler.responseModifiedPayload := None;
       ValidationHandler.responseError := None |} in
  ValidationHandler.requestError r = Some Js.TypeError
  /\ ValidationHandler.requestAllowed r = true
  /\ exists payload valCtx,
       ValidationHandler.batch_requestPayload data = Some payload
       /\ fst (Scenario.requestEntry 1 payload valCtx [Scenario.harmful] ∅ true)
          = Js.Throw Js.TypeError.
Proof.
  intros loaded data r.
  destruct (validation_errors_fail_open (RT := reference)
              Scenario.requestEntry Scenario.responseEntry loaded 1 data r)
    as (_ & Herror & _).
  - vm_compute. reflexivity.
  - destruct (Herror Js.TypeError eq_refl) as (Hallowed & _ & Hthrown).
    exact (conj eq_refl (conj Hallowed Hthrown)).
Defined.

Lemma bad_header_text_aborts_the_batch_witness :
  ValidationHandler.handleBatchValidation (RT := reference) Scenario.unreachable
    Scenario.requestEntry Scenario.responseEntry
    [Scenario.entry Scenario.ping None;
     Scenario.entry Scenario.ping (Some "Host: example.com"%string)]
    Scenario.prefetched
  = Js.Throw Js.SyntaxError
  /\ ValidationHandler.handleBatchValidation (RT := reference) Scenario.unreachable
       Scenario.requestEntry Scenario.responseEntry
       [Scenario.entry Scenario.ping None;
        Scenario.entry Scenario.ping (Some "Host: example.com"%string)]
       Scenario.configured
     = Js.Throw Js.NetworkError.
Proof.
  split.
  - apply (bad_header_text_aborts_the_batch (RT := reference) Scenario.unreachable
             Scenario.requestEntry Scenario.responseEntry _ Scenario.prefetched 1
             (Scenario.entry Scenario.ping (Some "Host: example.com"%string))
             "Host: example.com").
    + reflexivity.
    + left. reflexivity.
    + discriminate.
    + vm_compute. reflexivity.
  - apply (bad_header_text_aborts_the_batch (RT := reference) Scenario.unreachable
             Scenario.requestEntry Scenario.responseEntry _ Scenario.configured 1
             (Scenario.entry Scenario.ping (Some "Host: example.com"%string))
             "Host: example.com").
    + reflexivity.
    + left. reflexivity.
    + discriminate.
    + vm_compute. reflexivity.
Defined.

(* ================================================================== *)
(** * Further properties of the audit validator *)
(* ================================================================== *)

Section AuditScope.
Context `{RT : JsRuntime}.
Import Types.
Import AuditValidator.

(** X18. A rejected server rejects all of its resources.  When the
    context names a server whose policy, looked up under the lower-cased
    server name, reads [rejected], every request that names a resource
    is blocked with the rejection, whatever policy the resource itself
    has -- approved or none at all.  The validator prints the name of the
    resource before it answers: a name that has no string conversion makes
    it throw the error of the conversion instead. *)
Theorem rejected_server_blocks_every_resource
  (now : Z) (payload : string) (valCtx : ValidationContext)
  (server : string) (serverPolicy : AuditPolicy) (requestData name : json) :
  mcpServerName valCtx = Some server ->
  server <> EmptyString ->
  lookupPolicy valCtx (Js.toLowerCase server) = Some serverPolicy ->
  is_rejected serverPolicy ->
  JSON_parse payload = Some requestData ->
  extractResourceName requestData = Js.Ret name ->
  truthy name = true ->
  validateRequest now payload valCtx
  = Js.bind (Coerce.ToString name) (fun _ => Js.Ret (Some rejected)).
Proof.
  intros Hserver Hne Hlookup Hrej Hparse Hname Htruthy.
  unfold validateRequest. rewrite Hparse, Hname. cbn [Js.bind]. rewrite Htruthy. cbn [negb].
  unfold serverBlock. rewrite Hserver.
  destruct server as [| c server]; [congruence |].
  cbn [truthy_ostring Js.truthy_string or_string].
  rewrite Hlookup, validateWithPolicy_prints,
    (rejected_policy_blocks now serverPolicy valCtx Hrej).
  destruct (Coerce.ToString name) as [key | e]; reflexivity.
Qed.

(** X19. Only three methods are audited.  A request whose [method] is
    a string other than [tools/call], [prompts/get] and
    [resources/read] names no resource, so the audit validator answers
    [null] for it under any audit policies -- a rejected server
    included -- and the orchestrator goes on to the guardrails. *)
Theorem other_methods_are_not_audited
  (binding : ScannerClient.Fetcher) (now : Z) (payload : string) (valCtx : ValidationContext)
  (fields : list (string * json)) (m : string) :
  JSON_parse payload = Some (JObj fields) ->
  assoc "method" fields = Some (JStr m) ->
  m <> "tools/call"%string -> m <> "prompts/get"%string -> m <> "resources/read"%string ->
  validateRequest now payload valCtx = Js.Ret None
  /\ PolicyValidator.validateRequest binding now payload valCtx
     = PolicyValidator.guardrails binding payload valCtx.
Proof.
  intros Hparse Hmethod H1 H2 H3.
  assert (Haudit : validateRequest now payload valCtx = Js.Ret None).
  { unfold validateRequest, extractResourceName. rewrite Hparse. cbn [get Js.bind].
    rewrite Hmethod. cbn [Js.bind].
    destruct (negb (truthy_opt (Some (JStr m)))); [reflexivity |].
    destruct (negb (truthy_opt (assoc "params" fields))); [reflexivity |].
    apply String.eqb_neq in H1, H2, H3. rewrite H1, H2, H3. reflexivity. }
  split; [exact Haudit |].
  unfold PolicyValidator.validateRequest.
  rewrite (parsed_payload_is_truthy payload _ Hparse). cbn [negb].
  rewrite Haudit.
  destruct (_ && _); reflexivity.
Qed.

Lemma isIPAllowed_spec (clientIP : string) (allowedIPs allowedIPRanges : list string) :
  isIPAllowed clientIP allowedIPs allowedIPRanges = true
  <-> In clientIP allowedIPs
      \/ exists range, In range allowedIPRanges /\ isIPInCIDR clientIP range = true.
Proof.
  unfold isIPAllowed. rewrite orb_true_iff, !existsb_exists. split.
  - intros [(x & Hin & Heq) | (range & Hin & Hrange)].
    + apply String.eqb_eq in Heq. subst. auto.
    + right. eauto.
  - intros [Hin | (range & Hin & Hrange)].
    + left. exists clientIP. split; [exact Hin | apply String.eqb_refl].
    + right. eauto.
Qed.

(** X27. What a conditional approval checks.  With approval
    conditions present, the request is allowed exactly when the approval
    has not expired -- it expires once the clock reaches the millisecond
    [1000 * (expiresAt + 1)], and never when [expiresAt] is absent, 0 or
    negative -- and, if the context has a non-empty client IP and one of
    the two IP lists has an entry, the IP is in [allowedIps] or matches a
    range of [allowedIpRanges].  A request without client IP passes the
    IP lists, and the endpoints in [whitelistedEndpoints] are not
    enforced: replacing them changes no decision. *)
Theorem conditional_approval_decision
  (now : Z) (policy : AuditPolicy) (valCtx : ValidationContext) (c : ApprovalConditions) :
  approvalConditions policy = Some c ->
  (allowed (validateConditionalApproval now policy valCtx) = true
   <-> ~ (exists t, expiresAt c = Some t /\ 0 < t /\ 1000 * (t + 1) <= now)%Z
       /\ (forall clientIP,
             ip valCtx = Some clientIP -> clientIP <> EmptyString ->
             has_items (allowedIps c) = true \/ has_items (allowedIpRanges c) = true ->
             In clientIP (or_list (allowedIps c))
             \/ exists range,
                  In range (or_list (allowedIpRanges c))
                  /\ isIPInCIDR clientIP range = true))
  /\ forall endpoints,
       validateConditionalApproval now (with_whitelistedEndpoints policy endpoints) valCtx
       = validateConditionalApproval now policy valCtx.
Proof.
  intros Hc. split; [| intros endpoints; unfold validateConditionalApproval;
                       cbn [with_whitelistedEndpoints approvalConditions];
                       rewrite Hc; reflexivity].
  unfold validateConditionalApproval. rewrite Hc.
  assert (Hexpired :
    (match expiresAt c with
     | Some t => negb (t =? 0) && (t >? 0) && (now / 1000 >? t)
     | None => false
     end)%Z = true
    <-> (exists t, expiresAt c = Some t /\ 0 < t /\ 1000 * (t + 1) <= now)%Z).
  { destruct (expiresAt c) as [t |].
    - rewrite !andb_true_iff, negb_true_iff, Z.eqb_neq, !Z.gtb_lt. split.
      + intros [[Hnz Hpos] Hlate]. exists t. repeat split; [lia |].
        pose proof (Z.div_mod now 1000 ltac:(lia)).
        pose proof (Z.mod_pos_bound now 1000 ltac:(lia)). lia.
      + intros (t' & [= <-] & Hpos & Hlate). repeat split; [lia | lia |].
        apply Z.div_le_lower_bound in Hlate; lia.
    - split; [discriminate | intros (t & H & _); discriminate]. }
  destruct (match expiresAt c with Some _ => _ | None => _ end).
  { cbn. split; [discriminate |]. intros [Hno _]. exfalso. apply Hno, Hexpired. reflexivity. }
  assert (Hlive : ~ (exists t, expiresAt c = Some t /\ 0 < t /\ 1000 * (t + 1) <= now)%Z).
  { intros H. apply Hexpired in H. discriminate. }
  destruct (ip valCtx) as [[| ch clientIP] |]; cbn [or_string Js.truthy_string andb].
  - cbn. split; [| reflexivity]. intros _. split; [exact Hlive |]. intros ? [= <-]. congruence.
  - destruct (has_items (allowedIps c) || has_items (allowedIpRanges c)) eqn:Hlists; cbn [andb].
    + pose proof (isIPAllowed_spec (String ch clientIP) (or_list (allowedIps c))
                    (or_list (allowedIpRanges c))) as Hspec.
      destruct (isIPAllowed _ _ _); cbn.
      * split; [| reflexivity]. intros _. split; [exact Hlive |].
        intros ? [= <-] _ _. apply Hspec. reflexivity.
      * split; [discriminate |]. intros [_ Hip]. exfalso.
        apply orb_true_iff in Hlists.
        specialize (Hip _ eq_refl ltac:(discriminate) Hlists).
        apply Hspec in Hip. discriminate.
    + cbn. split; [| reflexivity]. intros _. split; [exact Hlive |].
      intros ? _ _ Hsome. apply orb_false_iff in Hlists as [H1 H2].
      rewrite H1, H2 in Hsome. destruct Hsome; discriminate.
  - cbn. split; [| reflexivity]. intros _. split; [exact Hlive |]. intros ? [=].
Qed.

End AuditScope.

Section CidrEdges.
Import AuditValidator.
Local Open Scope Z_scope.

Lemma split_range (range bits : string) :
  has_char "/" range = false -> has_char "/" bits = false ->
  Js.split "/" (range +:+ "/" +:+ bits) = [range; bits].
Proof.
  intros Hrange Hbits.
  change (range +:+ "/" +:+ bits) with (range +:+ String "/" bits).
  rewrite split_at, split_none by assumption. reflexivity.
Qed.

Lemma ipToNumber_range (ip : string) : 0 <= ipToNumber ip < 2 ^ 32.
Proof.
  unfold ipToNumber, Js.ushr0, Js.ToUint32.
  destruct (fold_left _ _ _); [apply Z.mod_pos_bound |]; lia.
Qed.

Lemma ToInt32_inj (x y : Z) :
  0 <= x < 2 ^ 32 -> 0 <= y < 2 ^ 32 ->
  (Js.ToInt32 (Some x) =? Js.ToInt32 (Some y)) = (x =? y).
Proof.
  intros Hx Hy. rewrite !ToInt32_uint by assumption.
  destruct (Z.ltb_spec x (2 ^ 31)), (Z.ltb_spec y (2 ^ 31));
    destruct (Z.eqb_spec x y); try lia;
    match goal with
    | |- (?a =? ?b) = true => apply Z.eqb_eq; lia
    | |- (?a =? ?b) = false => apply Z.eqb_neq; lia
    end.
Qed.

(** The two masks a prefix length outside 0..32 can produce. *)
Lemma exact_mask (ip range : string) (host : option Z) :
  Js.bitnot host = -1 ->
  (Js.bitand (Some (ipToNumber ip)) (Some (Js.bitnot host))
   =? Js.bitand (Some (ipToNumber range)) (Some (Js.bitnot host)))
  = (ipToNumber ip =? ipToNumber range).
Proof.
  intros ->. unfold Js.bitand.
  change (Js.ToInt32 (Some (-1))) with (-1).
  rewrite !Z.land_m1_r. apply ToInt32_inj; apply ipToNumber_range.
Qed.

Lemma empty_mask (ip range : string) (host : option Z) :
  Js.bitnot host = 0 ->
  (Js.bitand (Some (ipToNumber ip)) (Some (Js.bitnot host))
   =? Js.bitand (Some (ipToNumber range)) (Some (Js.bitnot host))) = true.
Proof.
  intros ->. unfold Js.bitand.
  change (Js.ToInt32 (Some 0)) with 0. rewrite !Z.land_0_r. reflexivity.
Qed.

Lemma all_ones (e : Z) : 32 <= e -> Js.ToInt32 (Some (2 ^ e - 1)) = -1.
Proof.
  intros He. unfold Js.ToInt32, Js.ToUint32.
  replace (2 ^ e - 1) with (2 ^ 32 - 1 + (2 ^ (e - 32) - 1) * 2 ^ 32).
  - rewrite Z.mod_add, Z.mod_small by lia. reflexivity.
  - replace e with (32 + (e - 32)) at 2 by lia. rewrite Z.pow_add_r by lia. lia.
Qed.

(** X20. A range entry needs a prefix length to match anyone: an entry
    without a slash, or with nothing after its slash, matches no address
    at all, not even the address it spells. *)
Theorem range_without_prefix_matches_nothing (ip entry : string) :
  has_char "/" entry = false ->
  isIPInCIDR ip entry = false
  /\ isIPInCIDR ip (entry +:+ "/") = false
  /\ isIPAllowed ip [] [entry; entry +:+ "/"] = false.
Proof.
  intros Hentry.
  assert (H1 : isIPInCIDR ip entry = false).
  { unfold isIPInCIDR. rewrite (split_none "/" entry Hentry). reflexivity. }
  assert (H2 : isIPInCIDR ip (entry +:+ "/") = false).
  { unfold isIPInCIDR.
    change (entry +:+ "/") with (entry +:+ "/" +:+ EmptyString).
    rewrite (split_range entry EmptyString Hentry eq_refl). reflexivity. }
  refine (conj H1 (conj H2 _)).
  unfold isIPAllowed. cbn [existsb orb]. rewrite H1, H2. reflexivity.
Qed.

(** X21. Prefix lengths outside 0..32 are not refused.  For a range
    [range/bits] whose prefix text is not a number, or is a number from
    33 to 85 or at most -22, the mask has all 32 bits set and the range
    matches exactly the addresses with the encoding of [range]; for a
    prefix of 86 or more, or from -21 to -1, the mask is 0 and the range
    matches every address. *)
Theorem prefix_outside_range_is_all_or_one (ip range bits : string) :
  has_char "/" range = false ->
  has_char "/" bits = false ->
  bits <> EmptyString ->
  (Js.parseInt bits = None
   \/ (exists b, Js.parseInt bits = Some b /\ (33 <= b <= 85 \/ b <= -22)) ->
   isIPInCIDR ip (range +:+ "/" +:+ bits) = (ipToNumber ip =? ipToNumber range))
  /\ ((exists b, Js.parseInt bits = Some b /\ (86 <= b \/ -21 <= b <= -1)) ->
      isIPInCIDR ip (range +:+ "/" +:+ bits) = true).
Proof.
  intros Hrange Hbits Hne.
  unfold isIPInCIDR. rewrite (split_range range bits Hrange Hbits).
  destruct bits as [| c bits]; [congruence |]. cbn [Js.truthy_string negb].
  set (text := String c bits).
  split.
  - intros H. apply exact_mask.
    destruct H as [-> | (b & -> & Hb)]; [reflexivity |].
    unfold Js.bitnot, hostBits.
    destruct (Z.ltb_spec (32 - b) (-53)); [lia |].
    destruct (Z.ltb_spec (32 - b) 0); [reflexivity |].
    destruct (Z.ltb_spec 53 (32 - b)); [reflexivity | lia].
  - intros (b & -> & Hb). apply empty_mask.
    unfold Js.bitnot, hostBits.
    destruct (Z.ltb_spec (32 - b) (-53)); [reflexivity |].
    destruct (Z.ltb_spec (32 - b) 0); [lia |].
    destruct (Z.ltb_spec 53 (32 - b)); [lia |].
    cbn [orb]. rewrite all_ones by lia. reflexivity.
Qed.

End CidrEdges.

Lemma rejected_server_blocks_every_resource_witness :
  AuditValidator.validateRequest (RT := reference) 0 (Scenario.call "read_file")
    (Scenario.context (Some "FileServer"%string) []
       [Scenario.audit "fileserver" "Rejected" None;
        Scenario.audit "read_file" "Approved" None])
  = Js.Ret (Some rejected).
Proof.
  rewrite (rejected_server_blocks_every_resource (RT := reference) 0
             (Scenario.call "read_file")
             _ "FileServer" (Scenario.audit "fileserver" "Rejected" None)
             (JObj [("method", JStr "tools/call");
                    ("params", JObj [("name", JStr "read_file")])]%string)
             (JStr "read_file")).
  - reflexivity.
  - reflexivity.
  - discriminate.
  - vm_compute. reflexivity.
  - reflexivity.
  - vm_compute. reflexivity.
  - reflexivity.
  - reflexivity.
Defined.

Lemma other_methods_are_not_audited_witness :
  let valCtx :=
    Scenario.context (Some "FileServer"%string) []
      [Scenario.audit "fileserver" "Rejected" None] in
  AuditValidator.validateRequest (RT := reference) 0 Scenario.list_tools valCtx = Js.Ret None
  /\ PolicyValidator.validateRequest (RT := reference) Scenario.rejecting 0
       Scenario.list_tools valCtx
     = PolicyValidator.guardrails (RT := reference) Scenario.rejecting
         Scenario.list_tools valCtx.
Proof.
  intros valCtx.
  apply (other_methods_are_not_audited (RT := reference) Scenario.rejecting 0
           Scenario.list_tools valCtx [("method", JStr "tools/list")]%string "tools/list").
  - vm_compute. reflexivity.
  - reflexivity.
  - discriminate.
  - discriminate.
  - discriminate.
Defined.

Lemma range_without_prefix_matches_nothing_witness :
  AuditValidator.isIPInCIDR "10.0.0.5" "10.0.0.5" = false
  /\ AuditValidator.isIPInCIDR "10.0.0.5" "10.0.0.5/" = false
  /\ AuditValidator.isIPAllowed "10.0.0.5" [] ["10.0.0.5"; "10.0.0.5/"]%string = false.
Proof.
  apply (range_without_prefix_matches_nothing "10.0.0.5" "10.0.0.5"). reflexivity.
Defined.

Lemma prefix_outside_range_is_all_or_one_witness :
  AuditValidator.isIPInCIDR "10.0.0.5" "10.0.0.0/33" = false
  /\ AuditValidator.isIPInCIDR "192.168.1.1" "10.0.0.0/-1" = true.
Proof.
  split.
  - destruct (prefix_outside_range_is_all_or_one "10.0.0.5" "10.0.0.0" "33")
      as [Hexact _]; [reflexivity | reflexivity | discriminate |].
    change (AuditValidator.isIPInCIDR "10.0.0.5" ("10.0.0.0" +:+ "/" +:+ "33") = false).
    rewrite Hexact; [reflexivity |].
    right. exists 33%Z. split; [reflexivity | lia].
  - destruct (prefix_outside_range_is_all_or_one "192.168.1.1" "10.0.0.0" "-1")
      as [_ Hall]; [reflexivity | reflexivity | discriminate |].
    change (AuditValidator.isIPInCIDR "192.168.1.1" ("10.0.0.0" +:+ "/" +:+ "-1") = true).
    apply Hall. exists (-1)%Z. split; [reflexivity | lia].
Defined.

Lemma conditional_approval_decision_witness :
  let conditions :=
    {| Types.expiresAt := Some 1700000000%Z; Types.allowedIps := None;
       Types.allowedIpRanges := Some ["10.0.0.0/24"]%string;
       Types.whitelistedEndpoints := Some ["worker-1"]%string |} in
  let policy := Scenario.audit "read_file" "Conditionally Approved" (Some conditions) in
  let valCtx := Scenario.context None [] [policy] in
  (Types.allowed (AuditValidator.validateConditionalApproval 1700000000999 policy valCtx) = true
   <-> ~ (exists t, Types.expiresAt conditions = Some t /\ 0 < t
                    /\ 1000 * (t + 1) <= 1700000000999)%Z
       /\ (forall clientIP,
             Types.ip valCtx = Some clientIP -> clientIP <> EmptyString ->
             AuditValidator.has_items (Types.allowedIps conditions) = true
             \/ AuditValidator.has_items (Types.allowedIpRanges conditions) = true ->
             In clientIP (AuditValidator.or_list (Types.allowedIps conditions))
             \/ exists range,
                  In range (AuditValidator.or_list (Types.allowedIpRanges conditions))
                  /\ AuditValidator.isIPInCIDR clientIP range = true))
  /\ forall endpoints,
       AuditValidator.validateConditionalApproval 1700000000999
         (with_whitelistedEndpoints policy endpoints) valCtx
       = AuditValidator.validateConditionalApproval 1700000000999 policy valCtx.
Proof.
  intros conditions policy valCtx.
  apply (conditional_approval_decision 1700000000999 policy valCtx conditions).
  reflexivity.
Defined.

(* ================================================================== *)
(** * Threat reports *)
(* ================================================================== *)

Section DecimalText.
Local Open Scope Z_scope.

Lemma digit_char_facts (d : Z) :
  0 <= d < 10 ->
  Js.digit_value 10 (Js.digit_char d) = Some d /\ Js.is_digit (Js.digit_char d) = true.
Proof.
  intros Hd.
  assert (H : d = 0 \/ d = 1 \/ d = 2 \/ d = 3 \/ d = 4 \/ d = 5 \/ d = 6 \/ d = 7
              \/ d = 8 \/ d = 9) by lia.
  repeat (destruct H as [-> | H]; [split; reflexivity |]). subst. split; reflexivity.
Qed.

Lemma read_digits_onto (fuel : nat) :
  forall (n : Z) (acc : string),
    0 <= n < 2 ^ Z.of_nat (S fuel) ->
    Js.read_digits 10 (Js.digits_onto (S fuel) n acc) None
    = Js.read_digits 10 acc (Some n).
Proof.
  induction fuel as [| fuel IH]; intros n acc Hn.
  - cbn [Js.digits_onto]. change (2 ^ Z.of_nat 1) with 2 in Hn.
    destruct (Z.ltb_spec n 10); [| lia].
    cbn [Js.read_digits]. rewrite Z.mod_small by lia.
    destruct (digit_char_facts n ltac:(lia)) as [-> _]. reflexivity.
  - change (Js.digits_onto (S (S fuel)) n acc)
      with (if n <? 10 then String (Js.digit_char (n mod 10)) acc
            else Js.digits_onto (S fuel) (n / 10) (String (Js.digit_char (n mod 10)) acc)).
    destruct (Z.ltb_spec n 10) as [Hsmall | Hbig].
    + cbn [Js.read_digits]. rewrite Z.mod_small by lia.
      destruct (digit_char_facts n ltac:(lia)) as [-> _]. reflexivity.
    + assert (Hpow : 2 ^ Z.of_nat (S (S fuel)) = 2 * 2 ^ Z.of_nat (S fuel)).
      { rewrite (Nat2Z.inj_succ (S fuel)), Z.pow_succ_r by lia. reflexivity. }
      assert (Hdiv : 0 <= n / 10 < 2 ^ Z.of_nat (S fuel)).
      { split; [apply Z.div_pos; lia |].
        apply Z.div_lt_upper_bound; lia. }
      rewrite (IH (n / 10) _ Hdiv). cbn [Js.read_digits].
      pose proof (Z.mod_pos_bound n 10 ltac:(lia)) as Hmod.
      destruct (digit_char_facts (n mod 10) Hmod) as [-> _].
      f_equal. f_equal. pose proof (Z.div_mod n 10 ltac:(lia)). lia.
Qed.

Lemma digits_onto_all_digits (fuel : nat) :
  forall (n : Z) (acc : string),
    0 <= n -> all_digits acc = true -> all_digits (Js.digits_onto fuel n acc) = true.
Proof.
  induction fuel as [| fuel IH]; intros n acc Hn Hacc; [exact Hacc |].
  cbn [Js.digits_onto].
  pose proof (Z.mod_pos_bound n 10 ltac:(lia)) as Hmod.
  destruct (digit_char_facts (n mod 10) Hmod) as [_ Hdigit].
  assert (Hacc' : all_digits (String (Js.digit_char (n mod 10)) acc) = true)
    by (cbn [all_digits]; rewrite Hdigit, Hacc; reflexivity).
  destruct (n <? 10); [exact Hacc' |].
  apply IH; [apply Z.div_pos; lia | exact Hacc'].
Qed.

Lemma digits_onto_not_empty (fuel : nat) (n : Z) (acc : string) :
  Js.digits_onto (S fuel) n acc <> EmptyString.
Proof.
  revert n acc. induction fuel as [| fuel IH]; intros n acc.
  - cbn [Js.digits_onto]. destruct (n <? 10); discriminate.
  - change (Js.digits_onto (S (S fuel)) n acc)
      with (if n <? 10 then String (Js.digit_char (n mod 10)) acc
            else Js.digits_onto (S fuel) (n / 10) (String (Js.digit_char (n mod 10)) acc)).
    destruct (n <? 10); [discriminate | apply IH].
Qed.

Lemma digit_is_plain (c : ascii) :
  Js.is_digit c = true ->
  Js.is_space c = false /\ c <> "-"%char /\ c <> "+"%char
  /\ Ascii.eqb c "x" = false /\ Ascii.eqb c "X" = false.
Proof.
  destruct c as [[] [] [] [] [] [] [] []]; cbv; intros H;
    first [discriminate H | repeat split; congruence].
Qed.

(** [parseInt] reads a digit text as a decimal number, without sign or
    base prefix. *)
Lemma parseInt_digits (s : string) :
  all_digits s = true -> s <> EmptyString ->
  Js.parseInt s = Js.read_digits 10 s None.
Proof.
  intros Hall Hne. destruct s as [| c s]; [congruence |].
  cbn [all_digits] in Hall. apply andb_prop in Hall as [Hc Hs].
  destruct (digit_is_plain c Hc) as (Hspace & Hminus & Hplus & _).
  unfold Js.parseInt. cbn [Js.trimStart]. rewrite Hspace.
  assert (Hsign : (match String c s with
                   | String "-" s' => (true, s')
                   | String "+" s' => (false, s')
                   | _ => (false, String c s)
                   end) = (false, String c s)).
  { destruct c as [[] [] [] [] [] [] [] []]; try reflexivity; congruence. }
  rewrite Hsign.
  assert (Hhex : Js.strip_hex_prefix (String c s) = None).
  { unfold Js.strip_hex_prefix.
    destruct s as [| c2 s].
    - destruct c as [[] [] [] [] [] [] [] []]; reflexivity.
    - cbn [all_digits] in Hs. apply andb_prop in Hs as [Hc2 _].
      destruct (digit_is_plain c2 Hc2) as (_ & _ & _ & -> & ->).
      destruct c as [[] [] [] [] [] [] [] []]; reflexivity. }
  rewrite Hhex. destruct (Js.read_digits 10 (String c s) None); reflexivity.
Qed.

(** The decimal text of an integer reads back as the integer. *)
Lemma parseInt_Z_toString (n : Z) : Js.parseInt (Js.Z_toString n) = Some n.
Proof.
  assert (Hmag : forall m, 0 <= m ->
            let ds := Js.digits_onto (S (Z.to_nat (Z.log2 m))) m EmptyString in
            all_digits ds = true /\ ds <> EmptyString
            /\ Js.read_digits 10 ds None = Some m).
  { intros m Hm. cbv zeta.
    refine (conj (digits_onto_all_digits _ m EmptyString Hm eq_refl)
              (conj (digits_onto_not_empty _ m EmptyString) _)).
    rewrite read_digits_onto; [reflexivity |].
    split; [exact Hm |].
    rewrite Nat2Z.inj_succ, Z2Nat.id by apply Z.log2_nonneg.
    destruct (Z.eq_dec m 0) as [-> | Hnz]; [reflexivity |].
    apply Z.log2_spec. lia. }
  unfold Js.Z_toString.
  destruct (Z.ltb_spec n 0) as [Hneg | Hpos].
  - destruct (Hmag (Z.abs n) (Z.abs_nonneg n)) as (Hall & Hne & Hread).
    set (ds := Js.digits_onto _ (Z.abs n) EmptyString) in *.
    pose proof (parseInt_digits ds Hall Hne) as Hparse.
    unfold Js.parseInt in *. cbn [Js.trimStart]. change (Js.is_space "-") with false.
    cbv iota.
    destruct ds as [| c ds']; [congruence |].
    cbn [all_digits] in Hall. apply andb_prop in Hall as [Hc _].
    destruct (digit_is_plain c Hc) as (Hspace & Hminus & Hplus & _).
    cbn [Js.trimStart] in Hparse. rewrite Hspace in Hparse.
    assert (Hsign : (match String c ds' with
                     | String "-" s' => (true, s')
                     | String "+" s' => (false, s')
                     | _ => (false, String c ds')
                     end) = (false, String c ds')).
    { destruct c as [[] [] [] [] [] [] [] []]; try reflexivity; congruence. }
    rewrite Hsign in Hparse.
    destruct (Js.strip_hex_prefix (String c ds')) as [hex |].
    + rewrite Hread in Hparse.
      destruct (Js.read_digits 16 hex None); [| discriminate].
      injection Hparse as ->. f_equal. lia.
    + rewrite Hread. f_equal. lia.
  - rewrite Z.abs_eq by lia.
    destruct (Hmag n Hpos) as (Hall & Hne & Hread).
    rewrite parseInt_digits by assumption. exact Hread.
Qed.

End DecimalText.

Section ThreatEvents.
Context `{RT : JsRuntime}.
Import Js Types Coerce.
Import ThreatReporter.
Local Open Scope Z_scope.

(** X22. The two time stamps of a malicious event agree and are whole
    seconds: [latestApiCollectionId] is the clock reading in
    milliseconds divided by 1000 and rounded down, and [detectedAt] is
    its decimal text, which [parseInt] reads back as that number -- for
    a clock before the epoch as well. *)
Theorem event_time_stamps_agree
  (now : Z) (requestPayload responsePayload : string)
  (metadata : list (string * meta_value)) (who endpoint method : string)
  (reqHeaders respHeaders : list (string * string)) (statusCode : float) :
  let event :=
    buildMaliciousEvent now requestPayload responsePayload metadata who endpoint method
      reqHeaders respHeaders statusCode in
  parseInt (detectedAt event) = Some (latestApiCollectionId event)
  /\ 1000 * latestApiCollectionId event <= now < 1000 * latestApiCollectionId event + 1000.
Proof.
  cbv zeta. cbn [buildMaliciousEvent detectedAt latestApiCollectionId].
  split; [apply parseInt_Z_toString |].
  pose proof (Z.div_mod now 1000 ltac:(lia)).
  pose proof (Z.mod_pos_bound now 1000 ltac:(lia)). lia.
Qed.

Lemma scanner_block_policy (tasks : list PolicyValidator.ScannerTask) (result : json) :
  returns
    (fun r =>
       exists s,
         s <> EmptyString
         /\ metadata_of r "policy_id" = Some (MStr s)
         /\ (s = "unknown"%string
             \/ exists task, In task tasks /\ PolicyValidator.policyId task = s))
    (PolicyValidator.scannerBlock tasks result).
Proof.
  unfold PolicyValidator.scannerBlock.
  apply returns_bind. intros nameText _. apply returns_bind. intros riskText _.
  cbn [returns]. unfold metadata_of. cbn [metadata block meta_get String.eqb].
  change (String.eqb "policy_id" "policy_id") with true. cbv iota.
  destruct (find _ tasks) as [task |] eqn:Hfind; cbn [option_map or_string].
  - apply find_some in Hfind as [Hin _].
    destruct (PolicyValidator.policyId task) as [| c s] eqn:Hid; cbn [truthy_string].
    + exists "unknown"%string. repeat split; [discriminate | auto].
    + exists (String c s). repeat split; [discriminate |]. right. eauto.
  - exists "unknown"%string. repeat split; [discriminate | auto].
Qed.

Lemma checked_results_policy (logged : bool) (tasks : list PolicyValidator.ScannerTask)
  (scanResults : list json) :
  returns
    (fun r =>
       allowed r = false ->
       exists s,
         s <> EmptyString
         /\ metadata_of r "policy_id" = Some (MStr s)
         /\ (s = "unknown"%string
             \/ exists task, In task tasks /\ PolicyValidator.policyId task = s))
    (PolicyValidator.checkResults logged tasks scanResults).
Proof.
  induction scanResults as [| result rest IH]; [discriminate |].
  cbn [PolicyValidator.checkResults].
  apply returns_bind. intros _ _.
  destruct (negb (ScannerClient.is_valid result)); [| exact IH].
  pose proof (scanner_block_policy tasks result) as H.
  destruct (PolicyValidator.scannerBlock tasks result) as [r | e]; [| exact I].
  intros _. exact H.
Qed.

Lemma audit_validator_block_is_tagged (now : Z) (payload : string)
  (valCtx : ValidationContext) :
  returns (when_some (fun r =>
             allowed r = false ->
             metadata_of r "policy_id" = Some (MStr "AuditPolicy")))
    (AuditValidator.validateRequest now payload valCtx).
Proof.
  unfold AuditValidator.validateRequest.
  destruct (JSON_parse payload) as [requestData |]; [| exact I].
  apply returns_bind. intros resourceName _.
  destruct (negb (truthy resourceName)); [exact I |].
  apply returns_bind. intros [serverResult |] Hserver.
  - cbn. intros _. apply (server_block_is_tagged now valCtx resourceName serverResult Hserver).
  - apply returns_bind. intros [policy |] _; [| exact I].
    rewrite validateWithPolicy_prints.
    apply returns_bind. intros result Hresult.
    destruct (ToString resourceName) as [key | e]; [| discriminate].
    cbn [bind] in Hresult. injection Hresult as <-.
    cbn. apply audit_block_is_tagged.
Qed.

(** X23. Every block of [validateRequest] is attributed.  A result
    that is not allowed carries a non-empty [policy_id]: [AuditPolicy]
    for an audit block, and for a scanner block the id of an active
    policy of the context, or [unknown].  The event the reporter builds
    for the result files it under that id as [filterId], [category] and
    [subCategory]; the fallback [Blocked] is not used for it. *)
Theorem every_block_is_attributed
  (binding : ScannerClient.Fetcher) (now : Z) (payload : string)
  (valCtx : ValidationContext) (r : ValidationResult) :
  fst (PolicyValidator.validateRequest binding now payload valCtx) = Ret r ->
  allowed r = false ->
  exists s,
    s <> EmptyString
    /\ metadata_of r "policy_id" = Some (MStr s)
    /\ (s = "AuditPolicy"%string \/ s = "unknown"%string
        \/ exists policy,
             In policy (default [] (policies valCtx)) /\ active policy = true
             /\ id policy = s)
    /\ forall later reportCtx token,
         let event := maliciousEvent (reportThreat later r reportCtx token) in
         filterId event = MStr s /\ category event = MStr s /\ subCategory event = MStr s.
Proof.
  intros Hr Hblocked.
  assert (Hid : exists s,
             s <> EmptyString
             /\ metadata_of r "policy_id" = Some (MStr s)
             /\ (s = "AuditPolicy"%string \/ s = "unknown"%string
                 \/ exists policy,
                      In policy (default [] (policies valCtx)) /\ active policy = true
                      /\ id policy = s)).
  { revert Hr. unfold PolicyValidator.validateRequest.
    destruct (negb (truthy_string payload)).
    { intros [= <-]. discriminate. }
    assert (Hg : fst (PolicyValidator.guardrails binding payload valCtx) = Ret r ->
                 exists s,
                   s <> EmptyString
                   /\ metadata_of r "policy_id" = Some (MStr s)
                   /\ (s = "AuditPolicy"%string \/ s = "unknown"%string
                       \/ exists policy,
                            In policy (default [] (policies valCtx))
                            /\ active policy = true /\ id policy = s)).
    { unfold PolicyValidator.guardrails.
      destruct (negb (truthy_string _)).
      { intros [= <-]. discriminate. }
      unfold PolicyValidator.runScanners.
      set (tasks := PolicyValidator.collectTasks "prompt" requestPayload
                      (default [] (policies valCtx))).
      assert (Htasks : forall task, In task tasks ->
                exists policy,
                  In policy (default [] (policies valCtx)) /\ active policy = true
                  /\ id policy = PolicyValidator.policyId task).
      { intros task Hin. apply collected_task in Hin
          as (policy & rule & Hp & Ha & _ & _ & _ & Hid & _).
        exists policy. auto. }
      destruct tasks as [| t tasks]; [intros [= <-]; discriminate |].
      cbv beta iota.
      destruct (ScannerClient.scan binding _ _) as [scanResponse sent].
      cbn [fst]. intros Hchecked.
      pose proof (checked_results_policy true (t :: tasks) (results scanResponse)) as Hpolicy.
      rewrite Hchecked in Hpolicy.
      destruct (Hpolicy Hblocked) as (s & Hne & Hmeta & Hs).
      exists s. refine (conj Hne (conj Hmeta _)).
      destruct Hs as [-> | (task & Hin & <-)]; [auto |].
      right. right. apply Htasks, Hin. }
    pose proof (audit_validator_block_is_tagged now payload valCtx) as Ha.
    destruct (default false (hasAuditRules valCtx)
              && bool_decide (is_Some (auditPolicies valCtx))).
    - destruct (AuditValidator.validateRequest now payload valCtx)
        as [[auditResult |] | e]; cbn [fst]; try discriminate.
      + destruct (allowed auditResult) eqn:Hallowed; cbn [negb fst].
        * exact Hg.
        * intros [= <-]. exists "AuditPolicy"%string.
          refine (conj _ (conj (Ha Hallowed) (or_introl eq_refl))). discriminate.
      + exact Hg.
    - exact Hg. }
  destruct Hid as (s & Hne & Hmeta & Hs).
  exists s. refine (conj Hne (conj Hmeta (conj Hs _))).
  intros later reportCtx token. cbv zeta.
  unfold reportThreat, buildMaliciousEvent, metadata_of in *.
  cbn [maliciousEvent filterId category subCategory].
  destruct (metadata r) as [meta |]; [| discriminate].
  cbn [default from_option]. unfold Datatypes.id. rewrite Hmeta.
  destruct s; [congruence |]. cbn. auto.
Qed.

End ThreatEvents.

Lemma every_block_is_attributed_witness :
  let valCtx :=
    Scenario.context None [Scenario.rule "harmfulCategories" None (Some "block"%string)] [] in
  let r :=
    Types.block "Blocked by scanner: Toxicity (risk score: 0.9)"
      [("policy_id", Types.MStr "MCPGuardrails");
       ("scanner", Types.MJson (Some (JStr "Toxicity")));
       ("risk_score", Types.MJson (Some (JNum 0.9%float)));
       ("details", Types.MJson None)]%string in
  exists s,
    s <> EmptyString
    /\ Types.metadata_of r "policy_id" = Some (Types.MStr s)
    /\ (s = "AuditPolicy"%string \/ s = "unknown"%string
        \/ exists policy,
             In policy (default [] (Types.policies valCtx)) /\ Types.active policy = true
             /\ Types.id policy = s)
    /\ forall later reportCtx token,
         let event :=
           ThreatReporter.maliciousEvent
             (ThreatReporter.reportThreat (RT := reference) later r reportCtx token) in
         ThreatReporter.filterId event = Types.MStr s
         /\ ThreatReporter.category event = Types.MStr s
         /\ ThreatReporter.subCategory event = Types.MStr s.
Proof.
  intros valCtx r.
  apply (every_block_is_attributed (RT := reference) Scenario.rejecting 0
           (Scenario.call "read_file") valCtx r).
  - vm_compute. reflexivity.
  - reflexivity.
Defined.

(* ================================================================== *)
(** * The shared expressions of the PII validator *)
(* ================================================================== *)

Section MatcherPositions.
Import RegExp.

(** A successful match ran its continuation on a state further on in
    the same subject. *)
Lemma m_reaches (icase : bool) (r : node) :
  forall (st : state) (k : state -> option nat) (e : nat),
    m icase r st k = Some e ->
    exists st',
      k st' = Some e
      /\ (pos st <= pos st')%nat
      /\ (pos st' + String.length (rest st') = pos st + String.length (rest st))%nat.
Proof.
  induction r as [| c | negated ranges | | a IHa b IHb | a IHa b IHb | a IHa mn mx];
    intros st k e; [cbn [m] .. |].
  - intros H. exists st. auto.
  - destruct (rest st) as [| ch s'] eqn:Hrest; [discriminate |].
    destruct (char_eq icase ch c); [| discriminate].
    intros H. exists (advance st ch s'). cbn. split; [exact H | lia].
  - destruct (rest st) as [| ch s'] eqn:Hrest; [discriminate |].
    destruct (xorb negated (class_has icase ranges ch)); [| discriminate].
    intros H. exists (advance st ch s'). cbn. split; [exact H | lia].
  - destruct (xorb _ _); [| discriminate]. intros H. exists st. auto.
  - intros H. apply IHa in H as (st1 & H1 & Hle1 & Hlen1).
    apply IHb in H1 as (st2 & H2 & Hle2 & Hlen2).
    exists st2. split; [exact H2 | lia].
  - destruct (m icase a st k) as [e0 |] eqn:Ha.
    + intros [= <-]. apply IHa, Ha.
    + apply IHb.
  - change (m icase (Repeat a mn mx) st k)
      with (repeat_loop icase a k (S (mn + String.length (rest st))) mn mx st).
    generalize (S (mn + String.length (rest st))). intros fuel.
    revert mn mx st. induction fuel as [| fuel IHfuel]; intros mn mx st; [discriminate |].
    assert (Hstep :
      match m icase a st
              (fun st' =>
                 if Nat.eqb mn 0 && Nat.eqb (pos st') (pos st) then None
                 else repeat_loop icase a k fuel (Nat.pred mn) (option_map Nat.pred mx) st')
      with
      | Some e => Some e
      | None => if Nat.eqb mn 0 then k st else None
      end = Some e ->
      exists st',
        k st' = Some e
        /\ (pos st <= pos st')%nat
        /\ (pos st' + String.length (rest st') = pos st + String.length (rest st))%nat).
    { destruct (m icase a st _) as [e0 |] eqn:Ha.
      - intros [= <-]. apply IHa in Ha as (st1 & H1 & Hle1 & Hlen1).
        destruct (Nat.eqb mn 0 && Nat.eqb (pos st1) (pos st)); [discriminate |].
        apply IHfuel in H1 as (st2 & H2 & Hle2 & Hlen2).
        exists st2. split; [exact H2 | lia].
      - destruct (Nat.eqb mn 0); [| discriminate]. intros H. exists st. auto. }
    destruct mx as [[| n] |];
      [intros H; exists st; split; [exact H | lia] | exact Hstep | exact Hstep].
Qed.

Lemma scan_bounds (icase : bool) (r : node) (s : string) :
  forall (before : option ascii) (i a e : nat),
    scan icase r before s i = Some (a, e) ->
    (i <= a)%nat /\ (a <= e)%nat /\ (e <= i + String.length s)%nat.
Proof.
  induction s as [| c s IH]; intros before i a e; cbn [scan].
  - destruct (m icase r _ _) as [e0 |] eqn:Hm; [| discriminate].
    intros [= <- <-]. apply m_reaches in Hm as (st' & [= <-] & Hle & Hlen).
    cbn in *. lia.
  - destruct (m icase r _ _) as [e0 |] eqn:Hm.
    + intros [= <- <-]. apply m_reaches in Hm as (st' & [= <-] & Hle & Hlen).
      cbn in *. lia.
    + intros H. apply IH in H. cbn. lia.
Qed.

Lemma seek_length (i : nat) :
  forall (before before' : option ascii) (s s' : string),
    seek i before s = Some (before', s') ->
    (i + String.length s' = String.length s)%nat.
Proof.
  induction i as [| i IH]; intros before before' s s'; cbn [seek].
  - intros [= _ <-]. reflexivity.
  - destruct s as [| c s]; [discriminate |]. intros H. apply IH in H. cbn. lia.
Qed.

(** [exec] on a global expression: a match lies at or after [lastIndex]
    and inside the subject, and moves [lastIndex] to its end; a failure
    rewinds [lastIndex] to 0. *)
Lemma exec_global (R : regexp) (subj : string) :
  global R = true ->
  match exec R subj with
  | (Some (i, e), R') =>
      (lastIndex R <= i)%nat /\ (i <= e)%nat /\ (e <= String.length subj)%nat
      /\ R' = set_lastIndex R e
  | (None, R') => R' = set_lastIndex R 0
  end.
Proof.
  intros Hg. unfold exec. rewrite Hg.
  destruct (seek (lastIndex R) None subj) as [[before s] |] eqn:Hseek; [| reflexivity].
  destruct (scan (ignoreCase R) (source R) before s (lastIndex R)) as [[i e] |] eqn:Hscan;
    [| reflexivity].
  apply scan_bounds in Hscan. apply seek_length in Hseek.
  repeat split; lia.
Qed.

(** The loop of a global replace ends with the expression rewound. *)
Lemma collect_rewinds (subj : string) (fuel : nat) :
  forall R : regexp,
    global R = true ->
    (lastIndex R <= String.length subj + 1)%nat ->
    (String.length subj + 2 <= fuel + lastIndex R)%nat ->
    snd (collect fuel R subj) = set_lastIndex R 0.
Proof.
  induction fuel as [| fuel IH]; intros R Hg Hle Hfuel; [lia |].
  cbn [collect].
  pose proof (exec_global R subj Hg) as Hexec.
  destruct (exec R subj) as [[[i e] |] R']; [| exact Hexec].
  destruct Hexec as (Hi & He & Hlen & ->).
  set (R'' := if Nat.eqb i e then _ else _).
  assert (HR'' : global R'' = true /\ set_lastIndex R'' 0 = set_lastIndex R 0
                 /\ (lastIndex R < lastIndex R'')%nat
                 /\ (lastIndex R'' <= String.length subj + 1)%nat).
  { subst R''. destruct (Nat.eqb_spec i e); cbn; repeat split; auto; lia. }
  destruct HR'' as (Hg'' & Hsame & Hlt & Hle'').
  specialize (IH R'' Hg'' Hle'' ltac:(lia)).
  destruct (collect fuel R'' subj) as [more Rend]. cbn [snd] in *. congruence.
Qed.

Lemma replace_rewinds (R : regexp) (subj replacement : string) :
  global R = true ->
  snd (replace R subj replacement) = set_lastIndex R 0.
Proof.
  intros Hg. unfold replace. rewrite Hg.
  pose proof (collect_rewinds subj (String.length subj + 2) (set_lastIndex R 0)
                Hg ltac:(cbn; lia) ltac:(cbn; lia)) as H.
  destruct (collect _ _ subj) as [results R']. exact H.
Qed.

End MatcherPositions.

Section PiiState.
Import Js Types RegExp.
Import PIIValidator.

(** X24. A redacting PII rule leaves no state behind.  For a rule
    whose action is [redact] and whose PII type names a global expression
    of the table, the table after the call holds that expression with
    [lastIndex] 0 and every other entry as before -- whether the text
    matched or not, and wherever [lastIndex] stood before the call.  On
    a table whose expression is rewound, as the module-level table is
    initially, the call therefore returns the table unchanged. *)
Theorem redacting_rule_rewinds_the_expression
  (patterns : gmap string regexp) (text : string) (rule : FilterRule) (policy : Policy)
  (piiType : string) (R : regexp) :
  pattern rule = Some piiType ->
  piiType <> EmptyString ->
  action rule = Some "redact"%string ->
  getPIIRegex patterns piiType = Some R ->
  global R = true ->
  snd (validate patterns text rule policy)
  = <[toLowerCase piiType := set_lastIndex R 0]> patterns
  /\ (lastIndex R = 0%nat -> snd (validate patterns text rule policy) = patterns).
Proof.
  intros Hpattern Hne Haction Hregex Hg.
  assert (Hmain : snd (validate patterns text rule policy)
                  = <[toLowerCase piiType := set_lastIndex R 0]> patterns).
  { unfold validate. rewrite Hpattern, Haction.
    destruct piiType as [| c piiType]; [congruence |].
    cbn [truthy_ostring truthy_string negb or_string].
    rewrite Hregex. unfold test.
    pose proof (exec_global R text Hg) as Hexec.
    destruct (exec R text) as [[[i e] |] R'].
    - destruct Hexec as (_ & _ & _ & ->).
      change (String.eqb "redact" "block") with false.
      change (String.eqb "redact" "redact") with true. cbv iota.
      pose proof (replace_rewinds (set_lastIndex R e) text
                    ("[" +:+ toUpperCase (String c piiType) +:+ "_REDACTED]") Hg) as Hrep.
      destruct (replace (set_lastIndex R e) text _) as [redactedText afterReplace].
      cbn [snd] in *. rewrite Hrep. cbn [set_lastIndex source global ignoreCase lastIndex].
      rewrite insert_insert_eq. reflexivity.
    - cbn [snd]. rewrite Hexec. reflexivity. }
  split; [exact Hmain |].
  intros Hzero. rewrite Hmain. apply insert_id.
  unfold getPIIRegex in Hregex. rewrite Hregex. f_equal.
  destruct R as [src g i l]. cbn in *. subst. reflexivity.
Qed.

End PiiState.

Lemma redacting_rule_rewinds_the_expression_witness :
  let rule := Scenario.rule "pii" (Some "Email"%string) (Some "redact"%string) in
  snd (PIIValidator.validate PIIValidator.PII_PATTERNS "write to bob@example.com today"
         rule (Scenario.policy [rule]))
  = PIIValidator.PII_PATTERNS.
Proof.
  intros rule.
  apply (redacting_rule_rewinds_the_expression PIIValidator.PII_PATTERNS
           "write to bob@example.com today" rule (Scenario.policy [rule]) "Email"
           (PIIValidator.g PIIValidator.email false)).
  - reflexivity.
  - discriminate.
  - reflexivity.
  - vm_compute. reflexivity.
  - reflexivity.
  - reflexivity.
Defined.

(* ================================================================== *)
(** * Further properties of the metadata auditor *)
(* ================================================================== *)

Section StringFacts.
Import Js.

Lemma append_cons (c : ascii) (a b : string) : String c a +:+ b = String c (a +:+ b).
Proof. reflexivity. Qed.

Lemma append_empty_r (s : string) : s +:+ EmptyString = s.
Proof.
  induction s as [| c s IH]; [reflexivity |].
  rewrite append_cons, IH. reflexivity.
Qed.

Lemma append_length (a b : string) :
  String.length (a +:+ b) = (String.length a + String.length b)%nat.
Proof.
  induction a as [| c a IH]; [reflexivity |].
  rewrite append_cons. cbn [String.length]. rewrite IH. reflexivity.
Qed.

Lemma rev_onto_append (s acc : string) : rev_onto s acc = rev s +:+ acc.
Proof.
  unfold rev. revert acc. induction s as [| c s IH]; intros acc; cbn [rev_onto].
  - reflexivity.
  - rewrite (IH (String c acc)), (IH (String c EmptyString)).
    rewrite append_associative. reflexivity.
Qed.

Lemma rev_cons (c : ascii) (s : string) : rev (String c s) = rev s +:+ String c EmptyString.
Proof. unfold rev at 1. cbn [rev_onto]. apply rev_onto_append. Qed.

Lemma rev_append (a b : string) : rev (a +:+ b) = rev b +:+ rev a.
Proof.
  induction a as [| c a IH].
  - change (EmptyString +:+ b) with b. change (rev EmptyString) with EmptyString.
    rewrite append_empty_r. reflexivity.
  - rewrite append_cons, !rev_cons, IH, append_associative. reflexivity.
Qed.

Lemma rev_rev (s : string) : rev (rev s) = s.
Proof.
  induction s as [| c s IH]; [reflexivity |].
  rewrite rev_cons, rev_append, IH. reflexivity.
Qed.

Lemma has_char_rev (x : ascii) (s : string) : has_char x (rev s) = has_char x s.
Proof.
  induction s as [| c s IH]; [reflexivity |].
  rewrite rev_cons, has_char_app, IH. cbn [has_char].
  rewrite orb_false_r. apply orb_comm.
Qed.

(** Trimming stops at a character that is not white space. *)
Lemma trimStart_keeps (c : ascii) (lead rest : string) :
  is_space c = false ->
  exists lead',
    trimStart (lead +:+ String c rest) = lead' +:+ String c rest
    /\ forall x, has_char x lead = false -> has_char x lead' = false.
Proof.
  intros Hc. induction lead as [| a lead IH].
  - exists EmptyString. split; [| auto].
    change (EmptyString +:+ String c rest) with (String c rest).
    cbn [trimStart]. rewrite Hc. reflexivity.
  - rewrite append_cons. cbn [trimStart]. destruct (is_space a).
    + destruct IH as (lead' & Heq & Hno). exists lead'. split; [exact Heq |].
      intros x Hx. apply Hno. cbn [has_char] in Hx.
      apply orb_false_iff in Hx. tauto.
    + exists (String a lead). split; [reflexivity | auto].
Qed.

Lemma trimEnd_keeps (c : ascii) (front trail : string) :
  is_space c = false ->
  exists trail',
    trimEnd (front +:+ String c trail) = front +:+ String c trail'
    /\ forall x, has_char x trail = false -> has_char x trail' = false.
Proof.
  intros Hc. unfold trimEnd.
  rewrite rev_append, rev_cons, append_associative.
  change (String c EmptyString +:+ rev front) with (String c (rev front)).
  destruct (trimStart_keeps c (rev trail) (rev front) Hc) as (t' & -> & Hno).
  exists (rev t'). split.
  - rewrite rev_append, rev_cons, rev_rev, append_associative. reflexivity.
  - intros x Hx. rewrite has_char_rev. apply Hno. rewrite has_char_rev. exact Hx.
Qed.

Lemma trim_fixed (c d : ascii) (mid : string) :
  is_space c = false -> is_space d = false ->
  trim (String c (mid +:+ String d EmptyString)) = String c (mid +:+ String d EmptyString).
Proof.
  intros Hc Hd. unfold trim. cbn [trimStart]. rewrite Hc.
  change (String c (mid +:+ String d EmptyString))
    with (String c mid +:+ String d EmptyString).
  destruct (trimEnd_keeps d (String c mid) EmptyString Hd) as (trail' & -> & Hno).
  destruct trail' as [| x trail']; [reflexivity |].
  specialize (Hno x eq_refl). cbn [has_char] in Hno. rewrite Ascii.eqb_refl in Hno.
  discriminate.
Qed.

Lemma lastIndexOf_absent (c : ascii) (s : string) (i : nat) (found : option nat) :
  has_char c s = false -> lastIndexOf_from c s i found = found.
Proof.
  revert i found. induction s as [| a s IH]; intros i found; cbn; [reflexivity |].
  destruct (Ascii.eqb a c); [discriminate |]. cbn. apply IH.
Qed.

Lemma lastIndexOf_last (c : ascii) (front trail : string) (i : nat) (found : option nat) :
  has_char c trail = false ->
  lastIndexOf_from c (front +:+ String c trail) i found
  = Some (i + String.length front)%nat.
Proof.
  intros Htrail. revert i found. induction front as [| a front IH]; intros i found.
  - change (EmptyString +:+ String c trail) with (String c trail).
    cbn [lastIndexOf_from]. rewrite Ascii.eqb_refl.
    rewrite lastIndexOf_absent by assumption. cbn. f_equal. lia.
  - rewrite append_cons. cbn [lastIndexOf_from String.length]. rewrite IH. f_equal. lia.
Qed.

Lemma indexOf_first (c : ascii) (lead rest : string) (i : nat) :
  has_char c lead = false ->
  indexOf_from c (lead +:+ String c rest) i = Some (i + String.length lead)%nat.
Proof.
  revert i. induction lead as [| a lead IH]; intros i Hlead.
  - change (EmptyString +:+ String c rest) with (String c rest).
    cbn [indexOf_from]. rewrite Ascii.eqb_refl. cbn. f_equal. lia.
  - rewrite append_cons. cbn [indexOf_from String.length].
    cbn [has_char] in Hlead. apply orb_false_iff in Hlead as [-> Hlead].
    rewrite IH by assumption. f_equal. lia.
Qed.

Lemma take_through (c : ascii) (front trail : string) :
  take (S (String.length front)) (front +:+ String c trail) = front +:+ String c EmptyString.
Proof.
  induction front as [| a front IH]; [reflexivity |].
  rewrite !append_cons.
  change (String a (take (S (String.length front)) (front +:+ String c trail))
          = String a (front +:+ String c EmptyString)).
  rewrite IH. reflexivity.
Qed.

Lemma drop_lead (lead rest : string) : drop (String.length lead) (lead +:+ rest) = rest.
Proof.
  induction lead as [| a lead IH]; [destruct rest; reflexivity |].
  rewrite append_cons. cbn [String.length drop]. exact IH.
Qed.

End StringFacts.

Section MetadataAuditorScope.
Context `{RT : JsRuntime}.
Import Js Types Coerce.
Import McpMetadataValidator.

(** X25. [cleanJSON] keeps the object and drops what surrounds it.  For
    an answer of the form [lead { mid } trail], where [lead] holds no
    opening brace and [trail] no closing brace, the cleaned text is
    exactly [{ mid }]: notes before and after the object, code fences
    and white space are removed, whatever [mid] holds. *)
Theorem cleanJSON_keeps_the_object (lead mid trail : string) :
  has_char "{" lead = false ->
  has_char "}" trail = false ->
  cleanJSON (lead +:+ String "{" (mid +:+ String "}" trail))
  = String "{" (mid +:+ String "}" EmptyString).
Proof.
  intros Hlead Htrail.
  assert (Hopen : is_space "{" = false) by reflexivity.
  assert (Hclose : is_space "}" = false) by reflexivity.
  assert (Htrim : exists lead' trail',
             trim (lead +:+ String "{" (mid +:+ String "}" trail))
             = (lead' +:+ String "{" mid) +:+ String "}" trail'
             /\ has_char "{" lead' = false /\ has_char "}" trail' = false).
  { unfold trim.
    destruct (trimStart_keeps "{" lead (mid +:+ String "}" trail) Hopen)
      as (lead' & -> & Hno).
    replace (lead' +:+ String "{" (mid +:+ String "}" trail))
      with ((lead' +:+ String "{" mid) +:+ String "}" trail)
      by (rewrite append_associative; reflexivity).
    destruct (trimEnd_keeps "}" (lead' +:+ String "{" mid) trail Hclose)
      as (trail' & -> & Hno').
    exists lead', trail'. auto. }
  destruct Htrim as (lead' & trail' & Htrim & Hno & Hno').
  unfold cleanJSON. cbv zeta. rewrite Htrim.
  unfold lastIndexOf. rewrite (lastIndexOf_last "}" _ trail' 0 None Hno').
  cbn [Nat.add]. rewrite take_through.
  replace ((lead' +:+ String "{" mid) +:+ String "}" EmptyString)
    with (lead' +:+ String "{" (mid +:+ String "}" EmptyString))
    by (rewrite (append_associative lead'); reflexivity).
  unfold indexOf. rewrite (indexOf_first "{" lead' _ 0 Hno).
  cbn [Nat.add]. rewrite drop_lead.
  apply trim_fixed; reflexivity.
Qed.

(** X26. The metadata audit runs for [tools/list] only:
    [validateMcpMetadataAsync] starts the audit exactly when the request
    payload of the context is JSON whose [method] is the string
    [tools/list].  A missing, empty or unparsable request payload, the
    payload [null], and the methods [prompts/list] and [resources/list]
    do not start it. *)
Theorem metadata_audit_is_for_tools_list_only (valCtx : ValidationContext) :
  auditsResponse valCtx = true
  <-> exists payload request,
        ctx_requestPayload valCtx = Some payload
        /\ JSON_parse payload = Some request
        /\ get request "method" = Ret (Some (JStr "tools/list")).
Proof.
  unfold auditsResponse, extractMethodFromRequest, parse. split.
  - destruct (ctx_requestPayload valCtx) as [payload |] eqn:Hpayload.
    + assert (Hor : or_string (Some payload) EmptyString = payload)
        by (destruct payload; reflexivity).
      rewrite Hor.
      destruct (JSON_parse payload) as [request |] eqn:Hparse; [| discriminate].
      cbn [bind]. destruct (get request "method") as [method | e] eqn:Hget; [| discriminate].
      cbn [bind try_catch].
      destruct method as [[| b | x | m | items | fields] |]; cbn; try discriminate;
        try (destruct (truthy_string _); discriminate);
        try (destruct b; discriminate); try (destruct (_ && _); discriminate).
      destruct m as [| c m]; [discriminate |]. cbn [truthy_string isListMethod].
      intros Hm. apply String.eqb_eq in Hm. rewrite Hm in Hget. eauto.
    + cbn [or_string]. rewrite JSON_parse_empty. discriminate.
  - intros (payload & request & -> & Hparse & Hget).
    assert (Hor : or_string (Some payload) EmptyString = payload)
      by (destruct payload; reflexivity).
    rewrite Hor, Hparse. cbn [bind]. rewrite Hget. reflexivity.
Qed.

End MetadataAuditorScope.

Lemma cleanJSON_keeps_the_object_witness :
  McpMetadataValidator.cleanJSON "Here is my assessment: {a} as requested. " = "{a}"%string.
Proof.
  apply (cleanJSON_keeps_the_object "Here is my assessment: " "a" " as requested. ");
    reflexivity.
Defined.

(* ================================================================== *)
(** * Worked examples *)
(* ================================================================== *)

Example Z_toString_ex : Js.Z_toString 1048576 = "1048576"%string /\ Js.Z_toString (-30) = "-30"%string
                        /\ Js.Z_toString 0 = "0"%string.
Proof. repeat split; reflexivity. Qed.

Example parseInt_ex :
  Js.parseInt "24" = Some 24%Z /\ Js.parseInt " 08x" = Some 8%Z /\ Js.parseInt "0x1F" = Some 31%Z
  /\ Js.parseInt "abc" = None /\ Js.parseInt "-7" = Some (-7)%Z.
Proof. repeat split; reflexivity. Qed.

Example split_ex : Js.split "." "10.0.0.5" = ["10"; "0"; "0"; "5"]%string
                   /\ Js.split "/" "10.0.0.0/24" = ["10.0.0.0"; "24"]%string.
Proof. split; reflexivity. Qed.

Example trim_ex : Js.trim "  Rejected " = "Rejected"%string.
Proof. reflexivity. Qed.

Example regexp_test_ex :
  let R := {| RegExp.source := RegExp.lit "ab"; RegExp.global := true;
              RegExp.ignoreCase := true; RegExp.lastIndex := 0 |} in
  RegExp.exec R "xxABab" = (Some (2, 4), RegExp.set_lastIndex R 4)
  /\ fst (RegExp.replace R "xxABab-ab" "#") = "xx##-#"%string
  /\ fst (RegExp.replace (RegExp.set_lastIndex
                            {| RegExp.source := RegExp.lit "ab"; RegExp.global := false;
                               RegExp.ignoreCase := false; RegExp.lastIndex := 0 |} 0)
            "xxABab-ab" "#") = "xxAB#-ab"%string.
Proof. repeat split; reflexivity. Qed.

Example pii_redact_ex :
  fst (PIIValidator.validate PIIValidator.PII_PATTERNS "Contact me at alice@example.com"
         {| Types.type := "pii"; Types.pattern := Some "email"%string;
            Types.action := Some "redact"%string; Types.config := None |}
         {| Types.id := "MCPGuardrails"; Types.name := "p"; Types.active := true;
            Types.default_action := "block";
            Types.filters := {| Types.requestPayload := None; Types.responsePayload := None |} |})
  = Types.redact "Contact me at [EMAIL_REDACTED]".
Proof. vm_compute. reflexivity. Qed.

Example cidr_ex :
  AuditValidator.isIPInCIDR "10.0.0.5" "10.0.0.0/24" = true
  /\ AuditValidator.isIPInCIDR "10.0.1.5" "10.0.0.0/24" = false
  /\ AuditValidator.isIPInCIDR "200.1.2.3" "192.0.0.0/0" = true
  /\ AuditValidator.isIPInCIDR "192.168.1.1" "192.168.1.1/32" = true
  /\ AuditValidator.isIPInCIDR "192.168.1.1" "192.168.1.0/32" = false
  /\ AuditValidator.isIPInCIDR "10.0.0.5" "10.0.0.0" = false
  /\ AuditValidator.ipToNumber "192.168.1.1" = 3232235777%Z.
Proof. repeat split; vm_compute; reflexivity. Qed.

Example number_roundtrip_ex :
  Reference.Number_toString 0.9%float = "0.9"%string
  /\ Reference.Number_toString 0.75%float = "0.75"%string
  /\ Reference.Number_toString 1048576%float = "1048576"%string
  /\ Reference.Number_toString (-0.001)%float = "-0.001"%string
  /\ Reference.Number_toString 1e21%float = "1e+21"%string
  /\ Reference.Number_toString 1.5e-7%float = "1.5e-7"%string
  /\ Reference.Number_toString 123456789.125%float = "123456789.125"%string
  /\ Reference.Number_toString 0x1.6666666666666p-1%float = "0.7"%string
  /\ PrimFloat.eqb (Reference.StringToNumber "0.9") 0.9%float = true
  /\ PrimFloat.eqb (Reference.StringToNumber " 12.5e-3 ") 0.0125%float = true
  /\ PrimFloat.eqb (Reference.StringToNumber "0.69999999999999999") 0x1.6666666666666p-1%float = true
  /\ PrimFloat.eqb (Reference.StringToNumber "4.9e-324") 0x1p-1074%float = true
  /\ PrimFloat.eqb (Reference.StringToNumber "1.7976931348623157e308") 0x1.fffffffffffffp+1023%float = true
  /\ Json.is_nan (Reference.StringToNumber "abc") = true.
Proof. repeat split; vm_compute; reflexivity. Qed.

Example json_parse_ex :
  let q := ReferenceJson.q in
  ReferenceJson.parse ("{" +:+ q "jsonrpc" +:+ ":" +:+ q "2.0" +:+ "," +:+ q "id" +:+ ":1,"
                       +:+ q "method" +:+ ": " +:+ q "ping" +:+ "}")
  = Some (JObj [("jsonrpc", JStr "2.0"); ("id", JNum 1%float); ("method", JStr "ping")]%string)
  /\ ReferenceJson.parse "[1, 2.5, true, null, [], {}]"
     = Some (JArr [JNum 1%float; JNum 2.5%float; JBool true; JNull; JArr []; JObj []])
  /\ ReferenceJson.parse EmptyString = None
  /\ ReferenceJson.parse "{" = None
  /\ ReferenceJson.parse "01" = None
  /\ ReferenceJson.parse "nul" = None
  /\ ReferenceJson.stringify (JArr [JObj [("a", JStr "x"); ("b", JNum 0.5%float)]%string; JNull])
     = ("[{" +:+ q "a" +:+ ":" +:+ q "x" +:+ "," +:+ q "b" +:+ ":0.5},null]")%string.
Proof. repeat split; vm_compute; reflexivity. Qed.

Example compile_ex :
  ReferenceRegExp.compile "\b\d{3}-\d{2}-\d{4}\b" = Some PIIValidator.ssn
  /\ ReferenceRegExp.compile "[^\s]+" = Some PIIValidator.non_space
  /\ ReferenceRegExp.compile "\b(?:\d{1,3}\.){3}\d{1,3}\b" = Some PIIValidator.ip_address
  /\ ReferenceRegExp.compile "a(b" = None
  /\ ReferenceRegExp.compile "a**" = None.
Proof. repeat split; vm_compute; reflexivity. Qed.

Example scanner_block_ex :
  fst (PolicyValidator.validateRequest (RT := reference) Scenario.rejecting 0
         (Scenario.call "read_file")
         (Scenario.context None [Scenario.rule "promptAttacks" None (Some "block"%string)] []))
  = Js.Ret (Types.block "Blocked by scanner: PromptInjection (risk score: 0.9)"
              [("policy_id", Types.MStr "MCPGuardrails");
               ("scanner", Types.MJson (Some (JStr "PromptInjection")));
               ("risk_score", Types.MJson (Some (JNum 0.9%float)));
               ("details", Types.MJson None)]%string).
Proof. vm_compute. reflexivity. Qed.

Example conditional_expiry_ex :
  let conditions := {| Types.expiresAt := Some 1000%Z; Types.allowedIps := None;
                       Types.allowedIpRanges := None; Types.whitelistedEndpoints := None |} in
  AuditValidator.validateRequest (RT := reference) 1700000000000 (Scenario.call "read_file")
    (Scenario.context None []
       [Scenario.audit "read_file" "Conditionally Approved" (Some conditions)])
  = Js.Ret (Some (AuditValidator.audit_block "Conditional approval has expired")).
Proof. vm_compute. reflexivity. Qed.

Example cidr_allow_list_ex :
  let conditions range :=
    {| Types.expiresAt := None; Types.allowedIps := None;
       Types.allowedIpRanges := Some [range]; Types.whitelistedEndpoints := None |} in
  let run range :=
    AuditValidator.validateRequest (RT := reference) 0 (Scenario.call "read_file")
      (Scenario.context None []
         [Scenario.audit "read_file" "Conditionally Approved" (Some (conditions range))]) in
  run "10.0.0.0/24"%string = Js.Ret (Some Types.allow)
  /\ run "10.0.1.0/24"%string
     = Js.Ret (Some (AuditValidator.audit_block "Client IP is not in the allowed list")).
Proof. split; vm_compute; reflexivity. Qed.

Example pii_redacts_every_match_ex :
  fst (PIIValidator.validate PIIValidator.PII_PATTERNS "bob@x.org, alice@example.com."
         (Scenario.rule "pii" (Some "Email"%string) (Some "redact"%string)) (Scenario.policy []))
  = Types.redact "[EMAIL_REDACTED], [EMAIL_REDACTED].".
Proof. vm_compute. reflexivity. Qed.

Example rate_limit_sequence_ex :
  let cfg := Some {| Types.enabled := true; Types.limit := 2; Types.windowSeconds := 60;
                     Types.identifierTypes := [Types.TOOL] |} in
  let step kv now :=
    match RateLimitValidator.validateRequest (RT := reference) kv now (now + 1)
            (Scenario.call "read_file") (Scenario.context None [] []) cfg with
    | (Js.Ret (Some r), kv') => (Types.allowed r, Types.metadata_of r "reset_in_seconds", kv')
    | _ => (false, None, kv)
    end in
  let '(a1, _, kv1) := step ∅ 1000%Z in
  let '(a2, _, kv2) := step kv1 2000%Z in
  let '(a3, secondsLeft, kv3) := step kv2 3000%Z in
  let '(a4, _, _) := step kv3 62000%Z in
  (a1, a2, a3, secondsLeft, a4) = (true, true, false, Some (Types.MInt 58), true).
Proof. vm_compute. reflexivity. Qed.

Example extractor_frames_tool_calls_ex :
  PolicyValidator.extractUserControlledFields (RT := reference) (Scenario.call "read_file")
  = ("Tool: read_file" +:+ Js.nl +:+ "Arguments:" +:+ Js.nl +:+ "{}" +:+ Js.nl
     +:+ "Context:" +:+ Js.nl +:+ "origin: mcp_call")%string.
Proof. vm_compute. reflexivity. Qed.

Example converted_policy_ex :
  let policy := PolicyManager.convertGuardrailsToPolicy Scenario.strict in
  option_map (map Types.type) (Types.requestPayload (Types.filters policy))
  = Some ["harmfulCategories"; "promptAttacks"; "banTopics"; "banSubstrings"; "pii";
          "regex"]%string
  /\ option_map (map Types.type) (Types.responsePayload (Types.filters policy))
     = Some ["banTopics"; "banSubstrings"; "pii"; "regex"]%string
  /\ option_map (map Types.action) (Types.responsePayload (Types.filters policy))
     = Some [Some "block"; Some "block"; Some "redact"; Some "block"]%string
  /\ PolicyManager.fetchGuardrailPolicies Scenario.guardrails_reply = Js.Ret [policy]
  /\ PolicyManager.fetchGuardrailPolicies
       (PolicyManager.GuardrailResponse true
          (PolicyManager.GuardrailBody (Some [Some Scenario.strict; None])))
     = Js.Throw Js.TypeError.
Proof. repeat split; reflexivity. Qed.

Example processor_blocks_and_reports_ex :
  let run :=
    MCPProcessor.processRequest (RT := reference) Scenario.gateway 0 1700000000123
      (Scenario.call "read_file") (Scenario.context None [] []) [Scenario.harmful] ∅ false in
  option_map MCPProcessor.isBlocked
    (match MCPProcessor.answer run with Js.Ret result => Some result | Js.Throw _ => None end)
  = Some true
  /\ Types.ctx_responsePayload (MCPProcessor.context run)
     = Some ("{" +:+ Scenario.q "jsonrpc" +:+ ":" +:+ Scenario.q "2.0" +:+ ","
             +:+ Scenario.q "error" +:+ ":{" +:+ Scenario.q "code" +:+ ":-32000,"
             +:+ Scenario.q "message" +:+ ":" +:+ Scenario.q "Request blocked by security policy"
             +:+ "," +:+ Scenario.q "data" +:+ ":{" +:+ Scenario.q "reason" +:+ ":"
             +:+ Scenario.q "Blocked by scanner: Toxicity (risk score: 0.9)" +:+ ","
             +:+ Scenario.q "original_payload" +:+ ":"
             +:+ ReferenceJson.stringify (JStr (Scenario.call "read_file")) +:+ "}}}")%string
  /\ map (fun report => (ThreatReporter.authorization report,
                         ThreatReporter.filterId (ThreatReporter.maliciousEvent report),
                         ThreatReporter.detectedAt (ThreatReporter.maliciousEvent report)))
       (MCPProcessor.reports run)
     = [("Bearer secret", Types.MStr "MCPGuardrails", "1700000000")]%string.
Proof. vm_compute. repeat split; reflexivity. Qed.

Example processor_forwards_what_is_not_json_ex :
  let run :=
    MCPProcessor.processRequest (RT := reference) Scenario.gateway 0 0
      "you are stupid" (Scenario.context None [] []) [Scenario.harmful] ∅ false in
  MCPProcessor.answer run = Js.Ret (MCPProcessor.forwarded None None)
  /\ MCPProcessor.events run = []
  /\ fst (PolicyValidator.validateRequest (RT := reference) Scenario.rejecting 0
            "you are stupid"
            (Scenario.context None [Scenario.rule "harmfulCategories" None None] []))
     = PolicyValidator.scannerBlock (RT := reference)
         (PolicyValidator.collectTasks "prompt" Types.requestPayload [Scenario.harmful])
         (JObj [("scanner_name", JStr "Toxicity"); ("is_valid", JBool false);
                ("risk_score", JNum 0.9%float)]%string).
Proof. vm_compute. repeat split; reflexivity. Qed.

Example batch_ex :
  map (fun r => (ValidationHandler.index r, ValidationHandler.requestAllowed r,
                 ValidationHandler.requestError r)) Scenario.batch_results
  = [(0%nat, false, None); (1%nat, true, Some Js.TypeError)].
Proof. reflexivity. Qed.

Example reset_opens_a_fresh_window_ex :
  let kv : gmap string RateLimitValidator.entry :=
    {[ "ratelimit:read_file"%string :=
         {| RateLimitValidator.value :=
              {| RateLimitValidator.count := 2; RateLimitValidator.resetAt := 61000 |};
            RateLimitValidator.expirationTtl := 60 |} ]} in
  RateLimitValidator.getRateLimitStatus kv "read_file"
  = Some {| RateLimitValidator.count := 2; RateLimitValidator.resetAt := 61000 |}
  /\ RateLimitValidator.check_allowed
       (fst (RateLimitValidator.checkRateLimit kv 3000 "ratelimit:read_file" 2 60)) = false
  /\ RateLimitValidator.check_allowed
       (fst (RateLimitValidator.checkRateLimit
               (RateLimitValidator.resetRateLimit kv "read_file") 3000
               "ratelimit:read_file" 2 60)) = true.
Proof. repeat split; reflexivity. Qed.

Example metadata_gate_ex :
  McpMetadataValidator.auditsResponse (RT := reference)
    (MCPProcessor.with_requestPayload (Scenario.context None [] []) Scenario.list_tools) = true
  /\ McpMetadataValidator.auditsResponse (RT := reference)
       (MCPProcessor.with_requestPayload (Scenario.context None [] [])
          (Scenario.call "read_file")) = false
  /\ McpMetadataValidator.auditsResponse (RT := reference) (Scenario.context None [] []) = false.
Proof. repeat split; vm_compute; reflexivity. Qed.

Example string_conversion_ex :
  Coerce.ToString (RT := reference)
    (JArr [JNum 1%float; JNull; JStr "a"; JArr [JBool true; JObj []]])
  = Js.Ret "1,,a,true,[object Object]"%string
  /\ Coerce.ToString (RT := reference) (JObj [("valueOf", JNum 1%float)]%string)
     = Js.Ret "[object Object]"%string
  /\ Coerce.ToString (RT := reference) (JObj [("toString", JNum 1%float)]%string)
     = Js.Throw Js.TypeError
  /\ Coerce.ToString (RT := reference)
       (JArr [JStr "a"; JObj [("toString", JNull)]%string]) = Js.Throw Js.TypeError
  /\ Coerce.gt (RT := reference) (Some (JArr [JStr "0.9"])) 0.75%float = Js.Ret true
  /\ Coerce.gt (RT := reference) (Some (JObj [("toString", JNum 1%float)]%string)) 0.75%float
     = Js.Throw Js.TypeError.
Proof. repeat split; vm_compute; reflexivity. Qed.

(** A tool call whose name has no string conversion: the rate limiter
    throws, before the counter is touched when the name is part of the
    identifier and after it has been counted otherwise; the audit
    validator throws when there is a map to look the name up in; the
    extractor falls back to the whole payload. *)
Example unprintable_tool_name_ex :
  let cfg idTypes :=
    Some {| Types.enabled := true; Types.limit := 2; Types.windowSeconds := 60;
            Types.identifierTypes := idTypes |} in
  let valCtx := Scenario.context None [] [] in
  RateLimitValidator.validateRequest (RT := reference) ∅ 1000 1001 Scenario.masked_call
    valCtx (cfg [Types.IP; Types.TOOL])
  = (Js.Throw Js.TypeError, ∅)
  /\ RateLimitValidator.validateRequest (RT := reference) ∅ 1000 1001 Scenario.masked_call
       valCtx (cfg [Types.IP])
     = (Js.Throw Js.TypeError,
        {[ "ratelimit:10.0.0.5"%string :=
             {| RateLimitValidator.value :=
                  {| RateLimitValidator.count := 1; RateLimitValidator.resetAt := 61000 |};
                RateLimitValidator.expirationTtl := 60 |} ]})
  /\ AuditValidator.validateRequest (RT := reference) 0 Scenario.masked_call valCtx
     = Js.Throw Js.TypeError
  /\ PolicyValidator.extractUserControlledFields (RT := reference) Scenario.masked_call
     = Scenario.masked_call.
Proof. repeat split; vm_compute; reflexivity. Qed.

Example falsy_rule_configuration_ex :
  map (fun cfg =>
         PolicyValidator.config_or_empty
           {| Types.type := "promptAttacks"; Types.pattern := None; Types.action := None;
              Types.config := cfg |})
    [None; Some JNull; Some (JBool false); Some (JNum 0%float); Some (JStr EmptyString);
     Some (JObj [("threshold", JNum 0.5%float)]%string)]
  = [JObj []; JObj []; JObj []; JObj []; JObj [];
     JObj [("threshold", JNum 0.5%float)]%string].
Proof. reflexivity. Qed.

Example input_schema_ex :
  McpMetadataValidator.extractInputSchema (RT := reference)
    (JObj [("name", JStr "search");
           ("inputSchema",
            JObj [("properties",
                   JObj [("query", JObj [("type", JStr "string");
                                         ("description", JStr "what to look for")]);
                         ("filter",
                          JObj [("type", JStr "object");
                                ("properties",
                                 JObj [("tags", JObj [("type", JStr "array")])])]);
                         ("limit", JNum 10%float)])])]%string)
  = Js.Ret "query=what to look for | filter=No description | filter.tags=No description"%string
  /\ McpMetadataValidator.extractInputSchema (RT := reference) Scenario.get_weather
     = Js.Ret "(none)"%string
  /\ McpMetadataValidator.extractInputSchema (RT := reference)
       (JObj [("inputSchema",
               JObj [("properties",
                      JObj [("q", JObj [("description",
                                         JObj [("toString", JNum 1%float)])])])])]%string)
     = Js.Throw Js.TypeError.
Proof. repeat split; vm_compute; reflexivity. Qed.
